(** * Schocken: a shallow embedding of [schocken/base.py] and [schocken/game.py]

    Python exceptions are modelled by the [result] type below; dataclasses are
    records; the Python lists sorted with [list.sort] are sorted with a stable
    insertion sort, which yields the same list as Python's stable sort for the
    comparators used here (strict weak orders). *)

From Stdlib Require Import String Ascii Sorted.
From stdpp Require Import base list gmap.
Open Scope Z_scope.

(** ** Exceptions and the error monad *)

Inductive exn :=
  | ValueError
  | KeyError
  | TypeError
  | AssertionError
  | StopIteration
  | IndexError
  | Warning.

Inductive result (A : Type) :=
  | Ok (a : A)
  | Err (e : exn).
Arguments Ok {A} a.
Arguments Err {A} e.

Definition bind_res {A B} (r : result A) (k : A -> result B) : result B :=
  match r with Ok a => k a | Err e => Err e end.

Notation "'let*' x ':=' c 'in' k" := (bind_res c (fun x => k))
  (at level 200, x name, c at level 100, k at level 200).

(** ** Generic helpers *)

(** Stable insertion sort with a strict comparator [lt]: [x], taken from
    further left in the input than every element of [l], is inserted before
    the first element of [l] that is not strictly smaller than it. For a
    strict weak order this is the list Python's stable [list.sort] returns. *)
Fixpoint insert_by {A} (lt : A -> A -> bool) (x : A) (l : list A) : list A :=
  match l with
  | [] => [x]
  | y :: r => if lt y x then y :: insert_by lt x r else x :: y :: r
  end.

Fixpoint isort {A} (lt : A -> A -> bool) (l : list A) : list A :=
  match l with
  | [] => []
  | x :: r => insert_by lt x (isort lt r)
  end.

(** ** [Die] *)

Record Die := mkDie {
  value : Z;
  visible : bool;
  taken_out : bool
}.

(** [Die.__post_init__]: value in 1..6 or the sentinel -1. *)
Definition Die_new (v : Z) (vis tko : bool) : result Die :=
  if negb ((1 <=? v) && (v <=? 6)) && negb (v =? -1) then Err ValueError
  else Ok (mkDie v vis tko).

Definition make_a_one (d : Die) : Die := mkDie 1 true true.

(** [Die.throw]: the random value [r] is supplied by the caller. *)
Definition throw (r : Z) (d : Die) : Die := mkDie r false false.

(** Dataclass equality [==] on dice: field-wise. *)
Definition Die_eqb (d e : Die) : bool :=
  (value d =? value e) && Bool.eqb (visible d) (visible e)
  && Bool.eqb (taken_out d) (taken_out e).

(** ** [HandType]

    Every [HandType] object is built through [__post_init__], which rejects
    any [hand_type] string other than the five below; the string is therefore
    represented by an enumeration. *)

Inductive hand_kind := SchockOut | Schock | General | Straight | HighDice.

Definition kind_of_string (s : string) : option hand_kind :=
  if String.eqb s "Schock-out" then Some SchockOut
  else if String.eqb s "Schock" then Some Schock
  else if String.eqb s "General" then Some General
  else if String.eqb s "Straight" then Some Straight
  else if String.eqb s "High Dice" then Some HighDice
  else None.

Record HandType := mkHandType {
  hand_type : hand_kind;
  hand_type_value : Z
}.

Definition hand_kind_eqb (a b : hand_kind) : bool :=
  match a, b with
  | SchockOut, SchockOut | Schock, Schock | General, General
  | Straight, Straight | HighDice, HighDice => true
  | _, _ => false
  end.

(** [HandType(hand_type=s, hand_type_value=v)] with its validation. *)
Definition HandType_new (s : string) (v : Z) : result HandType :=
  if String.eqb s "" then Err ValueError else
  match kind_of_string s with
  | None => Err ValueError
  | Some k =>
      let bad :=
        match k with
        | SchockOut => false
        | _ => v =? 0
        end
        || match k with
           | Schock | General => (v <? 2) || (6 <? v)
           | Straight => (v <? 1) || (4 <? v)
           | HighDice => (v <? 221) || (665 <? v)
           | SchockOut => false
           end in
      if bad then Err ValueError else Ok (mkHandType k v)
  end.

(** [HandType.internal_rank] *)
Definition internal_rank (t : HandType) : Z :=
  match hand_type t with
  | SchockOut => 5000
  | Schock => 4000 + hand_type_value t
  | General => 3000 + hand_type_value t
  | Straight => 2000 + hand_type_value t
  | HighDice => 1000 + hand_type_value t
  end.

(** [HandType.chips] *)
Definition chips (t : HandType) : Z :=
  match hand_type t with
  | SchockOut => 13
  | Schock => hand_type_value t
  | General => 3
  | Straight => 2
  | HighDice => 1
  end.

(** [HandType.__eq__] and [HandType.__lt__] *)
Definition HandType_eqb (a b : HandType) : bool := internal_rank a =? internal_rank b.
Definition HandType_ltb (a b : HandType) : bool := internal_rank a <? internal_rank b.

(** ** [Hand] *)

Record Hand := mkHand {
  dice : list Die;
  cached_hand_type : option HandType;   (* [_hand_type] *)
  put_together : bool;
  players_turn_ind : Z;
  finalized : bool
}.

Definition set_dice_raw (h : Hand) (d : list Die) : Hand :=
  mkHand d (cached_hand_type h) (put_together h) (players_turn_ind h) (finalized h).
Definition set_cache (h : Hand) (t : option HandType) : Hand :=
  mkHand (dice h) t (put_together h) (players_turn_ind h) (finalized h).
Definition set_put_together (h : Hand) (b : bool) : Hand :=
  mkHand (dice h) (cached_hand_type h) b (players_turn_ind h) (finalized h).
Definition set_finalized (h : Hand) (b : bool) : Hand :=
  mkHand (dice h) (cached_hand_type h) (put_together h) (players_turn_ind h) b.
Definition set_turn_ind (h : Hand) (i : Z) : Hand :=
  mkHand (dice h) (cached_hand_type h) (put_together h) i (finalized h).

(** [Hand.sort]: [self._dice.sort(key=lambda die: die.value, reverse=True)] *)
Definition Hand_sort (h : Hand) : Hand :=
  set_dice_raw h (isort (fun x y => value y <? value x) (dice h)).

(** [sorted(...)] on integers, ascending *)
Definition sorted_Z (l : list Z) : list Z := isort Z.ltb l.

Definition list_Z_eqb (l m : list Z) : bool :=
  bool_decide (l = m).

(** [len(set(l))] *)
Definition distinct_count (l : list Z) : nat := length (List.nodup Z.eq_dec l).

Definition nth_value (d : list Die) (i : nat) : Z :=
  match nth_error d i with Some x => value x | None => 0 end.

Definition high_dice (h : Hand) : result Hand :=
  let h := Hand_sort h in
  let* t := HandType_new "High Dice"
              (100 * nth_value (dice h) 0 + 10 * nth_value (dice h) 1
               + nth_value (dice h) 2) in
  Ok (set_cache h (Some t)).

(** [Hand.detemine_hand_type] (the name is spelled as in the source). *)
Definition detemine_hand_type (h : Hand) : result Hand :=
  if negb (Nat.eqb (length (dice h)) 3) then Ok h else
  let vs := map value (dice h) in
  let ones_count := length (filter (fun v => v =? 1) vs) in
  if Nat.eqb ones_count 3 then
    let* t := HandType_new "Schock-out" 0 in Ok (set_cache h (Some t))
  else if Nat.eqb ones_count 2 then
    match filter (fun d => negb (value d =? 1)) (dice h) with
    | [d] => let* t := HandType_new "Schock" (value d) in Ok (set_cache h (Some t))
    | _ => Err AssertionError
    end
  else if Nat.eqb (distinct_count vs) 1 then
    let* t := HandType_new "General" (nth_value (dice h) 0) in
    Ok (set_cache h (Some t))
  else if Nat.eqb (distinct_count vs) 3 then
    let sv := sorted_Z vs in
    if list_Z_eqb sv [1; 2; 3] && negb (put_together h) then
      let* t := HandType_new "Straight" 1 in Ok (set_cache h (Some t))
    else if list_Z_eqb sv [2; 3; 4] then
      let* t := HandType_new "Straight" 2 in Ok (set_cache h (Some t))
    else if list_Z_eqb sv [3; 4; 5] then
      let* t := HandType_new "Straight" 3 in Ok (set_cache h (Some t))
    else if list_Z_eqb sv [4; 5; 6] then
      let* t := HandType_new "Straight" 4 in Ok (set_cache h (Some t))
    else high_dice h
  else high_dice h.

(** [Hand.update]: sort, mark as put together if a die was taken out,
    determine the hand type. *)
Definition update (h : Hand) : result Hand :=
  let h := Hand_sort h in
  let h := if existsb taken_out (dice h) then set_put_together h true else h in
  detemine_hand_type h.

(** The [Hand.dice] setter: assign and [update]. *)
Definition set_dice (h : Hand) (d : list Die) : result Hand :=
  update (set_dice_raw h d).

(** [Hand()] : empty dice, no cached type; [__post_init__] runs [update]. *)
Definition Hand_empty : Hand := mkHand [] None false 0 false.

(** The [Hand.hand_type] property: the cached type, or [HandType()], whose
    validation rejects the empty type string. *)
Definition Hand_hand_type (h : Hand) : result HandType :=
  match cached_hand_type h with
  | Some t => Ok t
  | None => HandType_new "" 0
  end.

(** [Hand.copy]: a fresh [Hand()], the copied dice assigned through the
    setter, the flags and the cached type copied, then [update]. *)
Definition Hand_copy (h : Hand) : result Hand :=
  let* n := set_dice Hand_empty (dice h) in
  let n := mkHand (dice n) (cached_hand_type h) (put_together h)
                  (players_turn_ind h) (finalized h) in
  update n.

(** [Hand.__lt__]: by hand type, and for equal hand types the higher
    [players_turn_ind] is the worse hand. *)
Definition Hand_lt (h g : Hand) : result bool :=
  let* a := Hand_hand_type h in
  let* b := Hand_hand_type g in
  if HandType_eqb a b then Ok (players_turn_ind g <? players_turn_ind h)
  else Ok (HandType_ltb a b).

(** Stable insertion sort with a comparator that may raise. *)
Fixpoint insert_by_res {A} (lt : A -> A -> result bool) (x : A) (l : list A)
    : result (list A) :=
  match l with
  | [] => Ok [x]
  | y :: r =>
      let* b := lt y x in
      if b then let* r' := insert_by_res lt x r in Ok (y :: r') else Ok (x :: y :: r)
  end.

Fixpoint isort_res {A} (lt : A -> A -> result bool) (l : list A) : result (list A) :=
  match l with
  | [] => Ok []
  | x :: r => let* r' := isort_res lt r in insert_by_res lt x r'
  end.

(** ** Strings: [str], [int], [str.split], [in] *)

Fixpoint digits_aux (fuel : nat) (n : Z) (acc : string) : string :=
  match fuel with
  | O => acc
  | S f =>
      let acc' := String (ascii_of_nat (48 + Z.to_nat (n mod 10))) acc in
      if n <? 10 then acc' else digits_aux f (n / 10) acc'
  end.

(** [str(n)] for an integer. *)
(** Digits enough for [0 <= n]: [n < 2 ^ (log2 n + 1) <= 10 ^ (log2 n + 1)]. *)
Definition str_fuel (n : Z) : nat := S (Z.to_nat (Z.log2 n)).

Definition str_Z (n : Z) : string :=
  if n <? 0 then String "-" (digits_aux (str_fuel (- n)) (- n) "")
  else digits_aux (str_fuel n) n "".

Fixpoint parse_digits (s : string) (acc : Z) : option Z :=
  match s with
  | EmptyString => Some acc
  | String c r =>
      let d := Z.of_nat (nat_of_ascii c) - 48 in
      if (0 <=? d) && (d <=? 9) then parse_digits r (10 * acc + d) else None
  end.

(** [int(s)] on a string: an optional sign and at least one decimal digit;
    anything else raises [ValueError]. (Python would also strip surrounding
    whitespace and accept digit-group underscores; no name produced or read
    by [Hand] contains either.) *)
Definition int_of_string (s : string) : result Z :=
  let body_sign :=
    match s with
    | String "-" r => (r, -1)
    | String "+" r => (r, 1)
    | _ => (s, 1)
    end in
  match fst body_sign with
  | EmptyString => Err ValueError
  | b => match parse_digits b 0 with
         | Some n => Ok (snd body_sign * n)
         | None => Err ValueError
         end
  end.

(** [s.split(c)] for a one-character separator. *)
Fixpoint split_on (c : ascii) (s : string) : list string :=
  match s with
  | EmptyString => [EmptyString]
  | String x r =>
      let parts := split_on c r in
      if Ascii.eqb x c then EmptyString :: parts
      else match parts with
           | p :: ps => String x p :: ps
           | [] => [String x EmptyString]
           end
  end.

(** [needle in hay] for strings. *)
Definition str_contains (needle hay : string) : bool :=
  match String.index 0 needle hay with Some _ => true | None => false end.

(** [l[i]] on a list of strings. *)
Definition list_get (l : list string) (i : nat) : result string :=
  match nth_error l i with Some x => Ok x | None => Err IndexError end.

Fixpoint string_chars (s : string) : list string :=
  match s with
  | EmptyString => []
  | String c r => String c EmptyString :: string_chars r
  end.

(** ** [Hand.to_name] and [Hand.from_name] *)

Definition Hand_to_name (h : Hand) : result string :=
  let* t := Hand_hand_type h in
  let v := hand_type_value t in
  Ok (match hand_type t with
     | SchockOut => "Schock-out"
     | Schock => "Schock-" ++ str_Z v
     | General => "General-" ++ str_Z v
     | Straight => "Straight-" ++ str_Z v ++ ":" ++ str_Z (v + 2)
     | HighDice =>
         let val := str_Z v in
         if String.eqb val "221" then "Motte"
         else substring 0 2 val ++ "-" ++ substring 2 1 val
     end)%string.

Definition new_die (v : Z) : result Die := Die_new v false false.

Fixpoint mapM {A B} (f : A -> result B) (l : list A) : result (list B) :=
  match l with
  | [] => Ok []
  | x :: r => let* y := f x in let* ys := mapM f r in Ok (y :: ys)
  end.

Definition Hand_from_name (name : string) : result Hand :=
  let hand := Hand_empty in
  let* hand :=
    if String.eqb name "Motte" then
      let* d := mapM new_die [1; 2; 2] in set_dice hand d
    else if str_contains "Schock-out" name then
      let* d := mapM new_die [1; 1; 1] in set_dice hand d
    else if str_contains "Schock-" name then
      let* p := list_get (split_on "-" name) 1 in
      let* v := int_of_string p in
      let* d := mapM new_die [1; 1; v] in set_dice hand d
    else if str_contains "General-" name then
      let* p := list_get (split_on "-" name) 1 in
      let* v := int_of_string p in
      let* d := mapM new_die [v; v; v] in set_dice hand d
    else if str_contains "Straight-" name then
      let* p := list_get (split_on "-" name) 1 in
      let* p0 := list_get (split_on ":" p) 0 in
      let* v := int_of_string p0 in
      let* d := mapM new_die [v; v + 1; v + 2] in set_dice hand d
    else if str_contains "-" name then
      let values := String.concat "" (split_on "-" name) in
      if negb (Nat.eqb (String.length values) 3) then Err AssertionError else
      let* vs := mapM int_of_string (string_chars values) in
      let* d := mapM new_die vs in
      let* hand := set_dice hand d in
      Ok (if str_contains "1" values then set_put_together hand true else hand)
    else Err ValueError in
  update hand.

(** ** [Hand.get_all_possible_hands] *)

(** [combinations_with_replacement(range(1, 7), 3)], in its order. *)
Definition combos3 : list (Z * Z * Z) :=
  let r := [1; 2; 3; 4; 5; 6] in
  a ← r; b ← filter (fun x => a <=? x) r; c ← filter (fun x => b <=? x) r;
  [(a, b, c)].

Definition rank_present (l : list Hand) (h : Hand) : result bool :=
  let* t := Hand_hand_type h in
  let fix go (l : list Hand) : result bool :=
    match l with
    | [] => Ok false
    | g :: r => let* u := Hand_hand_type g in
                if internal_rank u =? internal_rank t then Ok true else go r
    end in
  go l.

Definition add_if_new (l : list Hand) (h : Hand) : result (list Hand) :=
  let* b := rank_present l h in
  Ok (if b then l else l ++ [h]).

Definition all_hands_step (acc : result (list Hand)) (combo : Z * Z * Z)
    : result (list Hand) :=
  let* possible := acc in
  let '(a, b, c) := combo in
  let* ds := mapM new_die (isort (fun x y => y <? x) [a; b; c]) in
  let* hand := set_dice Hand_empty ds in
  let* hand := update hand in
  let* hand2 := Hand_copy hand in
  let* hand2 := update (set_put_together hand2 true) in
  let* possible := add_if_new possible hand in
  add_if_new possible hand2.

Definition get_all_possible_hands : result (list Hand) :=
  let* l := fold_left all_hands_step combos3 (Ok []) in
  isort_res Hand_lt l.

#[global] Instance hand_kind_eq_dec : EqDecision hand_kind.
Proof. solve_decision. Defined.
#[global] Instance HandType_eq_dec : EqDecision HandType.
Proof. solve_decision. Defined.
#[global] Instance exn_eq_dec : EqDecision exn.
Proof. solve_decision. Defined.
#[global] Instance result_eq_dec {A} `{EqDecision A} : EqDecision (result A).
Proof. solve_decision. Defined.

(** ** [Hand.finalize], [Hand.initialize], [BasePlayer.play_turn] *)

Definition Hand_finalize (h : Hand) : result Hand :=
  if negb (Nat.eqb (length (dice h)) 3) then Err ValueError else
  let* h := update h in
  let h := if existsb taken_out (dice h) then set_put_together h true else h in
  Ok (set_finalized h true).

(** [Hand.initialize]; the three random values of [Die()] are [v1 v2 v3]. *)
Definition Hand_initialize (v1 v2 v3 : Z) (h : Hand) : result Hand :=
  let* h := set_dice h [mkDie v1 false false; mkDie v2 false false; mkDie v3 false false] in
  let h := set_finalized (set_put_together h false) false in
  update h.

Record Turn := mkTurn {
  turn_index : Z;
  player_id : Z;
  final_hand : Hand;
  num_throws : Z
}.

Section PlayTurn.
(** [eval_hand_and_throw] of the player's strategy; its [k]-th call in the
    turn gets the copied current hand and [max_throws]. *)
Variable eval_hand_and_throw : nat -> Hand -> Z -> result (bool * Hand).

Fixpoint turn_loop (fuel : nat) (k : nat) (max_throws throw_count : Z) (h : Hand)
    : result (Hand * Z) :=
  match fuel with
  | O => Ok (h, throw_count)
  | S f =>
      if throw_count <? max_throws then
        let* cur := Hand_copy h in
        let* r := eval_hand_and_throw k cur max_throws in
        let '(end_turn, new_hand) := r in
        if end_turn then Ok (h, throw_count)
        else
          let* h := update new_hand in
          turn_loop f (S k) max_throws (throw_count + 1) h
      else Ok (h, throw_count)
  end.

(** [BasePlayer.play_turn]; [v1 v2 v3] are the values of the initial roll. *)
Definition play_turn (pid : Z) (hand : Hand) (v1 v2 v3 : Z)
    (max_throws turn_index : Z) : result Turn :=
  let* h := Hand_initialize v1 v2 v3 hand in
  let* r := turn_loop (Z.to_nat max_throws) 0 max_throws 1 h in
  let '(h, throw_count) := r in
  let* h := Hand_finalize h in
  let* fh := Hand_copy h in
  Ok (mkTurn turn_index pid fh throw_count).
End PlayTurn.

(** The strategy of the test suite's [DummyPlayer]: always end the turn. *)
Definition dummy_strategy (k : nat) (h : Hand) (m : Z) : result (bool * Hand) :=
  Ok (true, h).

(** ** [BasePlayer._throw_new_hand] with the dice as shared objects

    The dice are objects: [take_out_ones] and [convert_sixes] mutate them in
    place while [dice_to_process] and [dice_processed] hold references to the
    same objects, and Python's [x in l] is [any(x is e or x == e for e in l)]
    with the dataclass [==] on dice. A die is therefore an index into a
    store of die states. *)
Module Throw.
Definition store := list Die.

Definition get (s : store) (i : nat) : Die := nth i s (mkDie (-1) false false).
Definition put (s : store) (i : nat) (d : Die) : store := <[i := d]> s.

(** [x in l] *)
Definition py_in (s : store) (x : nat) (l : list nat) : bool :=
  existsb (fun e => Nat.eqb x e || Die_eqb (get s x) (get s e)) l.

Definition not_processed (s : store) (processed : list nat) (ids : list nat)
    : list nat :=
  filter (fun d => negb (py_in s d processed)) ids.

Definition take_out_ones (fin : bool) (ids : list nat) (sp : store * list nat)
    : result (store * list nat) :=
  if fin then Err ValueError else
  let '(s, processed) := sp in
  let to_process := not_processed s processed ids in
  Ok (fold_left (fun '(s, pr) d =>
        if py_in s d to_process && (value (get s d) =? 1)
        then (put s d (make_a_one (get s d)), pr ++ [d])
        else (s, pr)) ids (s, processed)).

Fixpoint convert_first_six (s : store) (to_process : list nat) (ids : list nat)
    (pr : list nat) : store * list nat :=
  match ids with
  | [] => (s, pr)
  | d :: r =>
      if py_in s d to_process && (value (get s d) =? 6)
      then (put s d (make_a_one (get s d)), pr ++ [d])
      else convert_first_six s to_process r pr
  end.

Definition convert_sixes (fin : bool) (ids : list nat) (sp : store * list nat)
    : result (store * list nat) :=
  if fin then Err ValueError else
  if negb (Nat.eqb (length ids) 3) then Err ValueError else
  let '(s, processed) := sp in
  let to_process := not_processed s processed ids in
  let sixes := length (filter (fun d => value (get s d) =? 6) to_process) in
  if Nat.eqb sixes 3 then
    Ok (fold_left (fun '(s, pr) d => (put s d (make_a_one (get s d)), pr ++ [d]))
          (removelast ids) (s, processed))
  else if Nat.eqb sixes 2 then Ok (convert_first_six s to_process ids processed)
  else Ok (s, processed).

(** The final loop: each die not [in] [dice_processed] is thrown with the
    next random value [roll k]; the booleans record which dice were thrown. *)
Fixpoint throw_rest (roll : nat -> Z) (k : nat) (s : store) (ids processed : list nat)
    : store * list nat * list bool :=
  match ids with
  | [] => (s, processed, [])
  | d :: r =>
      if negb (py_in s d processed) then
        let '(s', pr', fl) :=
          throw_rest roll (S k) (put s d (throw (roll k) (get s d))) r (processed ++ [d]) in
        (s', pr', true :: fl)
      else
        let '(s', pr', fl) := throw_rest roll k s r processed in
        (s', pr', false :: fl)
  end.

(** [_throw_new_hand]: the new hand, the dice set aside by steps 1 and 2
    (as positions in the copied hand), and which positions were thrown. *)
Definition throw_new_hand (roll : nat -> Z) (current : Hand)
    (should_take_out_ones should_convert_sixes should_throw_all : bool)
    : result (Hand * list nat * list bool) :=
  let* new_hand := Hand_copy current in
  let s := dice new_hand in
  let ids := seq 0 (length s) in
  let fin := finalized new_hand in
  let* sp :=
    if negb should_throw_all then
      let* sp := if should_take_out_ones then take_out_ones fin ids (s, [])
                 else Ok (s, []) in
      if should_convert_sixes then convert_sixes fin ids sp else Ok sp
    else Ok (s, []) in
  let '(s, set_aside) := sp in
  let '(s, _, thrown) := throw_rest roll 0 s ids set_aside in
  if negb (Nat.eqb (length ids) 3) then Err AssertionError else
  (* the assertion's [new_hand.dice.sort(...)] sorts the dice in place *)
  let final := isort (fun x y => value y <? value x) (map (get s) ids) in
  Ok (set_dice_raw new_hand final, set_aside, thrown).
End Throw.

(** ** Records of play: [MiniRound], [Half], [Round], [Game] *)

Record MiniRound := mkMiniRound {
  mini_round_players : list Z;
  mini_round_index : nat;
  turns : list Turn;
  worst_turn : option Turn;
  best_turn : option Turn;
  given_chips : Z;
  mr_lost_by : option Z
}.

Definition set_given_chips (mr : MiniRound) (c : Z) : MiniRound :=
  mkMiniRound (mini_round_players mr) (mini_round_index mr) (turns mr)
    (worst_turn mr) (best_turn mr) c (mr_lost_by mr).

(** [Half] with its [ChipManager] inlined; [chip_balances] is the dict as an
    association list in insertion order. *)
Record Half := mkHalf {
  halves_index : nat;
  active_players : list Z;
  mini_rounds : list MiniRound;
  half_lost_by : option Z;
  stock_chips_gone : bool;
  chips_in_stock : Z;
  chip_balances : list (Z * Z)
}.

Record Round := mkRound {
  round_index : nat;
  halves : list Half;
  round_lost_by : option Z
}.

(** [Game]; a player is represented by its id. [mr_calls] counts the
    mini-rounds played so far and indexes the random outcomes of the turns. *)
Record Game := mkGame {
  players : list Z;
  last_mr : option MiniRound;
  mr_calls : nat;
  rounds : list Round
}.

Definition set_last_mr (g : Game) (mr : MiniRound) : Game :=
  mkGame (players g) (Some mr) (mr_calls g) (rounds g).
Definition bump_calls (g : Game) : Game :=
  mkGame (players g) (last_mr g) (S (mr_calls g)) (rounds g).
Definition add_round (g : Game) (r : Round) : Game :=
  mkGame (players g) (last_mr g) (mr_calls g) (rounds g ++ [r]).

(** ** dict operations on the association list *)

Fixpoint dict_lookup (d : list (Z * Z)) (k : Z) : option Z :=
  match d with
  | [] => None
  | (k', v) :: r => if k' =? k then Some v else dict_lookup r k
  end.

(** [d[k]] *)
Definition dict_get (d : list (Z * Z)) (k : Z) : result Z :=
  match dict_lookup d k with Some v => Ok v | None => Err KeyError end.

Fixpoint dict_replace (d : list (Z * Z)) (k v : Z) : list (Z * Z) :=
  match d with
  | [] => []
  | (k', w) :: r => if k' =? k then (k', v) :: r else (k', w) :: dict_replace r k v
  end.

(** [d[k] = v]: an existing key keeps its position, a new key goes last. *)
Definition dict_set (d : list (Z * Z)) (k v : Z) : list (Z * Z) :=
  match dict_lookup d k with
  | Some _ => dict_replace d k v
  | None => d ++ [(k, v)]
  end.

(** [{p.id: 0 for p in ps}] *)
Definition dict_zeros (ps : list Z) : list (Z * Z) :=
  fold_left (fun d p => dict_set d p 0) ps [].

(** The chips held by all players together. *)
Fixpoint sum_balances (d : list (Z * Z)) : Z :=
  match d with [] => 0 | (_, c) :: r => c + sum_balances r end.

(** ** Comparing turns *)

(** [Hand.__eq__] *)
Definition Hand_eq (h g : Hand) : result bool :=
  if players_turn_ind h =? players_turn_ind g then
    let* a := Hand_hand_type h in
    let* b := Hand_hand_type g in
    Ok (HandType_eqb a b)
  else Ok false.

(** [Turn.__lt__] of [@dataclass(order=True)] with only [final_hand]
    compared: the one-element tuples are equal when the hands are [==],
    otherwise the hands' [<] decides. *)
Definition Turn_lt (t u : Turn) : result bool :=
  let* e := Hand_eq (final_hand t) (final_hand u) in
  if e then Ok false else Hand_lt (final_hand t) (final_hand u).

(** [Hand.get_chip_count] *)
Definition get_chip_count (h : Hand) : result Z :=
  if negb (Nat.eqb (length (dice h)) 3) then Err ValueError else
  let* t := Hand_hand_type h in Ok (chips t).

Fixpoint list_index (x : Z) (l : list Z) : option nat :=
  match l with
  | [] => None
  | y :: r => if y =? x then Some 0%nat else option_map S (list_index x r)
  end.

(** [l.remove(x)] *)
Fixpoint list_remove (x : Z) (l : list Z) : result (list Z) :=
  match l with
  | [] => Err ValueError
  | y :: r => if y =? x then Ok r else let* r' := list_remove x r in Ok (y :: r')
  end.

(** [if not mini_round_players: mini_round_players = self.players.copy()] *)
Definition mr_players_of (g : Game) (mrp : list Z) : list Z :=
  match mrp with [] => players g | _ => mrp end.

Section GamePlay.
(** The outcome of the [i]-th turn of the [k]-th mini-round of the game,
    played by player [p]: the final hand [play_turn] returns and its
    number of throws. The random rolls and the strategies are abstracted
    by these two functions. *)
Variable turn_hand : nat -> nat -> Z -> Hand.
Variable turn_throws : nat -> nat -> Z -> Z.

Fixpoint make_turns (k i : nat) (ps : list Z) : list Turn :=
  match ps with
  | [] => []
  | p :: r =>
      mkTurn (Z.of_nat i) p (set_turn_ind (turn_hand k i p) (Z.of_nat i))
             (turn_throws k i p) :: make_turns k (S i) r
  end.

(** [Game.play_mini_round] *)
Definition play_mini_round (g : Game) (mrp : list Z) (idx : nat)
    : result (Game * MiniRound) :=
  let ps := mr_players_of g mrp in
  if (length ps <? 2)%nat || (50 <? length ps)%nat then Err ValueError else
  let ts := make_turns (mr_calls g) 0 ps in
  let* sorted := isort_res Turn_lt ts in
  match sorted with
  | [] => Err IndexError
  | w :: _ =>
      let b := List.last sorted w in
      let* given := get_chip_count (final_hand b) in
      Ok (bump_calls g,
          mkMiniRound ps idx sorted (Some w) (Some b) given (Some (player_id w)))
  end.

(** [_change_starting_player] *)
Definition change_starting_player (all active : list Z) (starter : option Z)
    : result (list Z) :=
  let og := filter (fun p => bool_decide (p ∈ active)) all in
  match starter with
  | None => Err ValueError
  | Some s =>
      match list_index s og with
      | None => Err ValueError
      | Some n => Ok (drop n og ++ take n og)
      end
  end.

(** The removal loop [for p in mr.mini_round_players: ... remove(p)] when
    [mr.mini_round_players] is the very list [half.active_players] it
    removes from: Python's list iterator advances by index, so the element
    after a removed one is skipped. *)
Fixpoint remove_broke_aliased (fuel : nat) (bal : list (Z * Z)) (idx : nat)
    (l : list Z) : result (list Z) :=
  match fuel with
  | O => Ok l
  | S f =>
      match nth_error l idx with
      | None => Ok l
      | Some p =>
          let* c := dict_get bal p in
          if c =? 0 then let* l' := list_remove p l in remove_broke_aliased f bal (S idx) l'
          else remove_broke_aliased f bal (S idx) l
      end
  end.

(** The same loop when the mini-round ran on a copy of [self.players]
    (the active list was empty). *)
Fixpoint remove_broke_copy (bal : list (Z * Z)) (it active : list Z)
    : result (list Z) :=
  match it with
  | [] => Ok active
  | p :: r =>
      let* c := dict_get bal p in
      if c =? 0 then let* a := list_remove p active in remove_broke_copy bal r a
      else remove_broke_copy bal r active
  end.

(** [for pid, chips in chip_balances.items(): ...] *)
Fixpoint check_balances (bal : list (Z * Z)) (lost : option Z) : result (option Z) :=
  match bal with
  | [] => Ok lost
  | (pid, c) :: r =>
      if c =? 13 then check_balances r (Some pid)
      else if (13 <? c) || (c <? 0) then Err ValueError
      else check_balances r lost
  end.

(** The chip distribution of one mini-round: the chips handed out, the
    stock, the exhausted flag and the balances before the loser is paid. *)
Definition distribute (hs : Half) (best_pid : Z) (given : Z)
    : result (Z * Z * bool * list (Z * Z)) :=
  if negb (stock_chips_gone hs) then
    let stock := chips_in_stock hs - given in
    if stock <=? 0 then Ok (given - Z.abs stock, 0, true, chip_balances hs)
    else Ok (given, stock, false, chip_balances hs)
  else
    let* pb := dict_get (chip_balances hs) best_pid in
    let given := Z.min given pb in
    Ok (given, chips_in_stock hs, true, dict_set (chip_balances hs) best_pid (pb - given)).

Definition opt_key (o : option Z) : result Z :=
  match o with Some k => Ok k | None => Err KeyError end.

(** One iteration of the [while] loop of [Game.play_half]; the boolean
    tells whether the loop [break]s. The mini-round appended keeps the
    player list it was played with: in Python [mr.mini_round_players] is
    the list object [half.active_players] when that is non-empty, so the
    removals of this and later passes (until the list is rebuilt by
    [_change_starting_player]) also shorten the list the stored mini-round
    shows. The properties below read a stored mini-round only through its
    turns, which no removal touches. *)
Definition half_body (g : Game) (hs : Half) (idx : nat) (is_regular : bool)
    : result (Game * Half * bool) :=
  let* active :=
    match last_mr g with
    | Some lm => if is_regular then change_starting_player (players g) (active_players hs)
                                    (mr_lost_by lm)
                 else Ok (active_players hs)
    | None => Ok (active_players hs)
    end in
  let* gm := play_mini_round g active idx in
  let '(g, mr) := gm in
  let* best := match best_turn mr with Some b => Ok b | None => Err TypeError end in
  let* bt := Hand_hand_type (final_hand best) in
  let* so := HandType_new "Schock-out" 0 in
  if HandType_eqb bt so then
    Ok (set_last_mr g mr,
        mkHalf (halves_index hs) active (mini_rounds hs ++ [mr]) (mr_lost_by mr)
               (stock_chips_gone hs) (chips_in_stock hs) (chip_balances hs),
        true)
  else
    let* d := distribute hs (player_id best) (given_chips mr) in
    let '(given, stock, gone, bal) := d in
    let mr := set_given_chips mr given in
    let* lost := opt_key (mr_lost_by mr) in
    let* pl := dict_get bal lost in
    let bal := dict_set bal lost (pl + given) in
    let* active :=
      if gone then
        match active with
        | [] => remove_broke_copy bal (mini_round_players mr) active
        | _ => remove_broke_aliased (S (length active)) bal 0 active
        end
      else Ok active in
    let* lost_by := check_balances bal (half_lost_by hs) in
    Ok (set_last_mr g mr,
        mkHalf (halves_index hs) active (mini_rounds hs ++ [mr]) lost_by gone stock bal,
        false).

(** [while half.lost_by == None and mini_round_index < 1000] *)
Fixpoint half_loop (fuel : nat) (g : Game) (hs : Half) (idx : nat) (is_regular : bool)
    : result (Game * Half) :=
  match fuel with
  | O => Ok (g, hs)
  | S f =>
      match half_lost_by hs with
      | Some _ => Ok (g, hs)
      | None =>
          if (idx <? 1000)%nat then
            let* r := half_body g hs idx is_regular in
            let '(g, hs, brk) := r in
            if brk then Ok (g, hs) else half_loop f g hs (S idx) is_regular
          else Ok (g, hs)
      end
  end.

(** The set-up of [Game.play_half] before the loop. *)
Definition half_init (g : Game) (hi : nat) (ps : option (list Z)) : result Half :=
  let is_regular := negb (Nat.eqb hi 2) in
  let* active :=
    match ps with
    | Some ((_ :: _) as l) => if is_regular then Err Warning else Ok l
    | _ => if is_regular then Ok (players g) else Err ValueError
    end in
  Ok (mkHalf hi active [] None false 13 (dict_zeros active)).

(** [Game.play_half] *)
Definition play_half (g : Game) (hi : nat) (ps : option (list Z)) : result (Game * Half) :=
  let* hs := half_init g hi ps in
  half_loop 1000 g hs 0 (negb (Nat.eqb hi 2)).

(** [next(p for p in self.players if p.id == pid)] *)
Definition find_player (all : list Z) (pid : option Z) : result Z :=
  match pid with
  | Some p => if bool_decide (p ∈ all) then Ok p else Err StopIteration
  | None => Err StopIteration
  end.

(** [Game.play_round] *)
Definition play_round (g : Game) (ri : nat) : result (Game * Round) :=
  let* r0 := play_half g 0 None in
  let '(g, h0) := r0 in
  let* r1 := play_half g 1 None in
  let '(g, h1) := r1 in
  if bool_decide (half_lost_by h0 = half_lost_by h1) then
    let r := mkRound ri [h0; h1] (half_lost_by h0) in
    Ok (add_round g r, r)
  else
    let* fp := mapM (find_player (players g)) [half_lost_by h0; half_lost_by h1] in
    let* r2 := play_half g 2 (Some fp) in
    let '(g, h2) := r2 in
    let r := mkRound ri [h0; h1; h2] (half_lost_by h2) in
    Ok (add_round g r, r).
End GamePlay.

(** ** The classification as the spec words it (for the refinement claim C1) *)

(** The category of three die values [a b c] as the spec states it:
    three 1s, two 1s, three equal values, a straight (1-2-3 only when not
    assembled), otherwise high dice over the values sorted descending. *)
Definition claimed_category (a b c : Z) (assembled : bool) : HandType :=
  let vs := [a; b; c] in
  let ones := length (filter (fun v => v =? 1) vs) in
  let s := sorted_Z vs in
  let lo := nth 0 s 0 in
  let mid := nth 1 s 0 in
  let hi := nth 2 s 0 in
  if Nat.eqb ones 3 then mkHandType SchockOut 0
  else if Nat.eqb ones 2 then
    mkHandType Schock (if a =? 1 then if b =? 1 then c else b else a)
  else if (a =? b) && (b =? c) then mkHandType General a
  else if (lo <? mid) && (mid <? hi) && (lo =? 1) && (mid =? 2) && (hi =? 3) then
    if assembled then mkHandType HighDice 321 else mkHandType Straight 1
  else if (lo <? mid) && (mid <? hi) && (hi =? lo + 2) && (2 <=? lo) then
    mkHandType Straight lo
  else mkHandType HighDice (100 * hi + 10 * mid + lo).

Definition hand_of_values (a b c : Z) (pt : bool) : Hand :=
  mkHand [mkDie a false false; mkDie b false false; mkDie c false false]
         None pt 0 false.

Definition cache_of (r : result Hand) : option HandType :=
  match r with Ok h => cached_hand_type h | Err _ => None end.

(** * Definitions for the claims: the spec-side readings, test data *)

(** Split a die value known to lie in 1..6 into its six cases. *)
Ltac enum_value v :=
  let H := fresh in
  assert (H : v = 1 \/ v = 2 \/ v = 3 \/ v = 4 \/ v = 5 \/ v = 6) by lia;
  destruct H as [H|[H|[H|[H|[H|H]]]]]; subst v.

(** The value ranges that [HandType.__post_init__] enforces. *)
Definition value_in_range (t : HandType) : Prop :=
  match hand_type t with
  | SchockOut => True
  | Schock | General => 2 <= hand_type_value t <= 6
  | Straight => 1 <= hand_type_value t <= 4
  | HighDice => 221 <= hand_type_value t <= 665
  end.

(** The order of categories as the spec lists it, worst to best. *)
Definition claimed_category_order (k : hand_kind) : Z :=
  match k with
  | HighDice => 0 | Straight => 1 | General => 2 | Schock => 3 | SchockOut => 4
  end.

Definition all_possible_hands : list Hand :=
  match get_all_possible_hands with Ok l => l | Err _ => [] end.

(** [Hand.from_name(h.to_name())] has the hand type of [h]. *)
Definition name_roundtrips (h : Hand) : Prop :=
  exists n h' t,
    Hand_to_name h = Ok n /\ Hand_from_name n = Ok h' /\
    Hand_hand_type h = Ok t /\ Hand_hand_type h' = Ok t.

Definition name_roundtripsb (h : Hand) : bool :=
  match Hand_to_name h with
  | Ok n =>
      match Hand_from_name n, Hand_hand_type h with
      | Ok h', Ok t => bool_decide (Hand_hand_type h' = Ok t)
      | _, _ => false
      end
  | Err _ => false
  end.

(** All triples of die values with both values of the assembled flag. *)
Definition all_rolls : list (Z * Z * Z * bool) :=
  let r := [1; 2; 3; 4; 5; 6] in
  a ← r; b ← r; c ← r; pt ← [false; true]; [(a, b, c, pt)].

(** Some hand of [l] has the hand type that [detemine_hand_type] gives the
    roll. *)
Definition roll_covered (l : list Hand) (x : Z * Z * Z * bool) : Prop :=
  let '(a, b, c, pt) := x in
  exists h t, In h l /\ Hand_hand_type h = Ok t /\
    cache_of (detemine_hand_type (hand_of_values a b c pt)) = Some t.

Definition roll_coveredb (l : list Hand) (x : Z * Z * Z * bool) : bool :=
  let '(a, b, c, pt) := x in
  existsb (fun h => match Hand_hand_type h with
                    | Ok t => bool_decide (cache_of (detemine_hand_type
                                             (hand_of_values a b c pt)) = Some t)
                    | Err _ => false
                    end) l.

Definition hand_type_of (r : result Hand) : result HandType :=
  let* h := r in Hand_hand_type h.

(** The hand 4-3-2 as the first roll of a turn leaves it. *)
Definition hand_432 : Hand :=
  match set_dice Hand_empty [mkDie 4 false false; mkDie 3 false false; mkDie 2 false false]
  with Ok h => h | Err _ => Hand_empty end.

(** The random rolls: first a 3, then 6s. *)
Definition roll_3_then_6 (k : nat) : Z := if Nat.eqb k 0 then 3 else 6.

Definition turn_rank (t : Turn) : Z :=
  match cached_hand_type (final_hand t) with Some ht => internal_rank ht | None => 0 end.

Definition turn_ind (t : Turn) : Z := players_turn_ind (final_hand t).

(** The spec's Hand/Turn order: by hand type, and for equal hand types the
    turn with the higher turn index is strictly worse. *)
Definition claimed_turn_ltb (t u : Turn) : bool :=
  (turn_rank t <? turn_rank u) ||
  ((turn_rank t =? turn_rank u) && (turn_ind u <? turn_ind t)).

(** The spec's chip values: SchockOut=13, Schock(n)=n, General=3,
    Straight=2, HighDice=1. *)
Definition claimed_chip_value (t : HandType) : Z :=
  match hand_type t with
  | SchockOut => 13
  | Schock => hand_type_value t
  | General => 3
  | Straight => 2
  | HighDice => 1
  end.

Ltac z_cmp :=
  repeat match goal with
  | |- context [Z.ltb ?x ?y] => destruct (Z.ltb_spec x y)
  | |- context [Z.eqb ?x ?y] => destruct (Z.eqb_spec x y)
  | H : context [Z.ltb ?x ?y] |- _ => destruct (Z.ltb_spec x y)
  | H : context [Z.eqb ?x ?y] |- _ => destruct (Z.eqb_spec x y)
  end; cbn in *.

Definition turn_ready (t : Turn) : Prop :=
  length (dice (final_hand t)) = 3%nat /\ cached_hand_type (final_hand t) <> None.

(** Every hand the strategies hand back holds three dice and a category. *)
Definition turn_hands_ready (turn_hand : nat -> nat -> Z -> Hand) : Prop :=
  forall k i p, length (dice (turn_hand k i p)) = 3%nat /\
                cached_hand_type (turn_hand k i p) <> None.

(** A hand of three visible sixes, finalized, as a strategy could return it. *)
Definition demo_hand : Hand :=
  mkHand [mkDie 6 true false; mkDie 6 true false; mkDie 6 true false]
         (Some (mkHandType General 6)) false 0 true.

Definition demo_game : Game := mkGame [1; 2; 3] None 0 [].

(** The chip invariant of a half, as the spec states it. *)
Definition half_chip_inv (hs : Half) : Prop :=
  0 <= chips_in_stock hs /\
  Forall (fun kv => 0 <= snd kv <= 13) (chip_balances hs) /\
  (stock_chips_gone hs = false ->
     chips_in_stock hs + sum_balances (chip_balances hs) = 13) /\
  (stock_chips_gone hs = true ->
     chips_in_stock hs = 0 /\ sum_balances (chip_balances hs) = 13).

Definition turn_hands_valid (turn_hand : nat -> nat -> Z -> Hand) : Prop :=
  forall k i p, length (dice (turn_hand k i p)) = 3%nat /\
    exists s v t, HandType_new s v = Ok t /\ cached_hand_type (turn_hand k i p) = Some t.

(** The states of [Game.play_half] at mini-round boundaries: the state after
    the set-up, and every state one more pass of the loop body leads to while
    the loop condition holds. *)
Inductive half_reachable (turn_hand : nat -> nat -> Z -> Hand)
    (turn_throws : nat -> nat -> Z -> Z) (hi : nat) : Game -> Half -> nat -> Prop :=
| half_reachable_init g ps hs :
    half_init g hi ps = Ok hs -> half_reachable turn_hand turn_throws hi g hs 0
| half_reachable_step g hs idx g' hs' brk :
    half_reachable turn_hand turn_throws hi g hs idx ->
    half_lost_by hs = None -> (idx < 1000)%nat ->
    half_body turn_hand turn_throws g hs idx (negb (Nat.eqb hi 2)) = Ok (g', hs', brk) ->
    half_reachable turn_hand turn_throws hi g' hs' (S idx).

(** A hand of three ones: Schock-out. *)
Definition so_hand : Hand :=
  mkHand [mkDie 1 true false; mkDie 1 true false; mkDie 1 true false]
         (Some (mkHandType SchockOut 0)) false 0 true.

Definition demo_half : Half := mkHalf 0 [1; 2; 3] [] None false 13 (dict_zeros [1; 2; 3]).

Definition empty_mr : MiniRound := mkMiniRound [] 0 [] None None 0 None.

Definition so_step : result (Game * Half * bool) :=
  half_body (fun _ _ _ => so_hand) (fun _ _ _ => 1) demo_game demo_half 0 true.

Definition so_game : Game :=
  Eval vm_compute in match so_step with Ok (g, _, _) => g | Err _ => demo_game end.

Definition so_half : Half :=
  Eval vm_compute in match so_step with Ok (_, h, _) => h | Err _ => demo_half end.

Definition so_mr : MiniRound :=
  Eval vm_compute in List.last (mini_rounds so_half) empty_mr.

Definition so_best : Turn :=
  Eval vm_compute in match best_turn so_mr with Some b => b | None => mkTurn 0 0 so_hand 0 end.

Definition so_round_game : Game :=
  Eval vm_compute in
    match play_round (fun _ _ _ => so_hand) (fun _ _ _ => 1) demo_game 0 with
    | Ok (g, _) => g | Err _ => demo_game end.

Definition so_round : Round :=
  Eval vm_compute in
    match play_round (fun _ _ _ => so_hand) (fun _ _ _ => 1) demo_game 0 with
    | Ok (_, r) => r | Err _ => mkRound 0 [] None end.

(** * Definitions for further properties *)

(** ** Hands and strings *)

(** A die value [Die] accepts from a roll. *)
Definition die_valid (d : Die) : Prop := 1 <= value d <= 6.

(** The chip counts [HandType.chips] can give. *)
Definition chips_in_range (c : option HandType) : bool :=
  match c with
  | Some t => existsb (Z.eqb (chips t)) [1; 2; 3; 4; 5; 6; 13]
  | None => false
  end.

Fixpoint str_all (p : ascii -> bool) (s : string) : bool :=
  match s with
  | EmptyString => true
  | String c r => p c && str_all p r
  end.

Definition is_digit (c : ascii) : bool :=
  (48 <=? nat_of_ascii c)%nat && (nat_of_ascii c <=? 57)%nat.

Definition not_char (a : ascii) (c : ascii) : bool := negb (Ascii.eqb c a).

(** ** [Game.pids], [Game.add_player], [Game.get_player_by_id]

    Player objects are shared: a player object may be passed to
    [add_player] more than once, and [add_player] writes its [_id]. A player
    is therefore a reference [r] into a store of the players' [_id]
    attributes ([None] for a player that was never added). *)
Module Roster.

Record state := mkState {
  ids : nat -> option Z;                  (* [p._id] of every player object *)
  players : list nat;                     (* [self.players] *)
  rounds_lost : list (option Z * Z)       (* [self.scores["rounds_lost"]] *)
}.

(** The argument of [add_player]: a player object, a list, or any other
    object (truthy or not). *)
#[warnings="-register-all"]
Inductive arg :=
  | APlayer (r : nat)
  | AList (l : list arg)
  | AOther (truthy : bool).

(** [Game.pids] *)
Definition pids (s : state) : list (option Z) := map (ids s) (players s).

(** [int(max(self.pids))]: comparing [None] with a [PlayerID] raises
    [TypeError], and so does [int(None)]. *)
Fixpoint pid_max (l : list (option Z)) : result Z :=
  match l with
  | [] => Err ValueError
  | [Some k] => Ok k
  | [None] => Err TypeError
  | Some k :: r => let* m := pid_max r in Ok (Z.max k m)
  | None :: _ => Err TypeError
  end.

(** The assertion and the reset of [scores["rounds_lost"]] that end every
    call of [add_player]. *)
Definition finish (s : state) : state * result unit :=
  if Nat.eqb (length (players s)) (length (List.nodup (fun a b => decide (a = b)) (pids s)))
  then (mkState (ids s) (players s) (map (fun r => (ids s r, 0)) (players s)), Ok tt)
  else (s, Err AssertionError).

(** [for p in player: self.add_player(p)], stopping at the first exception. *)
Fixpoint add_each (add : arg -> state -> state * result unit) (l : list arg) (s : state)
    : state * result unit :=
  match l with
  | [] => (s, Ok tt)
  | x :: rest =>
      match add x s with
      | (s', Ok _) => add_each add rest s'
      | (s', Err e) => (s', Err e)
      end
  end.

(** [Game.add_player]; the state is kept when an exception is raised part
    way through a list. *)
Fixpoint add_player (a : arg) (s : state) : state * result unit :=
  match a with
  | AOther truthy => (s, Err (if truthy then TypeError else ValueError))
  | AList [] => (s, Err ValueError)
  | APlayer r =>
      if existsb (fun o => bool_decide (o = ids s r)) (pids s) then (s, Err ValueError)
      else
        let mx := match players s with [] => Ok (-1) | _ => pid_max (pids s) end in
        match mx with
        | Err e => (s, Err e)
        | Ok m =>
            finish (mkState (fun r' => if Nat.eqb r' r then Some (m + 1) else ids s r')
                            (players s ++ [r]) (rounds_lost s))
        end
  | AList l =>
      match add_each add_player l s with
      | (s', Ok _) => finish s'
      | (s', Err e) => (s', Err e)
      end
  end.

Fixpoint find_by_id (s : state) (l : list nat) (pid : Z) : result nat :=
  match l with
  | [] => Err ValueError
  | r :: rest => if bool_decide (ids s r = Some pid) then Ok r else find_by_id s rest pid
  end.

(** [Game.get_player_by_id] *)
Definition get_player_by_id (s : state) (pid : Z) : result nat :=
  find_by_id s (players s) pid.

(** [Game()] *)
Definition empty : state := mkState (fun _ => None) [] [].

(** The ids are 0, 1, ..., n-1 in the order of [self.players]. *)
Definition consecutive (s : state) : Prop :=
  pids s = map (fun k => Some (Z.of_nat k)) (seq 0 (length (players s))).

End Roster.

(** ** Chip balances at the end of a mini-round *)

(** The last player holding 13 chips, [lost] when there is none. *)
Definition last_with_13 (bal : list (Z * Z)) (lost : option Z) : option Z :=
  fold_left (fun acc '(p, c) => if c =? 13 then Some p else acc) bal lost.

(** The balances [play_half] refuses. *)
Definition balance_out_of_range (kv : Z * Z) : bool :=
  (13 <? snd kv) || (snd kv <? 0).

(** ** [Game.play_rounds] *)

Section PlayRounds.
Variable turn_hand : nat -> nat -> Z -> Hand.
Variable turn_throws : nat -> nat -> Z -> Z.

(** [for i in range(num_rounds): r = self.play_round(round_index=i)],
    from round index [i] on. *)
Fixpoint play_rounds_from (g : Game) (i n : nat) : result (Game * list Round) :=
  match n with
  | O => Ok (g, [])
  | S m =>
      let* gr := play_round turn_hand turn_throws g i in
      let '(g, r) := gr in
      let* rest := play_rounds_from g (S i) m in
      let '(g, rs) := rest in
      Ok (g, r :: rs)
  end.

(** [Game.play_rounds] *)
Definition play_rounds (g : Game) (num_rounds : nat) : result (Game * list Round) :=
  play_rounds_from g 0 num_rounds.
End PlayRounds.

Definition same_roster (g g' : Game) : Prop := players g' = players g /\ rounds g' = rounds g.

Fixpoint pdict_lookup {V} (d : list (Z * V)) (k : Z) : option V :=
  match d with
  | [] => None
  | (k', v) :: r => if k' =? k then Some v else pdict_lookup r k
  end.

Fixpoint pdict_replace {V} (d : list (Z * V)) (k : Z) (v : V) : list (Z * V) :=
  match d with
  | [] => []
  | (k', w) :: r => if k' =? k then (k', v) :: r else (k', w) :: pdict_replace r k v
  end.

Definition pdict_set {V} (d : list (Z * V)) (k : Z) (v : V) : list (Z * V) :=
  match pdict_lookup d k with
  | Some _ => pdict_replace d k v
  | None => d ++ [(k, v)]
  end.

(** [{pid: v for pid in pids}] *)
Definition pdict_init {V} (ps : list Z) (v : V) : list (Z * V) :=
  fold_left (fun d p => pdict_set d p v) ps [].

(** [d[k] += 1]; a key that is no player id ([None] included) raises [KeyError]. *)
Definition dict_incr (d : list (Z * Z)) (k : option Z) : result (list (Z * Z)) :=
  let* k := opt_key k in
  match pdict_lookup d k with
  | Some v => Ok (pdict_replace d k (v + 1))
  | None => Err KeyError
  end.

(** [all_players_hands[pid].append(name)] *)
Definition append_hand (d : list (Z * list string)) (k : Z) (name : string)
    : result (list (Z * list string)) :=
  match pdict_lookup d k with
  | Some l => Ok (pdict_replace d k (l ++ [name]))
  | None => Err KeyError
  end.

Fixpoint foldM {A B} (f : B -> A -> result B) (l : list A) (b : B) : result B :=
  match l with
  | [] => Ok b
  | x :: r => let* b := f b x in foldM f r b
  end.

Definition tally : Type :=
  list (Z * Z) * list (Z * Z) * list (Z * Z) * list (Z * list string).

Definition tally_turn (st : tally) (t : Turn) : result tally :=
  let '(rl, hl, ml, hd) := st in
  let* name := Hand_to_name (final_hand t) in
  let* hd := append_hand hd (player_id t) name in
  Ok (rl, hl, ml, hd).

Definition tally_mini_round (st : tally) (mr : MiniRound) : result tally :=
  let '(rl, hl, ml, hd) := st in
  let* ml := dict_incr ml (mr_lost_by mr) in
  foldM tally_turn (turns mr) (rl, hl, ml, hd).

Definition tally_half (st : tally) (h : Half) : result tally :=
  let '(rl, hl, ml, hd) := st in
  let* hl := dict_incr hl (half_lost_by h) in
  foldM tally_mini_round (mini_rounds h) (rl, hl, ml, hd).

Definition tally_round (st : tally) (r : Round) : result tally :=
  let '(rl, hl, ml, hd) := st in
  let* rl := dict_incr rl (round_lost_by r) in
  foldM tally_half (halves r) (rl, hl, ml, hd).

Fixpoint sdict_lookup (d : list (string * Z)) (k : string) : option Z :=
  match d with
  | [] => None
  | (k', v) :: r => if String.eqb k' k then Some v else sdict_lookup r k
  end.

Fixpoint sdict_replace (d : list (string * Z)) (k : string) (v : Z) : list (string * Z) :=
  match d with
  | [] => []
  | (k', w) :: r => if String.eqb k' k then (k', v) :: r else (k', w) :: sdict_replace r k v
  end.

(** [if hand not in hand_histogram: hand_histogram[hand] = 0;
    hand_histogram[hand] += 1] *)
Definition histogram_add (hist : list (string * Z)) (hand : string) : list (string * Z) :=
  let hist := match sdict_lookup hist hand with
              | Some _ => hist
              | None => hist ++ [(hand, 0)]
              end in
  match sdict_lookup hist hand with
  | Some v => sdict_replace hist hand (v + 1)
  | None => hist
  end.

Definition histogram (hands : list string) : list (string * Z) :=
  fold_left histogram_add hands [].

Record Scores := mkScores {
  rounds_lost : list (Z * Z);
  halves_lost : list (Z * Z);
  minirounds_lost : list (Z * Z);
  hands_played : list (Z * list (string * Z))
}.

(** [Game._calculate_scores] with [condensed_hands=True], the call
    [get_scores] makes; the new [self.scores]. *)
Definition calculate_scores (g : Game) : result Scores :=
  let ps := players g in
  let* st := foldM tally_round (rounds g)
               (pdict_init ps 0, pdict_init ps 0, pdict_init ps 0, pdict_init ps []) in
  let '(rl, hl, ml, hd) := st in
  Ok (mkScores rl hl ml (map (fun '(p, hs) => (p, histogram hs)) hd)).

(** Sizes of the recorded game. *)
Definition n_halves (g : Game) : nat :=
  sum_list_with (fun r => length (halves r)) (rounds g).
Definition n_mini_rounds (g : Game) : nat :=
  sum_list_with (fun r => sum_list_with (fun h => length (mini_rounds h)) (halves r)) (rounds g).
Definition n_turns (g : Game) : nat :=
  sum_list_with (fun r => sum_list_with (fun h =>
    sum_list_with (fun mr => length (turns mr)) (mini_rounds h)) (halves r)) (rounds g).

Fixpoint hist_total (h : list (string * Z)) : Z :=
  match h with [] => 0 | (_, c) :: r => c + hist_total r end.

Definition hands_total (d : list (Z * list (string * Z))) : Z :=
  fold_right (fun kv acc => hist_total (snd kv) + acc) 0 d.

Definition hand_count (d : list (Z * list string)) : nat :=
  sum_list_with (fun kv => length (snd kv)) d.

Definition counts4 : Type := Z * Z * Z * Z.
Definition vadd (a b : counts4) : counts4 :=
  let '(a1, a2, a3, a4) := a in let '(b1, b2, b3, b4) := b in
  (a1 + b1, a2 + b2, a3 + b3, a4 + b4).
Definition vsum (l : list counts4) : counts4 := fold_right vadd (0, 0, 0, 0) l.

Definition tally_measure (st : tally) : counts4 :=
  let '(rl, hl, ml, hd) := st in
  (sum_balances rl, sum_balances hl, sum_balances ml, Z.of_nat (hand_count hd)).

Definition w_mr (mr : MiniRound) : counts4 := (0, 0, 1, Z.of_nat (length (turns mr))).

Definition w_half (h : Half) : counts4 :=
  (0, 1, Z.of_nat (length (mini_rounds h)),
   Z.of_nat (sum_list_with (fun mr => length (turns mr)) (mini_rounds h))).

Definition w_round (r : Round) : counts4 :=
  (1, Z.of_nat (length (halves r)),
   Z.of_nat (sum_list_with (fun h => length (mini_rounds h)) (halves r)),
   Z.of_nat (sum_list_with (fun h =>
     sum_list_with (fun mr => length (turns mr)) (mini_rounds h)) (halves r))).

Definition loser_in (ps : list Z) (o : option Z) : Prop :=
  exists k, o = Some k /\ In k ps.

Definition mini_round_ok (ps : list Z) (mr : MiniRound) : Prop :=
  loser_in ps (mr_lost_by mr) /\ Forall (fun t => In (player_id t) ps) (turns mr).
Definition half_ok (ps : list Z) (h : Half) : Prop :=
  loser_in ps (half_lost_by h) /\ Forall (mini_round_ok ps) (mini_rounds h).
Definition round_ok (ps : list Z) (r : Round) : Prop :=
  loser_in ps (round_lost_by r) /\ Forall (half_ok ps) (halves r).

Definition keys_are (ks : list Z) (st : tally) : Prop :=
  let '(rl, hl, ml, hd) := st in
  map fst rl = ks /\ map fst hl = ks /\ map fst ml = ks /\ map fst hd = ks.

(** ** Inputs for the witnesses *)

(** The roll 2, 1, 4 with the one taken out. *)
Definition hand_2_1_4 : Hand :=
  mkHand [mkDie 2 false false; mkDie 1 true true; mkDie 4 false false] None false 0 false.

Definition hand_2_1_4_updated : Hand :=
  Eval vm_compute in match update hand_2_1_4 with Ok h => h | Err _ => hand_2_1_4 end.

(** Three players added to an empty game: ids 0, 1, 2. *)
Definition demo_roster : Roster.state :=
  Roster.mkState (fun r => if (r <? 3)%nat then Some (Z.of_nat r) else None) [0; 1; 2]%nat
    [(Some 0, 0); (Some 1, 0); (Some 2, 0)].

(** Two rounds of [demo_game] in which every hand is a Schock-out. *)
Definition so_rounds_2 : Game * list Round :=
  Eval vm_compute in
    match play_rounds (fun _ _ _ => so_hand) (fun _ _ _ => 1) demo_game 2 with
    | Ok x => x | Err _ => (demo_game, []) end.

Definition so_scores : Scores :=
  Eval vm_compute in
    match calculate_scores (fst so_rounds_2) with
    | Ok s => s | Err _ => mkScores [] [] [] [] end.

(** * Lemmas *)

Example det_123 : cache_of (detemine_hand_type (hand_of_values 2 1 3 false))
  = Some (mkHandType Straight 1).
Proof. reflexivity. Qed.

Example det_123_assembled : cache_of (detemine_hand_type (hand_of_values 2 1 3 true))
  = Some (mkHandType HighDice 321).
Proof. reflexivity. Qed.

Example det_221 : cache_of (detemine_hand_type (hand_of_values 1 2 2 false))
  = Some (mkHandType HighDice 221).
Proof. reflexivity. Qed.

Example det_115 : cache_of (detemine_hand_type (hand_of_values 1 5 1 false))
  = Some (mkHandType Schock 5).
Proof. reflexivity. Qed.

Lemma HandType_new_range (s : string) (v : Z) (t : HandType) :
  HandType_new s v = Ok t -> value_in_range t.
Proof.
  unfold HandType_new.
  destruct (String.eqb s ""); [discriminate|].
  destruct (kind_of_string s) as [k|]; [|discriminate].
  destruct k; cbn;
    repeat match goal with
    | |- context [Z.ltb ?x ?y] => destruct (Z.ltb_spec x y)
    | |- context [Z.eqb ?x ?y] => destruct (Z.eqb_spec x y)
    end; cbn; intro E; try discriminate E;
    injection E as <-; unfold value_in_range; cbn; lia.
Qed.

Lemma internal_rank_band (s : string) (v : Z) (t : HandType) :
  HandType_new s v = Ok t ->
  1000 * (claimed_category_order (hand_type t) + 1) <= internal_rank t <=
  1000 * (claimed_category_order (hand_type t) + 1) + 665.
Proof.
  intros H%HandType_new_range; destruct t as [[] x];
    unfold value_in_range, internal_rank in *; cbn in *; lia.
Qed.

Lemma claimed_category_order_inj (k l : hand_kind) :
  claimed_category_order k = claimed_category_order l -> k = l.
Proof. destruct k, l; cbn; congruence. Qed.

Lemma get_all_possible_hands_ok : get_all_possible_hands = Ok all_possible_hands.
Proof. vm_compute. reflexivity. Qed.

Lemma name_roundtripsb_sound (h : Hand) :
  name_roundtripsb h = true -> name_roundtrips h.
Proof.
  unfold name_roundtripsb, name_roundtrips.
  destruct (Hand_to_name h) as [n|] eqn:E1; [|discriminate].
  destruct (Hand_from_name n) as [h'|] eqn:E2; [|discriminate].
  destruct (Hand_hand_type h) as [t|] eqn:E3; [|discriminate].
  intros Hb%bool_decide_eq_true. exists n, h', t. auto.
Qed.

Lemma roll_coveredb_sound (l : list Hand) (x : Z * Z * Z * bool) :
  roll_coveredb l x = true -> roll_covered l x.
Proof.
  destruct x as [[[a b] c] pt]; cbn.
  intros (h & Hin & Hh)%existsb_exists.
  destruct (Hand_hand_type h) as [t|] eqn:Et; [|discriminate].
  apply bool_decide_eq_true in Hh. eauto.
Qed.

Lemma insert_by_length {A} (lt : A -> A -> bool) (x : A) (l : list A) :
  length (insert_by lt x l) = S (length l).
Proof. induction l as [|y r IH]; cbn; [done|]. destruct (lt y x); cbn; auto. Qed.

Lemma isort_length {A} (lt : A -> A -> bool) (l : list A) :
  length (isort lt l) = length l.
Proof. induction l as [|x r IH]; cbn; [done|]. rewrite insert_by_length. auto. Qed.

Section Sorting.
Context {A : Type}.
Implicit Types (l : list A) (x y : A).

Lemma insert_by_perm (lt : A -> A -> bool) x l :
  insert_by lt x l ≡ₚ x :: l.
Proof.
  induction l as [|y r IH]; cbn; [done|].
  destruct (lt y x); [|done].
  rewrite IH. apply perm_swap.
Qed.

Lemma isort_perm (lt : A -> A -> bool) l : isort lt l ≡ₚ l.
Proof.
  induction l as [|x r IH]; cbn; [done|].
  rewrite insert_by_perm, IH. done.
Qed.

Lemma insert_by_res_pure (P : A -> Prop) (ltr : A -> A -> result bool)
    (lt : A -> A -> bool) x l :
  (forall a b, P a -> P b -> ltr a b = Ok (lt a b)) ->
  P x -> Forall P l -> insert_by_res ltr x l = Ok (insert_by lt x l).
Proof.
  intros Hlt Hx. induction 1 as [|y r Hy Hr IH]; cbn; [done|].
  rewrite (Hlt y x Hy Hx); cbn.
  destruct (lt y x); cbn; [rewrite IH; done | done].
Qed.

Lemma isort_res_pure (P : A -> Prop) (ltr : A -> A -> result bool)
    (lt : A -> A -> bool) l :
  (forall a b, P a -> P b -> ltr a b = Ok (lt a b)) ->
  Forall P l -> isort_res ltr l = Ok (isort lt l).
Proof.
  intros Hlt. induction 1 as [|x r Hx Hr IH]; cbn; [done|].
  rewrite IH; cbn.
  apply (insert_by_res_pure P); [done|done|].
  by rewrite isort_perm.
Qed.

Variable lt : A -> A -> bool.
(** [le x y]: [y] is not strictly below [x]. *)
Let le x y := lt y x = false.
Hypothesis lt_asym : forall x y, lt x y = true -> lt y x = false.
Hypothesis le_trans : forall x y z, le x y -> le y z -> le x z.

Lemma insert_by_sorted x l : Sorted le l -> Sorted le (insert_by lt x l).
Proof.
  induction 1 as [|y r Hr IH Hhd]; cbn; [constructor; constructor|].
  destruct (lt y x) eqn:Hyx.
  - constructor; [exact IH|].
    destruct r as [|z r']; cbn.
    + constructor. unfold le. apply lt_asym. exact Hyx.
    + inversion Hhd; subst.
      destruct (lt z x); constructor; [exact H0 | unfold le; apply lt_asym; exact Hyx].
  - constructor; [constructor; [exact Hr | exact Hhd] | constructor; exact Hyx].
Qed.

Lemma isort_sorted l : Sorted le (isort lt l).
Proof.
  induction l as [|x r IH]; cbn; [constructor|].
  apply insert_by_sorted. exact IH.
Qed.

Lemma isort_strongly_sorted l : StronglySorted le (isort lt l).
Proof.
  apply Sorted_StronglySorted; [|apply isort_sorted].
  intros a b c; apply le_trans.
Qed.

Lemma last_in (z : A) (r : list A) (d : A) : List.In (List.last (z :: r) d) (z :: r).
Proof.
  revert z; induction r as [|w r IH]; intros z; [left; reflexivity|].
  right. apply IH.
Qed.

Lemma strongly_sorted_last (l : list A) (d t : A) :
  StronglySorted le l -> List.In t l -> le t (List.last l d) \/ t = List.last l d.
Proof.
  induction 1 as [|y r Hr IH Hall]; [intros []|].
  intros [Heq|Hin]; [subst y|].
  - destruct r as [|z r'].
    + right. reflexivity.
    + left. change (List.last (t :: z :: r') d) with (List.last (z :: r') d).
      assert (Hl : List.In (List.last (z :: r') d) (z :: r')).
      { apply last_in. }
      eapply List.Forall_forall in Hall; [exact Hall | exact Hl].
  - destruct r as [|z r']; [destruct Hin|].
    change (List.last (y :: z :: r') d) with (List.last (z :: r') d).
    apply IH. exact Hin.
Qed.
End Sorting.

Lemma claimed_turn_ltb_asym (t u : Turn) :
  claimed_turn_ltb t u = true -> claimed_turn_ltb u t = false.
Proof. unfold claimed_turn_ltb. z_cmp; intuition (try discriminate; lia). Qed.

Lemma claimed_turn_le_trans (t u v : Turn) :
  claimed_turn_ltb u t = false -> claimed_turn_ltb v u = false ->
  claimed_turn_ltb v t = false.
Proof. unfold claimed_turn_ltb. z_cmp; intuition (try discriminate; lia). Qed.

Lemma Turn_lt_claimed (t u : Turn) :
  cached_hand_type (final_hand t) <> None -> cached_hand_type (final_hand u) <> None ->
  Turn_lt t u = Ok (claimed_turn_ltb t u).
Proof.
  unfold Turn_lt, Hand_eq, Hand_lt, Hand_hand_type, claimed_turn_ltb, turn_rank, turn_ind.
  destruct (cached_hand_type (final_hand t)) as [a|]; [|congruence].
  destruct (cached_hand_type (final_hand u)) as [b|]; [|congruence].
  intros _ _. unfold HandType_eqb, HandType_ltb. cbn.
  z_cmp; try reflexivity; exfalso; lia.
Qed.

Lemma make_turns_ready (turn_hand : nat -> nat -> Z -> Hand)
    (turn_throws : nat -> nat -> Z -> Z) k i ps :
  (forall k i p, length (dice (turn_hand k i p)) = 3%nat /\
                 cached_hand_type (turn_hand k i p) <> None) ->
  Forall turn_ready (make_turns turn_hand turn_throws k i ps).
Proof.
  intros Hok. revert i; induction ps as [|p r IH]; intros i; cbn; constructor; [|apply IH].
  unfold turn_ready; cbn. apply Hok.
Qed.

Lemma make_turns_length (turn_hand : nat -> nat -> Z -> Hand)
    (turn_throws : nat -> nat -> Z -> Z) k i ps :
  length (make_turns turn_hand turn_throws k i ps) = length ps.
Proof. revert i; induction ps as [|p r IH]; intros i; cbn; [done|]. by rewrite IH. Qed.

(** What [play_mini_round] computes for a valid number of players. *)
Lemma play_mini_round_eq (turn_hand : nat -> nat -> Z -> Hand)
    (turn_throws : nat -> nat -> Z -> Z) (g : Game) (mrp : list Z) (idx : nat) :
  (forall k i p, length (dice (turn_hand k i p)) = 3%nat /\
                 cached_hand_type (turn_hand k i p) <> None) ->
  (2 <= length (mr_players_of g mrp) <= 50)%nat ->
  exists w r ht,
    isort claimed_turn_ltb
      (make_turns turn_hand turn_throws (mr_calls g) 0 (mr_players_of g mrp)) = w :: r /\
    cached_hand_type (final_hand (List.last (w :: r) w)) = Some ht /\
    play_mini_round turn_hand turn_throws g mrp idx =
      Ok (bump_calls g,
          mkMiniRound (mr_players_of g mrp) idx (w :: r) (Some w)
            (Some (List.last (w :: r) w)) (chips ht) (Some (player_id w))).
Proof.
  intros Hok Hlen.
  set (ps := mr_players_of g mrp) in *.
  set (ts := make_turns turn_hand turn_throws (mr_calls g) 0 ps).
  assert (Hready : Forall turn_ready ts) by (apply make_turns_ready; exact Hok).
  assert (Hsort : isort_res Turn_lt ts = Ok (isort claimed_turn_ltb ts)).
  { apply (isort_res_pure turn_ready); [|exact Hready].
    intros a b [_ Ha] [_ Hb]. apply Turn_lt_claimed; assumption. }
  assert (Hperm : isort claimed_turn_ltb ts ≡ₚ ts) by apply isort_perm.
  assert (Hready' : Forall turn_ready (isort claimed_turn_ltb ts)) by (by rewrite Hperm).
  destruct (isort claimed_turn_ltb ts) as [|w r] eqn:Hs.
  { apply Permutation_length in Hperm. unfold ts in Hperm.
    rewrite make_turns_length in Hperm. cbn in Hperm. lia. }
  assert (Hb : turn_ready (List.last (w :: r) w)).
  { eapply List.Forall_forall; [exact Hready'|]. apply last_in. }
  destruct Hb as [Hb3 Hbc].
  destruct (cached_hand_type (final_hand (List.last (w :: r) w))) as [ht|] eqn:Hht;
    [|congruence].
  exists w, r, ht. split; [reflexivity|]. split; [exact Hht|].
  unfold play_mini_round. fold ps. fold ts.
  destruct (Nat.ltb_spec (length ps) 2); [lia|].
  destruct (Nat.ltb_spec 50 (length ps)); [lia|]. cbn.
  rewrite Hsort. cbn [bind_res].
  remember (List.last (w :: r) w) as lw eqn:Elw.
  unfold get_chip_count, Hand_hand_type. rewrite Hb3, Hht. cbn. subst lw. reflexivity.
Qed.

Lemma claimed_turn_ltb_irrefl (t : Turn) : claimed_turn_ltb t t = false.
Proof. unfold claimed_turn_ltb. z_cmp; intuition (try discriminate; lia). Qed.

Lemma dict_replace_sum (d : list (Z * Z)) (k v old : Z) :
  dict_lookup d k = Some old ->
  sum_balances (dict_replace d k v) = sum_balances d - old + v.
Proof.
  induction d as [|[k' w] r IH]; cbn; [discriminate|].
  destruct (Z.eqb_spec k' k); cbn.
  - intros [= <-]. lia.
  - intros H. rewrite (IH H). lia.
Qed.

Lemma dict_set_sum (d : list (Z * Z)) (k v old : Z) :
  dict_lookup d k = Some old ->
  sum_balances (dict_set d k v) = sum_balances d - old + v.
Proof. unfold dict_set. intros H. rewrite H. by apply dict_replace_sum. Qed.

Lemma dict_replace_forall (Q : Z -> Prop) (d : list (Z * Z)) (k v : Z) :
  Forall (fun kv => Q (snd kv)) d -> Q v ->
  Forall (fun kv => Q (snd kv)) (dict_replace d k v).
Proof.
  induction 1 as [|[k' w] r Hw Hr IH]; cbn; intros Hv; [constructor|].
  destruct (k' =? k); constructor; auto.
Qed.

Lemma dict_set_forall (Q : Z -> Prop) (d : list (Z * Z)) (k v : Z) :
  Forall (fun kv => Q (snd kv)) d -> Q v ->
  Forall (fun kv => Q (snd kv)) (dict_set d k v).
Proof.
  unfold dict_set. intros Hd Hv. destruct (dict_lookup d k).
  - by apply dict_replace_forall.
  - apply Forall_app. split; [exact Hd|]. constructor; [exact Hv|constructor].
Qed.

Lemma dict_lookup_forall (Q : Z -> Prop) (d : list (Z * Z)) (k v : Z) :
  Forall (fun kv => Q (snd kv)) d -> dict_lookup d k = Some v -> Q v.
Proof.
  induction 1 as [|[k' w] r Hw Hr IH]; cbn; [discriminate|].
  destruct (k' =? k); [intros [= <-]; exact Hw | exact IH].
Qed.

Lemma dict_lookup_le_sum (d : list (Z * Z)) (k v : Z) :
  Forall (fun kv => 0 <= snd kv) d -> dict_lookup d k = Some v -> v <= sum_balances d.
Proof.
  induction 1 as [|[k' w] r Hw Hr IH]; cbn in *; [discriminate|].
  assert (0 <= sum_balances r).
  { clear IH. induction Hr as [|[a b] r' Hb _ IH']; cbn in *; lia. }
  destruct (k' =? k); [intros [= <-]; lia | intros H'; specialize (IH H'); lia].
Qed.

Lemma dict_zeros_zero (ps : list Z) :
  Forall (fun kv => snd kv = 0) (dict_zeros ps).
Proof.
  unfold dict_zeros. generalize (@nil (Z * Z)) (@List.Forall_nil _ (fun kv : Z * Z => snd kv = 0)).
  induction ps as [|p r IH]; intros d Hd; cbn; [exact Hd|].
  apply IH. apply (dict_set_forall (fun c => c = 0)); [exact Hd | reflexivity].
Qed.

Lemma sum_balances_zero (d : list (Z * Z)) :
  Forall (fun kv => snd kv = 0) d -> sum_balances d = 0.
Proof. induction 1 as [|[k v] r Hv _ IH]; cbn in *; lia. Qed.

Lemma forall_le_sum (d : list (Z * Z)) :
  Forall (fun kv => 0 <= snd kv) d -> Forall (fun kv => snd kv <= sum_balances d) d.
Proof.
  induction 1 as [|[k v] r Hv Hr IH]; cbn in *; constructor.
  - assert (0 <= sum_balances r).
    { clear IH. induction Hr as [|[a b] r' Hb _ IH']; cbn in *; lia. }
    cbn. lia.
  - eapply Forall_impl; [exact IH|]. intros [a b]; cbn. lia.
Qed.

Lemma distribute_inv hs b given given' stock' gone' bal0 :
  half_chip_inv hs -> 0 <= given ->
  distribute hs b given = Ok (given', stock', gone', bal0) ->
  0 <= given' /\ 0 <= stock' /\ Forall (fun kv => 0 <= snd kv) bal0 /\
  (gone' = false -> stock' + sum_balances bal0 + given' = 13) /\
  (gone' = true -> stock' = 0 /\ sum_balances bal0 + given' = 13).
Proof.
  intros (Hst & Hb & Hng & Hg) Hgv. unfold distribute.
  assert (Hb0 : Forall (fun kv => 0 <= snd kv) (chip_balances hs)).
  { eapply Forall_impl; [exact Hb|]. intros [? ?]; cbn; lia. }
  destruct (stock_chips_gone hs); cbn.
  - destruct (Hg eq_refl) as [Hs0 Hsum].
    unfold dict_get. destruct (dict_lookup (chip_balances hs) b) as [pb|] eqn:Hl;
      cbn; [|discriminate].
    intros [= <- <- <- <-].
    pose proof (dict_lookup_forall _ _ _ _ Hb0 Hl) as Hpb. cbn in Hpb.
    split; [lia|]. split; [lia|]. split.
    + apply (dict_set_forall (fun c => 0 <= c)); [exact Hb0|]. lia.
    + split; [discriminate|]. intros _. split; [exact Hs0|].
      rewrite (dict_set_sum _ _ _ _ Hl). lia.
  - specialize (Hng eq_refl).
    destruct (Z.leb_spec (chips_in_stock hs - given) 0); intros [= <- <- <- <-].
    + split; [lia|]. split; [lia|]. split; [exact Hb0|].
      split; [discriminate|]. intros _. split; [reflexivity|]. lia.
    + split; [lia|]. split; [lia|]. split; [exact Hb0|].
      split; [|discriminate]. intros _. lia.
Qed.

Lemma chips_nonneg (s : string) (v : Z) (t : HandType) :
  HandType_new s v = Ok t -> 0 <= chips t.
Proof.
  intros H. apply HandType_new_range in H. unfold value_in_range in H.
  unfold chips. destruct (hand_type t); lia.
Qed.

Lemma turn_hands_valid_ready (turn_hand : nat -> nat -> Z -> Hand) :
  turn_hands_valid turn_hand -> turn_hands_ready turn_hand.
Proof.
  intros Hv k i p. destruct (Hv k i p) as [H3 (s & v & t & _ & Ht)].
  split; [exact H3|]. rewrite Ht. discriminate.
Qed.

Lemma make_turns_valid (turn_hand : nat -> nat -> Z -> Hand)
    (turn_throws : nat -> nat -> Z -> Z) k i ps :
  turn_hands_valid turn_hand ->
  Forall (fun t => exists ht, cached_hand_type (final_hand t) = Some ht /\ 0 <= chips ht)
    (make_turns turn_hand turn_throws k i ps).
Proof.
  intros Hv. revert i; induction ps as [|p r IH]; intros i; cbn; constructor; [|apply IH].
  cbn. destruct (Hv k i p) as [_ (s & v & t & Hn & Ht)].
  exists t. split; [exact Ht|]. eapply chips_nonneg; exact Hn.
Qed.

Lemma play_mini_round_given_nonneg (turn_hand : nat -> nat -> Z -> Hand)
    (turn_throws : nat -> nat -> Z -> Z) g mrp idx g' mr :
  turn_hands_valid turn_hand ->
  play_mini_round turn_hand turn_throws g mrp idx = Ok (g', mr) ->
  0 <= given_chips mr.
Proof.
  intros Hv Hmr.
  destruct (decide (2 <= length (mr_players_of g mrp) <= 50)%nat) as [Hlen|Hlen].
  - destruct (play_mini_round_eq turn_hand turn_throws g mrp idx
                (turn_hands_valid_ready _ Hv) Hlen) as (w & r & ht & Hs & Hht & Heq).
    rewrite Heq in Hmr. injection Hmr as _ <-. cbn.
    pose proof (make_turns_valid turn_hand turn_throws (mr_calls g) 0
                  (mr_players_of g mrp) Hv) as Hall.
    assert (Hperm := isort_perm claimed_turn_ltb
                       (make_turns turn_hand turn_throws (mr_calls g) 0 (mr_players_of g mrp))).
    rewrite Hs in Hperm.
    assert (Hin : List.In (List.last (w :: r) w)
                    (make_turns turn_hand turn_throws (mr_calls g) 0 (mr_players_of g mrp))).
    { apply (Permutation_in _ Hperm). apply last_in. }
    destruct (proj1 (List.Forall_forall _ _) Hall _ Hin) as (ht' & Ht' & Hc).
    rewrite Hht in Ht'. injection Ht' as <-. exact Hc.
  - unfold play_mini_round in Hmr.
    destruct (Nat.ltb_spec (length (mr_players_of g mrp)) 2); [discriminate|].
    destruct (Nat.ltb_spec 50 (length (mr_players_of g mrp))); [discriminate|]. lia.
Qed.

Lemma half_body_inv turn_hand turn_throws g hs idx is_regular g' hs' brk :
  turn_hands_valid turn_hand -> half_chip_inv hs ->
  half_body turn_hand turn_throws g hs idx is_regular = Ok (g', hs', brk) ->
  half_chip_inv hs'.
Proof.
  intros Hv Hinv H. unfold half_body in H.
  match type of H with bind_res ?c _ = _ =>
    destruct c as [active|e] eqn:Eact; cbn [bind_res] in H; [|discriminate] end.
  destruct (play_mini_round turn_hand turn_throws g active idx) as [[g1 mr]|e] eqn:Emr;
    cbn [bind_res] in H; [|discriminate].
  pose proof (play_mini_round_given_nonneg _ _ _ _ _ _ _ Hv Emr) as Hgiven.
  destruct (best_turn mr) as [best|]; cbn [bind_res] in H; [|discriminate].
  destruct (Hand_hand_type (final_hand best)) as [bt|e]; cbn [bind_res] in H; [|discriminate].
  destruct (HandType_new "Schock-out" 0) as [so|e]; cbn [bind_res] in H; [|discriminate].
  destruct (HandType_eqb bt so).
  { injection H as _ <- _. exact Hinv. }
  destruct (distribute hs (player_id best) (given_chips mr))
    as [[[[given stock] gone] bal0]|e] eqn:Ed; cbn [bind_res] in H; [|discriminate].
  destruct (distribute_inv _ _ _ _ _ _ _ Hinv Hgiven Ed)
    as (Hg' & Hs' & Hb0 & Hng & Hgn).
  destruct (opt_key (mr_lost_by (set_given_chips mr given))) as [lost|e];
    cbn [bind_res] in H; [|discriminate].
  unfold dict_get in H at 1.
  destruct (dict_lookup bal0 lost) as [pl|] eqn:Epl; cbn [bind_res] in H; [|discriminate].
  match type of H with bind_res ?c _ = _ =>
    destruct c as [active'|e]; cbn [bind_res] in H; [|discriminate] end.
  destruct (check_balances (dict_set bal0 lost (pl + given)) (half_lost_by hs)) as [lb|e];
    cbn [bind_res] in H; [|discriminate].
  injection H as _ <- _.
  pose proof (dict_lookup_forall _ _ _ _ Hb0 Epl) as Hpl. cbn in Hpl.
  assert (Hsum : sum_balances (dict_set bal0 lost (pl + given)) = sum_balances bal0 + given).
  { rewrite (dict_set_sum _ _ _ _ Epl). lia. }
  assert (Hnn : Forall (fun kv => 0 <= snd kv) (dict_set bal0 lost (pl + given))).
  { apply (dict_set_forall (fun c => 0 <= c)); [exact Hb0|]. lia. }
  assert (Hle : sum_balances (dict_set bal0 lost (pl + given)) <= 13).
  { destruct gone; [destruct (Hgn eq_refl)|specialize (Hng eq_refl)]; lia. }
  unfold half_chip_inv; cbn [chips_in_stock chip_balances stock_chips_gone].
  split; [exact Hs'|]. split.
  - apply List.Forall_forall. intros kv Hkv.
    pose proof (proj1 (List.Forall_forall _ _) Hnn kv Hkv).
    pose proof (proj1 (List.Forall_forall _ _) (forall_le_sum _ Hnn) kv Hkv).
    cbn in *. lia.
  - split; intros Hgo; [specialize (Hng Hgo)|destruct (Hgn Hgo)]; lia.
Qed.

Lemma half_loop_reachable turn_hand turn_throws hi fuel g hs idx g' hs' :
  half_reachable turn_hand turn_throws hi g hs idx ->
  half_loop turn_hand turn_throws fuel g hs idx (negb (Nat.eqb hi 2)) = Ok (g', hs') ->
  exists idx', half_reachable turn_hand turn_throws hi g' hs' idx'.
Proof.
  revert g hs idx; induction fuel as [|f IH]; intros g hs idx Hr; cbn [half_loop].
  - intros [= <- <-]. exists idx. exact Hr.
  - destruct (half_lost_by hs) eqn:Hl; [intros [= <- <-]; exists idx; exact Hr|].
    destruct (Nat.ltb_spec idx 1000); [|intros [= <- <-]; exists idx; exact Hr].
    destruct (half_body turn_hand turn_throws g hs idx (negb (Nat.eqb hi 2)))
      as [[[g1 hs1] brk]|e] eqn:Eb; cbn [bind_res]; [|discriminate].
    assert (Hr1 : half_reachable turn_hand turn_throws hi g1 hs1 (S idx))
      by (eapply half_reachable_step; eassumption).
    destruct brk.
    + intros [= <- <-]. exists (S idx). exact Hr1.
    + apply IH. exact Hr1.
Qed.

Lemma half_init_inv g hi ps hs : half_init g hi ps = Ok hs -> half_chip_inv hs.
Proof.
  unfold half_init.
  match goal with |- bind_res ?c _ = _ -> _ =>
    destruct c as [active|e]; cbn [bind_res]; [|discriminate] end.
  intros [= <-]. unfold half_chip_inv; cbn.
  pose proof (dict_zeros_zero active) as Hz.
  rewrite (sum_balances_zero _ Hz).
  split; [lia|]. split; [|split; [reflexivity|discriminate]].
  eapply Forall_impl; [exact Hz|]. intros [? ?]; cbn; lia.
Qed.

Lemma HandType_new_schock_out : HandType_new "Schock-out" 0 = Ok (mkHandType SchockOut 0).
Proof. reflexivity. Qed.

Lemma insert_by_res_perm {A} (ltr : A -> A -> result bool) (x : A) (l l' : list A) :
  insert_by_res ltr x l = Ok l' -> l' ≡ₚ x :: l.
Proof.
  revert l'; induction l as [|y r IH]; intros l'; cbn.
  - intros [= <-]. reflexivity.
  - destruct (ltr y x) as [b|e]; cbn [bind_res]; [|discriminate].
    destruct b.
    + destruct (insert_by_res ltr x r) as [r'|e] eqn:E; cbn [bind_res]; [|discriminate].
      intros [= <-]. rewrite (IH _ eq_refl). apply perm_swap.
    + intros [= <-]. reflexivity.
Qed.

Lemma isort_res_perm {A} (ltr : A -> A -> result bool) (l l' : list A) :
  isort_res ltr l = Ok l' -> l' ≡ₚ l.
Proof.
  revert l'; induction l as [|x r IH]; intros l'; cbn.
  - intros [= <-]. reflexivity.
  - destruct (isort_res ltr r) as [r'|e] eqn:E; cbn [bind_res]; [|discriminate].
    intros H. rewrite (insert_by_res_perm _ _ _ _ H), (IH _ eq_refl). reflexivity.
Qed.

(** The turns of a mini-round are those its players took, in the order
    the sort leaves them. *)
Lemma play_mini_round_turns turn_hand turn_throws g mrp idx g' mr :
  play_mini_round turn_hand turn_throws g mrp idx = Ok (g', mr) ->
  turns mr ≡ₚ make_turns turn_hand turn_throws (mr_calls g) 0 (mr_players_of g mrp).
Proof.
  unfold play_mini_round.
  destruct ((length (mr_players_of g mrp) <? 2)%nat || (50 <? length (mr_players_of g mrp))%nat);
    [discriminate|].
  match goal with |- bind_res ?c _ = _ -> _ =>
    destruct c as [sorted|e] eqn:Es; cbn [bind_res]; [|discriminate] end.
  apply isort_res_perm in Es.
  destruct sorted as [|w r]; [discriminate|].
  match goal with |- bind_res ?c _ = _ -> _ =>
    destruct c as [given|e]; cbn [bind_res]; [|discriminate] end.
  intros [= _ <-]. exact Es.
Qed.

Lemma play_mini_round_players turn_hand turn_throws g mrp idx g' mr :
  play_mini_round turn_hand turn_throws g mrp idx = Ok (g', mr) ->
  mini_round_players mr = mr_players_of g mrp.
Proof.
  unfold play_mini_round.
  destruct ((length (mr_players_of g mrp) <? 2)%nat || (50 <? length (mr_players_of g mrp))%nat);
    [discriminate|].
  match goal with |- bind_res ?c _ = _ -> _ =>
    destruct c as [sorted|e]; cbn [bind_res]; [|discriminate] end.
  destruct sorted as [|w r]; [discriminate|].
  match goal with |- bind_res ?c _ = _ -> _ =>
    destruct c as [given|e]; cbn [bind_res]; [|discriminate] end.
  intros [= _ <-]. reflexivity.
Qed.

(** Each pass of the loop appends one mini-round; without rotation it is
    played by the half's active players, who take its turns in that order. *)
Lemma half_body_appends turn_hand turn_throws g hs idx is_regular g' hs' brk :
  half_body turn_hand turn_throws g hs idx is_regular = Ok (g', hs', brk) ->
  exists mr, mini_rounds hs' = mini_rounds hs ++ [mr] /\
    (is_regular = false ->
     turns mr ≡ₚ make_turns turn_hand turn_throws (mr_calls g) 0
                   (mr_players_of g (active_players hs))).
Proof.
  intros H. unfold half_body in H.
  match type of H with bind_res ?c _ = _ =>
    destruct c as [active|e] eqn:Eact; cbn [bind_res] in H; [|discriminate] end.
  destruct (play_mini_round turn_hand turn_throws g active idx) as [[g1 mr0]|e] eqn:Emr;
    cbn [bind_res] in H; [|discriminate].
  assert (Hp : is_regular = false ->
     turns mr0 ≡ₚ make_turns turn_hand turn_throws (mr_calls g) 0
                   (mr_players_of g (active_players hs))).
  { intros ->. apply play_mini_round_turns in Emr.
    destruct (last_mr g); injection Eact as ->; exact Emr. }
  destruct (best_turn mr0) as [best|]; cbn [bind_res] in H; [|discriminate].
  destruct (Hand_hand_type (final_hand best)) as [bt|e]; cbn [bind_res] in H; [|discriminate].
  destruct (HandType_new "Schock-out" 0) as [so|e]; cbn [bind_res] in H; [|discriminate].
  destruct (HandType_eqb bt so).
  { injection H as _ <- _. exists mr0. split; [reflexivity|exact Hp]. }
  destruct (distribute hs (player_id best) (given_chips mr0))
    as [[[[given stock] gone] bal0]|e]; cbn [bind_res] in H; [|discriminate].
  destruct (opt_key (mr_lost_by (set_given_chips mr0 given))) as [lost|e];
    cbn [bind_res] in H; [|discriminate].
  destruct (dict_get bal0 lost) as [pl|e]; cbn [bind_res] in H; [|discriminate].
  match type of H with bind_res ?c _ = _ =>
    destruct c as [active'|e]; cbn [bind_res] in H; [|discriminate] end.
  match type of H with bind_res ?c _ = _ =>
    destruct c as [lb|e]; cbn [bind_res] in H; [|discriminate] end.
  injection H as _ <- _. exists (set_given_chips mr0 given). split; [reflexivity|exact Hp].
Qed.

Lemma half_loop_appends turn_hand turn_throws fuel g hs idx is_regular g' hs' :
  half_loop turn_hand turn_throws fuel g hs idx is_regular = Ok (g', hs') ->
  exists rest, mini_rounds hs' = mini_rounds hs ++ rest.
Proof.
  revert g hs idx; induction fuel as [|f IH]; intros g hs idx; cbn [half_loop].
  - intros [= <- <-]. exists []. by rewrite app_nil_r.
  - destruct (half_lost_by hs); [intros [= <- <-]; exists []; by rewrite app_nil_r|].
    destruct (Nat.ltb_spec idx 1000); [|intros [= <- <-]; exists []; by rewrite app_nil_r].
    destruct (half_body turn_hand turn_throws g hs idx is_regular)
      as [[[g1 hs1] brk]|e] eqn:Eb; cbn [bind_res]; [|discriminate].
    destruct (half_body_appends _ _ _ _ _ _ _ _ _ Eb) as (mr & Hm & _).
    destruct brk.
    + intros [= <- <-]. exists [mr]. exact Hm.
    + intros Hl. destruct (IH _ _ _ Hl) as [rest Hr]. exists (mr :: rest).
      rewrite Hr, Hm, <- app_assoc. reflexivity.
Qed.

Lemma half_loop_S turn_hand turn_throws f g hs idx is_regular :
  half_loop turn_hand turn_throws (S f) g hs idx is_regular =
  match half_lost_by hs with
  | Some _ => Ok (g, hs)
  | None =>
      if (idx <? 1000)%nat then
        let* r := half_body turn_hand turn_throws g hs idx is_regular in
        let '(g, hs, brk) := r in
        if brk then Ok (g, hs) else half_loop turn_hand turn_throws f g hs (S idx) is_regular
      else Ok (g, hs)
  end.
Proof. reflexivity. Qed.

(** The tie-break half starts with a mini-round whose turns are those of
    its two players, taken in the order given. *)
Lemma play_half_final_first turn_hand turn_throws g p0 p1 g' h :
  play_half turn_hand turn_throws g 2 (Some [p0; p1]) = Ok (g', h) ->
  exists mr rest, mini_rounds h = mr :: rest /\
    turns mr ≡ₚ make_turns turn_hand turn_throws (mr_calls g) 0 [p0; p1].
Proof.
  intros H. unfold play_half in H.
  cbn [half_init Nat.eqb negb bind_res] in H.
  rewrite half_loop_S in H. cbn [half_lost_by] in H.
  replace ((0 <? 1000)%nat) with true in H by reflexivity.
  destruct (half_body turn_hand turn_throws g
              (mkHalf 2 [p0; p1] [] None false 13 (dict_zeros [p0; p1])) 0 false)
    as [[[g1 hs1] brk]|e] eqn:Eb; cbn [bind_res] in H; [|discriminate].
  destruct (half_body_appends _ _ _ _ _ _ _ _ _ Eb) as (mr & Hm & Hp).
  specialize (Hp eq_refl). cbn in Hm, Hp.
  exists mr. destruct brk.
  - injection H as <- <-. exists []. split; [exact Hm|exact Hp].
  - destruct (half_loop_appends _ _ _ _ _ _ _ _ _ H) as [rest Hr].
    exists rest. rewrite Hr, Hm. split; [reflexivity|exact Hp].
Qed.

(** * Claims *)

(** ** C1 *)

(** C1. For a hand of exactly three dice with values in 1..6,
    [detemine_hand_type] succeeds (no validation error), and the category it
    caches is the one the spec's precedence gives: three 1s → Schock-out;
    two 1s → Schock of the third value; three equal → General; {1,2,3} →
    Straight 1 only when not assembled, otherwise High Dice 321; {2,3,4},
    {3,4,5}, {4,5,6} → Straight 2/3/4; otherwise High Dice 100·max+10·mid+min;
    a High Dice value always lies in [221,665]. *)
Theorem detemine_hand_type_classifies (h : Hand) (d1 d2 d3 : Die) :
  dice h = [d1; d2; d3] ->
  1 <= value d1 <= 6 -> 1 <= value d2 <= 6 -> 1 <= value d3 <= 6 ->
  exists h',
    detemine_hand_type h = Ok h' /\
    cached_hand_type h' =
      Some (claimed_category (value d1) (value d2) (value d3) (put_together h)) /\
    (hand_type (claimed_category (value d1) (value d2) (value d3) (put_together h))
       = HighDice ->
     221 <= hand_type_value
              (claimed_category (value d1) (value d2) (value d3) (put_together h))
         <= 665).
Proof.
  destruct h as [ds c pt i f]; cbn [dice put_together]; intros -> H1 H2 H3.
  destruct d1 as [a va ta], d2 as [b vb tb], d3 as [e ve te];
    cbn [value] in *.
  enum_value a; enum_value b; enum_value e; destruct pt;
    (eexists; split; [reflexivity | split; [reflexivity | ]]);
    match goal with
    | |- context [claimed_category ?x ?y ?z ?p] =>
        let t := fresh "t" in let Et := fresh "Et" in
        remember (claimed_category x y z p) as t eqn:Et;
        vm_compute in Et; subst t; cbn; intro Hk; try discriminate Hk; lia
    end.
Qed.

Lemma detemine_hand_type_classifies_witness :
  dice (hand_of_values 2 1 3 false) =
    [mkDie 2 false false; mkDie 1 false false; mkDie 3 false false] /\
  1 <= 2 <= 6 /\ 1 <= 1 <= 6 /\ 1 <= 3 <= 6 /\
  exists h',
    detemine_hand_type (hand_of_values 2 1 3 false) = Ok h' /\
    cached_hand_type h' = Some (claimed_category 2 1 3 false) /\
    (hand_type (claimed_category 2 1 3 false) = HighDice ->
     221 <= hand_type_value (claimed_category 2 1 3 false) <= 665).
Proof.
  split; [reflexivity|]. split; [lia|]. split; [lia|]. split; [lia|].
  apply (detemine_hand_type_classifies (hand_of_values 2 1 3 false)
           (mkDie 2 false false) (mkDie 1 false false) (mkDie 3 false false));
    cbn; [reflexivity | lia | lia | lia].
Defined.

(** ** C2 *)

(** C2. On hand types built by the [HandType] constructor, [__lt__] (by
    internal rank) ranks the categories HighDice < Straight < General <
    Schock < SchockOut, orders one category (other than Schock-out, which has
    no parameter) by its value, and is a strict total order: transitive,
    asymmetric, and any two hand types are [<], [==] or [>], where [==]
    holds only for the same category and value. *)
Theorem HandType_order_total (sa sb sc : string) (va vb vc : Z) (a b c : HandType) :
  HandType_new sa va = Ok a -> HandType_new sb vb = Ok b -> HandType_new sc vc = Ok c ->
  (claimed_category_order (hand_type a) < claimed_category_order (hand_type b) ->
   HandType_ltb a b = true) /\
  (hand_type a = hand_type b -> hand_type a <> SchockOut ->
   HandType_ltb a b = (hand_type_value a <? hand_type_value b)) /\
  (HandType_ltb a b = true -> HandType_ltb b c = true -> HandType_ltb a c = true) /\
  (HandType_ltb a b = true -> HandType_ltb b a = false) /\
  (HandType_ltb a b = true \/ HandType_eqb a b = true \/ HandType_ltb b a = true) /\
  (HandType_eqb a b = true ->
   hand_type a = hand_type b /\
   (hand_type a <> SchockOut -> hand_type_value a = hand_type_value b)).
Proof.
  intros Ha Hb Hc.
  pose proof (internal_rank_band _ _ _ Ha) as Ra.
  pose proof (internal_rank_band _ _ _ Hb) as Rb.
  unfold HandType_ltb, HandType_eqb.
  split; [|split; [|split; [|split; [|split]]]].
  - intros Hlt. apply Z.ltb_lt. lia.
  - intros Hk Hso. destruct a as [ka xa], b as [kb xb]; cbn in *; subst kb.
    unfold internal_rank; cbn.
    destruct ka; try congruence;
      apply Bool.eq_iff_eq_true; rewrite !Z.ltb_lt; lia.
  - rewrite !Z.ltb_lt. lia.
  - rewrite Z.ltb_lt, Z.ltb_ge. lia.
  - rewrite !Z.ltb_lt, Z.eqb_eq. lia.
  - intros E%Z.eqb_eq.
    assert (Hk : hand_type a = hand_type b).
    { apply claimed_category_order_inj. lia. }
    split; [exact Hk|].
    intros Hso. destruct a as [ka xa], b as [kb xb]; cbn in *; subst kb.
    unfold internal_rank in E; cbn in E; destruct ka; try congruence; lia.
Qed.

Lemma HandType_order_total_witness :
  HandType_new "High Dice" 321 = Ok (mkHandType HighDice 321) /\
  HandType_new "Straight" 2 = Ok (mkHandType Straight 2) /\
  HandType_new "Schock" 5 = Ok (mkHandType Schock 5) /\
  let a := mkHandType HighDice 321 in
  let b := mkHandType Straight 2 in
  let c := mkHandType Schock 5 in
  (claimed_category_order (hand_type a) < claimed_category_order (hand_type b) ->
   HandType_ltb a b = true) /\
  (hand_type a = hand_type b -> hand_type a <> SchockOut ->
   HandType_ltb a b = (hand_type_value a <? hand_type_value b)) /\
  (HandType_ltb a b = true -> HandType_ltb b c = true -> HandType_ltb a c = true) /\
  (HandType_ltb a b = true -> HandType_ltb b a = false) /\
  (HandType_ltb a b = true \/ HandType_eqb a b = true \/ HandType_ltb b a = true) /\
  (HandType_eqb a b = true ->
   hand_type a = hand_type b /\
   (hand_type a <> SchockOut -> hand_type_value a = hand_type_value b)).
Proof.
  split; [reflexivity|]. split; [reflexivity|]. split; [reflexivity|].
  apply (HandType_order_total "High Dice" "Straight" "Schock" 321 2 5);
    vm_compute; reflexivity.
Defined.

(** ** C3 *)

(** C3. For strategies whose hands hold three dice and a category built by
    [HandType]'s constructor, every state of [Game.play_half] at a mini-round
    boundary, and the half it returns, satisfy: the stock is nonnegative,
    every balance lies in [0,13], while the stock is not exhausted stock plus
    the sum of the balances is 13, and once it is exhausted the stock is 0 and
    the balances sum to 13 (chips only move between players). *)
Theorem half_chip_conservation (turn_hand : nat -> nat -> Z -> Hand)
    (turn_throws : nat -> nat -> Z -> Z) :
  turn_hands_valid turn_hand ->
  (forall hi g hs idx, half_reachable turn_hand turn_throws hi g hs idx ->
     half_chip_inv hs) /\
  (forall g hi ps g' hs', play_half turn_hand turn_throws g hi ps = Ok (g', hs') ->
     half_chip_inv hs').
Proof.
  intros Hv.
  assert (Hreach : forall hi g hs idx, half_reachable turn_hand turn_throws hi g hs idx ->
                     half_chip_inv hs).
  { induction 1 as [g ps hs Hi|g hs idx g' hs' brk _ IH _ _ Hb].
    - eapply half_init_inv; exact Hi.
    - eapply half_body_inv; eassumption. }
  split; [exact Hreach|].
  intros g hi ps g' hs' Hp. unfold play_half in Hp.
  destruct (half_init g hi ps) as [hs|e] eqn:Hi; cbn [bind_res] in Hp; [|discriminate].
  destruct (half_loop_reachable turn_hand turn_throws hi 1000 g hs 0 g' hs'
              (half_reachable_init _ _ _ _ _ _ Hi) Hp) as [idx' Hr].
  exact (Hreach _ _ _ _ Hr).
Qed.

Lemma half_chip_conservation_witness :
  turn_hands_valid (fun _ _ _ => demo_hand) /\
  (forall hi g hs idx, half_reachable (fun _ _ _ => demo_hand) (fun _ _ _ => 1) hi g hs idx ->
     half_chip_inv hs) /\
  (forall g hi ps g' hs',
     play_half (fun _ _ _ => demo_hand) (fun _ _ _ => 1) g hi ps = Ok (g', hs') ->
     half_chip_inv hs').
Proof.
  assert (Hv : turn_hands_valid (fun _ _ _ => demo_hand)).
  { intros k i p. split; [reflexivity|].
    exists "General"%string, 6, (mkHandType General 6). split; reflexivity. }
  split; [exact Hv|].
  apply (half_chip_conservation (fun _ _ _ => demo_hand) (fun _ _ _ => 1)). exact Hv.
Defined.

(** ** C4 *)

(** C4. A mini-round with fewer than 2 or more than 50 players raises
    ValueError. Otherwise it returns a mini-round whose turns are a
    permutation of the turns played, whose worst turn is a minimum and whose
    best turn is a maximum of those turns under the spec's Hand/Turn order
    (by category, and for equal categories the higher turn index is worse),
    whose given chips are the chip value of the best turn's category under
    SchockOut=13, Schock(n)=n, General=3, Straight=2, HighDice=1, and whose
    loser is the worst turn's player. *)
Theorem play_mini_round_order (turn_hand : nat -> nat -> Z -> Hand)
    (turn_throws : nat -> nat -> Z -> Z) (g : Game) (mrp : list Z) (idx : nat) :
  turn_hands_ready turn_hand ->
  let ps := mr_players_of g mrp in
  let ts := make_turns turn_hand turn_throws (mr_calls g) 0 ps in
  ((length ps < 2 \/ 50 < length ps)%nat ->
     play_mini_round turn_hand turn_throws g mrp idx = Err ValueError) /\
  ((2 <= length ps <= 50)%nat ->
     exists g' mr w b ht,
       play_mini_round turn_hand turn_throws g mrp idx = Ok (g', mr) /\
       Permutation (turns mr) ts /\
       worst_turn mr = Some w /\ best_turn mr = Some b /\
       List.In w ts /\ List.In b ts /\
       (forall t, List.In t ts ->
          claimed_turn_ltb t w = false /\ claimed_turn_ltb b t = false) /\
       cached_hand_type (final_hand b) = Some ht /\
       given_chips mr = claimed_chip_value ht /\
       mr_lost_by mr = Some (player_id w)).
Proof.
  intros Hok ps ts. split.
  - intros Hbad. unfold play_mini_round. fold ps.
    destruct (Nat.ltb_spec (length ps) 2); [reflexivity|].
    destruct (Nat.ltb_spec 50 (length ps)); [reflexivity|]. lia.
  - intros Hlen.
    destruct (play_mini_round_eq turn_hand turn_throws g mrp idx Hok Hlen)
      as (w & r & ht & Hs & Hht & Heq).
    fold ps ts in Hs.
    assert (Hperm : Permutation (w :: r) ts) by (rewrite <- Hs; apply isort_perm).
    assert (Hss : StronglySorted (fun x y => claimed_turn_ltb y x = false) (w :: r)).
    { rewrite <- Hs. apply isort_strongly_sorted.
      - apply claimed_turn_ltb_asym.
      - apply claimed_turn_le_trans. }
    exists (bump_calls g),
      (mkMiniRound ps idx (w :: r) (Some w) (Some (List.last (w :: r) w))
                   (chips ht) (Some (player_id w))),
      w, (List.last (w :: r) w), ht.
    split; [exact Heq|]. cbn [turns worst_turn best_turn given_chips mr_lost_by].
    split; [exact Hperm|]. split; [reflexivity|]. split; [reflexivity|].
    split; [apply (Permutation_in _ Hperm); left; reflexivity|].
    split; [apply (Permutation_in _ Hperm); apply last_in|].
    split.
    + intros t Ht. apply (Permutation_in _ (Permutation_sym Hperm)) in Ht.
      split.
      * destruct Ht as [<-|Ht]; [apply claimed_turn_ltb_irrefl|].
        inversion Hss as [|? ? _ Hall]; subst.
        exact (proj1 (List.Forall_forall _ _) Hall t Ht).
      * destruct (strongly_sorted_last _ (w :: r) w t Hss Ht) as [Hle|Heq'].
        -- exact Hle.
        -- rewrite <- Heq'. apply claimed_turn_ltb_irrefl.
    + split; [exact Hht|]. split; [|reflexivity].
      destruct ht as [[] v]; reflexivity.
Qed.

Lemma play_mini_round_order_witness :
  turn_hands_ready (fun _ _ _ => demo_hand) /\
  let ps := mr_players_of demo_game [] in
  let ts := make_turns (fun _ _ _ => demo_hand) (fun _ _ _ => 1) (mr_calls demo_game) 0 ps in
  ((length ps < 2 \/ 50 < length ps)%nat ->
     play_mini_round (fun _ _ _ => demo_hand) (fun _ _ _ => 1) demo_game [] 0
       = Err ValueError) /\
  ((2 <= length ps <= 50)%nat ->
     exists g' mr w b ht,
       play_mini_round (fun _ _ _ => demo_hand) (fun _ _ _ => 1) demo_game [] 0
         = Ok (g', mr) /\
       Permutation (turns mr) ts /\
       worst_turn mr = Some w /\ best_turn mr = Some b /\
       List.In w ts /\ List.In b ts /\
       (forall t, List.In t ts ->
          claimed_turn_ltb t w = false /\ claimed_turn_ltb b t = false) /\
       cached_hand_type (final_hand b) = Some ht /\
       given_chips mr = claimed_chip_value ht /\
       mr_lost_by mr = Some (player_id w)).
Proof.
  split.
  - intros k i p. split; [reflexivity | discriminate].
  - apply (play_mini_round_order (fun _ _ _ => demo_hand) (fun _ _ _ => 1)
             demo_game [] 0).
    intros k i p. split; [reflexivity | discriminate].
Defined.

(** ** C5 *)

(** C5. When the mini-round just played in a pass of [Game.play_half]'s loop
    has a Schock-out as its best hand, whatever the balances: the pass ends
    the loop, the half's loser is that mini-round's loser, the stock, the
    exhausted flag and all balances are left as they were, and the loop
    returns right after it, playing no further mini-round. *)
Theorem half_schock_out_ends (turn_hand : nat -> nat -> Z -> Hand)
    (turn_throws : nat -> nat -> Z -> Z) (f : nat) (g : Game) (hs : Half) (idx : nat)
    (is_regular : bool) (g' : Game) (hs' : Half) (brk : bool) (mr : MiniRound)
    (b : Turn) (t : HandType) :
  half_lost_by hs = None -> (idx < 1000)%nat ->
  half_body turn_hand turn_throws g hs idx is_regular = Ok (g', hs', brk) ->
  mini_rounds hs' = mini_rounds hs ++ [mr] ->
  best_turn mr = Some b -> Hand_hand_type (final_hand b) = Ok t ->
  hand_type t = SchockOut ->
  brk = true /\ half_lost_by hs' = mr_lost_by mr /\
  chip_balances hs' = chip_balances hs /\ chips_in_stock hs' = chips_in_stock hs /\
  stock_chips_gone hs' = stock_chips_gone hs /\
  half_loop turn_hand turn_throws (S f) g hs idx is_regular = Ok (g', hs').
Proof.
  intros Hnone Hidx H Hmrs Hb Ht Hso.
  assert (Hloop : half_loop turn_hand turn_throws (S f) g hs idx is_regular =
                  match brk with true => Ok (g', hs')
                  | false => half_loop turn_hand turn_throws f g' hs' (S idx) is_regular end).
  { cbn [half_loop]. rewrite Hnone.
    destruct (Nat.ltb_spec idx 1000); [|lia]. rewrite H. reflexivity. }
  rewrite Hloop. clear Hloop.
  unfold half_body in H.
  match type of H with bind_res ?c _ = _ =>
    destruct c as [active|e]; cbn [bind_res] in H; [|discriminate] end.
  destruct (play_mini_round turn_hand turn_throws g active idx) as [[g1 mr0]|e];
    cbn [bind_res] in H; [|discriminate].
  destruct (best_turn mr0) as [best|] eqn:Eb0; cbn [bind_res] in H; [|discriminate].
  destruct (Hand_hand_type (final_hand best)) as [bt|e] eqn:Ebt;
    cbn [bind_res] in H; [|discriminate].
  rewrite HandType_new_schock_out in H. cbn [bind_res] in H.
  destruct (HandType_eqb bt (mkHandType SchockOut 0)) eqn:Eq.
  - injection H as <- <- <-. cbn in Hmrs |- *.
    apply app_inj_tail in Hmrs as [_ [= <-]].
    repeat split; reflexivity.
  - exfalso.
    destruct (distribute hs (player_id best) (given_chips mr0))
      as [[[[given stock] gone] bal0]|e]; cbn [bind_res] in H; [|discriminate].
    destruct (opt_key (mr_lost_by (set_given_chips mr0 given))) as [lost|e];
      cbn [bind_res] in H; [|discriminate].
    destruct (dict_get bal0 lost) as [pl|e]; cbn [bind_res] in H; [|discriminate].
    match type of H with bind_res ?c _ = _ =>
      destruct c as [active'|e]; cbn [bind_res] in H; [|discriminate] end.
    match type of H with bind_res ?c _ = _ =>
      destruct c as [lb|e]; cbn [bind_res] in H; [|discriminate] end.
    injection H as _ <- _. cbn in Hmrs.
    apply app_inj_tail in Hmrs as [_ <-]. cbn in Hb.
    rewrite Eb0 in Hb. injection Hb as ->. rewrite Ebt in Ht. injection Ht as ->.
    unfold HandType_eqb, internal_rank in Eq. rewrite Hso in Eq. cbn in Eq. discriminate.
Qed.

Lemma half_schock_out_ends_witness :
  half_lost_by demo_half = None /\ (0 < 1000)%nat /\
  half_body (fun _ _ _ => so_hand) (fun _ _ _ => 1) demo_game demo_half 0 true
    = Ok (so_game, so_half, true) /\
  mini_rounds so_half = mini_rounds demo_half ++ [so_mr] /\
  best_turn so_mr = Some so_best /\
  Hand_hand_type (final_hand so_best) = Ok (mkHandType SchockOut 0) /\
  hand_type (mkHandType SchockOut 0) = SchockOut /\
  (true = true /\ half_lost_by so_half = mr_lost_by so_mr /\
   chip_balances so_half = chip_balances demo_half /\
   chips_in_stock so_half = chips_in_stock demo_half /\
   stock_chips_gone so_half = stock_chips_gone demo_half /\
   half_loop (fun _ _ _ => so_hand) (fun _ _ _ => 1) 1 demo_game demo_half 0 true
     = Ok (so_game, so_half)).
Proof.
  split; [reflexivity|]. split; [lia|]. split; [vm_compute; reflexivity|].
  split; [vm_compute; reflexivity|]. split; [vm_compute; reflexivity|].
  split; [vm_compute; reflexivity|]. split; [reflexivity|].
  apply (half_schock_out_ends (fun _ _ _ => so_hand) (fun _ _ _ => 1) 0 demo_game demo_half
           0 true so_game so_half true so_mr so_best (mkHandType SchockOut 0));
    [reflexivity | lia | vm_compute; reflexivity | vm_compute; reflexivity
    | vm_compute; reflexivity | vm_compute; reflexivity | reflexivity].
Defined.

(** ** C6 *)

(** C6. A round that [Game.play_round] completes plays half 0 and then half 1
    with all players; when both have the same loser that is the round's
    loser and there are two halves; otherwise the two losers exist, a single
    third half (index 2) is played by exactly [loser of half 0; loser of half 1],
    and its loser is the round's loser; in its first mini-round the loser of
    half 0 takes turn 0 and the loser of half 1 turn 1, and these are its
    only turns. *)
Theorem play_round_halves (turn_hand : nat -> nat -> Z -> Hand)
    (turn_throws : nat -> nat -> Z -> Z) (g : Game) (ri : nat) (g' : Game) (r : Round) :
  play_round turn_hand turn_throws g ri = Ok (g', r) ->
  exists g0 h0 g1 h1,
    play_half turn_hand turn_throws g 0 None = Ok (g0, h0) /\
    play_half turn_hand turn_throws g0 1 None = Ok (g1, h1) /\
    ((half_lost_by h0 = half_lost_by h1 /\ halves r = [h0; h1] /\
      round_lost_by r = half_lost_by h0) \/
     (half_lost_by h0 <> half_lost_by h1 /\
      exists p0 p1 g2 h2 mr rest,
        half_lost_by h0 = Some p0 /\ half_lost_by h1 = Some p1 /\
        play_half turn_hand turn_throws g1 2 (Some [p0; p1]) = Ok (g2, h2) /\
        halves r = [h0; h1; h2] /\ round_lost_by r = half_lost_by h2 /\
        mini_rounds h2 = mr :: rest /\
        exists t0 t1, turns mr ≡ₚ [t0; t1] /\
          turn_index t0 = 0 /\ player_id t0 = p0 /\
          turn_index t1 = 1 /\ player_id t1 = p1)).
Proof.
  unfold play_round.
  destruct (play_half turn_hand turn_throws g 0 None) as [[g0 h0]|e] eqn:E0;
    cbn [bind_res]; [|discriminate].
  destruct (play_half turn_hand turn_throws g0 1 None) as [[g1 h1]|e] eqn:E1;
    cbn [bind_res]; [|discriminate].
  destruct (bool_decide (half_lost_by h0 = half_lost_by h1)) eqn:Ed; intros H;
    exists g0, h0, g1, h1; (split; [reflexivity|]); (split; [exact E1|]).
  - apply bool_decide_eq_true in Ed. injection H as _ <-.
    left. split; [exact Ed|]. split; reflexivity.
  - apply bool_decide_eq_false in Ed. right. split; [exact Ed|].
    unfold mapM, find_player in H.
    destruct (half_lost_by h0) as [p0|]; cbn [bind_res mapM] in H; [|discriminate].
    destruct (bool_decide (p0 ∈ players g1)); cbn [bind_res mapM] in H; [|discriminate].
    destruct (half_lost_by h1) as [p1|]; cbn [bind_res mapM] in H; [|discriminate].
    destruct (bool_decide (p1 ∈ players g1)); cbn [bind_res mapM] in H; [|discriminate].
    destruct (play_half turn_hand turn_throws g1 2 (Some [p0; p1])) as [[g2 h2]|e] eqn:E2;
      cbn [bind_res mapM] in H; [|discriminate].
    injection H as _ <-.
    destruct (play_half_final_first _ _ _ _ _ _ _ E2) as (mr & rest & Hm & Hp).
    exists p0, p1, g2, h2, mr, rest. cbn in Hp.
    do 6 (split; [assumption || reflexivity|]).
    do 2 eexists. split; [exact Hp|]. repeat split.
Qed.

Lemma play_round_halves_witness :
  play_round (fun _ _ _ => so_hand) (fun _ _ _ => 1) demo_game 0 = Ok (so_round_game, so_round) /\
  exists g0 h0 g1 h1,
    play_half (fun _ _ _ => so_hand) (fun _ _ _ => 1) demo_game 0 None = Ok (g0, h0) /\
    play_half (fun _ _ _ => so_hand) (fun _ _ _ => 1) g0 1 None = Ok (g1, h1) /\
    ((half_lost_by h0 = half_lost_by h1 /\ halves so_round = [h0; h1] /\
      round_lost_by so_round = half_lost_by h0) \/
     (half_lost_by h0 <> half_lost_by h1 /\
      exists p0 p1 g2 h2 mr rest,
        half_lost_by h0 = Some p0 /\ half_lost_by h1 = Some p1 /\
        play_half (fun _ _ _ => so_hand) (fun _ _ _ => 1) g1 2 (Some [p0; p1]) = Ok (g2, h2) /\
        halves so_round = [h0; h1; h2] /\ round_lost_by so_round = half_lost_by h2 /\
        mini_rounds h2 = mr :: rest /\
        exists t0 t1, turns mr ≡ₚ [t0; t1] /\
          turn_index t0 = 0 /\ player_id t0 = p0 /\
          turn_index t1 = 1 /\ player_id t1 = p1)).
Proof.
  assert (H : play_round (fun _ _ _ => so_hand) (fun _ _ _ => 1) demo_game 0
              = Ok (so_round_game, so_round)) by (vm_compute; reflexivity).
  split; [exact H|].
  exact (play_round_halves (fun _ _ _ => so_hand) (fun _ _ _ => 1) demo_game 0
           so_round_game so_round H).
Defined.

(** ** C7 *)

(** C7 (code defect). A turn of the test suite's [DummyPlayer], which ends
    its turn at once, on the roll 2-3-5: the final hand is finalized, but
    none of its dice is visible, since [Hand.finalize] never sets
    [visible] although its docstring says it makes all dice visible. *)
Theorem play_turn_leaves_dice_hidden :
  exists t,
    play_turn dummy_strategy 0 Hand_empty 2 3 5 3 0 = Ok t /\
    finalized (final_hand t) = true /\
    map visible (dice (final_hand t)) = [false; false; false].
Proof. eexists. split; [vm_compute; reflexivity|]. split; reflexivity. Qed.

(** ** C8 *)

(** C8 (code defect). [_throw_new_hand] on 4-3-2 with the default options:
    no die is set aside, yet when the first die is rerolled to 3 the second
    die (3, hidden, not taken out) compares [==] to it, counts as [in
    dice_processed] and is not thrown; it keeps its value 3. *)
Theorem throw_new_hand_skips_equal_die :
  exists h',
    Throw.throw_new_hand roll_3_then_6 hand_432 true true false
      = Ok (h', [], [true; false; true]) /\
    map value (dice h') = [6; 3; 3].
Proof. eexists. split; [vm_compute; reflexivity | reflexivity]. Qed.

(** ** C9 *)

(** C9. [get_all_possible_hands] succeeds; every hand it returns round-trips
    through [to_name]/[from_name] to the same hand type; it covers the hand
    type of every roll, assembled or not; and "Motte" reads back as High Dice
    221, "Schock-out" as Schock-out, and the assembled 1-2-3 hand is named
    "32-1", which reads back as High Dice 321. *)
Theorem possible_hands_name_roundtrip :
  exists l, get_all_possible_hands = Ok l /\
    Forall name_roundtrips l /\
    Forall (roll_covered l) all_rolls /\
    hand_type_of (Hand_from_name "Motte") = Ok (mkHandType HighDice 221) /\
    hand_type_of (Hand_from_name "Schock-out") = Ok (mkHandType SchockOut 0) /\
    (let* h := detemine_hand_type (hand_of_values 3 2 1 true) in Hand_to_name h)
      = Ok "32-1"%string /\
    hand_type_of (Hand_from_name "32-1") = Ok (mkHandType HighDice 321).
Proof.
  exists all_possible_hands.
  split; [exact get_all_possible_hands_ok|].
  split.
  { apply List.Forall_forall. intros h Hin. apply name_roundtripsb_sound.
    revert h Hin. apply (proj1 (List.forallb_forall name_roundtripsb _)).
    vm_compute. reflexivity. }
  split.
  { apply List.Forall_forall. intros x Hin. apply roll_coveredb_sound.
    revert x Hin. apply (proj1 (List.forallb_forall (roll_coveredb all_possible_hands) _)).
    vm_compute. reflexivity. }
  repeat split; vm_compute; reflexivity.
Qed.

(** ** C10 *)

(** C10 (as stated, refuted). A hand that held three dice (Schock-out) and
    is then given an empty dice list through the setter still reports the
    Schock-out hand type: reading [hand_type] does not raise. *)
Lemma hand_type_stale_after_resize :
  (let* h := set_dice Hand_empty
               [mkDie 1 false false; mkDie 1 false false; mkDie 1 false false] in
   let* h := set_dice h [] in
   Ok (length (dice h), Hand_hand_type h))
  = Ok (0%nat, Ok (mkHandType SchockOut 0)).
Proof. vm_compute. reflexivity. Qed.

(** C10 (amended). When the dice list does not hold exactly three dice,
    [detemine_hand_type] changes nothing and [update] keeps the cached hand
    type: if no type was ever cached (as in a fresh [Hand()]), reading
    [hand_type] raises [ValueError], and so do [to_name] and [<]; if a type
    was cached from earlier dice, [hand_type] still returns it. *)
Theorem hand_type_without_three_dice (h : Hand) :
  length (dice h) <> 3%nat ->
  detemine_hand_type h = Ok h /\
  (exists h', update h = Ok h' /\ cached_hand_type h' = cached_hand_type h) /\
  (cached_hand_type h = None ->
   Hand_hand_type h = Err ValueError /\ Hand_to_name h = Err ValueError /\
   forall g, Hand_lt h g = Err ValueError) /\
  (forall t, cached_hand_type h = Some t -> Hand_hand_type h = Ok t) /\
  Hand_hand_type Hand_empty = Err ValueError.
Proof.
  intros Hlen.
  assert (Hdet : forall g, length (dice g) <> 3%nat -> detemine_hand_type g = Ok g).
  { intros g Hg. unfold detemine_hand_type.
    destruct (Nat.eqb_spec (length (dice g)) 3); [contradiction|reflexivity]. }
  split; [auto|].
  split.
  { unfold update.
    set (g := Hand_sort h).
    assert (Hg : length (dice g) = length (dice h)).
    { unfold g, Hand_sort, set_dice_raw; cbn. apply isort_length. }
    destruct (existsb taken_out (dice g)).
    - rewrite Hdet; [eexists; split; reflexivity|].
      unfold set_put_together; cbn [dice]. rewrite Hg. exact Hlen.
    - rewrite Hdet; [eexists; split; reflexivity|]. rewrite Hg. exact Hlen. }
  split.
  { intros Hc. unfold Hand_to_name, Hand_lt, Hand_hand_type. rewrite Hc.
    split; [reflexivity | split; [reflexivity | intros; reflexivity]]. }
  split; [|reflexivity].
  intros t Ht. unfold Hand_hand_type. rewrite Ht. reflexivity.
Qed.

Lemma hand_type_without_three_dice_witness :
  length (dice Hand_empty) <> 3%nat /\
  detemine_hand_type Hand_empty = Ok Hand_empty /\
  (exists h', update Hand_empty = Ok h' /\ cached_hand_type h' = cached_hand_type Hand_empty) /\
  (cached_hand_type Hand_empty = None ->
   Hand_hand_type Hand_empty = Err ValueError /\ Hand_to_name Hand_empty = Err ValueError /\
   forall g, Hand_lt Hand_empty g = Err ValueError) /\
  (forall t, cached_hand_type Hand_empty = Some t -> Hand_hand_type Hand_empty = Ok t) /\
  Hand_hand_type Hand_empty = Err ValueError.
Proof.
  split; [cbn; discriminate|].
  apply hand_type_without_three_dice. cbn. discriminate.
Defined.

(** * Further properties *)

Lemma isort_sorted_id {A} (lt : A -> A -> bool) (l : list A) :
  Sorted (fun x y => lt y x = false) l -> isort lt l = l.
Proof.
  induction 1 as [|x r Hr IH Hhd]; cbn; [done|].
  rewrite IH. destruct Hhd as [|y r' Hy]; cbn; [done|].
  rewrite Hy. done.
Qed.

Lemma dice_desc_iff (l : list Die) :
  Sorted (fun x y => value y <= value x) l <->
  Sorted (fun x y => (fun a b => value b <? value a) y x = false) l.
Proof.
  split; induction 1 as [|x r Hr IH Hhd]; constructor; auto;
    (destruct Hhd; constructor; cbn in *; [lia || apply Z.ltb_ge; lia | ..]).
  all: apply Z.ltb_ge in H; lia.
Qed.

Lemma Hand_sort_id (h : Hand) :
  Sorted (fun x y => value y <= value x) (dice h) -> Hand_sort h = h.
Proof.
  intros Hs%dice_desc_iff. unfold Hand_sort, set_dice_raw.
  rewrite isort_sorted_id by exact Hs. destruct h; reflexivity.
Qed.

Lemma detemine_shape (h h' : Hand) :
  detemine_hand_type h = Ok h' ->
  exists c, h' = set_cache h c \/ h' = set_cache (Hand_sort h) c.
Proof.
  unfold detemine_hand_type, high_dice. intros H.
  repeat match type of H with
  | (if ?b then _ else _) = _ => destruct b
  | bind_res ?c _ = _ => destruct c; cbn [bind_res] in H; [|discriminate H]
  | match ?x with _ => _ end = _ => destruct x
  end; try discriminate H; injection H as <-; eauto.
  exists (cached_hand_type h). left. destruct h; reflexivity.
Qed.

Lemma dice_sort_sorted (l : list Die) :
  Sorted (fun x y => value y <= value x) (isort (fun x y => value y <? value x) l).
Proof.
  apply dice_desc_iff. apply isort_sorted.
  intros x y Hxy. apply Z.ltb_lt in Hxy. apply Z.ltb_ge. lia.
Qed.

Lemma update_unfold (h : Hand) :
  update h = detemine_hand_type
    (if existsb taken_out (dice (Hand_sort h)) then set_put_together (Hand_sort h) true
     else Hand_sort h).
Proof. reflexivity. Qed.

Lemma update_shape (h h' : Hand) :
  update h = Ok h' ->
  exists c, h' = set_cache (if existsb taken_out (dice (Hand_sort h))
                            then set_put_together (Hand_sort h) true
                            else Hand_sort h) c.
Proof.
  rewrite update_unfold.
  set (h1 := if existsb taken_out (dice (Hand_sort h)) then _ else _).
  intros H. destruct (detemine_shape _ _ H) as [c [E|E]]; exists c; [exact E|].
  rewrite E, Hand_sort_id; [reflexivity|].
  unfold h1. destruct (existsb _ _); apply dice_sort_sorted.
Qed.

Lemma existsb_perm {A} (f : A -> bool) (l l' : list A) :
  l ≡ₚ l' -> existsb f l = existsb f l'.
Proof.
  intros Hp. apply Bool.eq_true_iff_eq. rewrite !existsb_exists.
  split; intros (x & Hx & Hf); exists x; split; try done.
  - eapply Permutation_in; [exact Hp | exact Hx].
  - eapply Permutation_in; [symmetry; exact Hp | exact Hx].
Qed.

(** X1. [Hand.update] keeps the dice as a multiset and sorts them by descending value; it sets [put_together] when a die is taken out (and never clears it); it leaves [players_turn_ind] and [finalized] unchanged. *)
Theorem update_sorts_and_flags (h h' : Hand) :
  update h = Ok h' ->
  dice h' ≡ₚ dice h /\
  Sorted (fun x y => value y <= value x) (dice h') /\
  put_together h' = existsb taken_out (dice h) || put_together h /\
  players_turn_ind h' = players_turn_ind h /\
  finalized h' = finalized h.
Proof.
  intros H. destruct (update_shape _ _ H) as [c ->].
  assert (Hp : dice (Hand_sort h) ≡ₚ dice h) by apply isort_perm.
  rewrite (existsb_perm _ _ _ Hp).
  destruct (existsb taken_out (dice h)); cbn;
    (split; [exact Hp | split; [apply dice_sort_sorted | auto]]).
Qed.

Lemma detemine_set_cache (g : Hand) (c : option HandType) :
  length (dice g) = 3%nat ->
  detemine_hand_type (set_cache g c) = detemine_hand_type g.
Proof.
  destruct g as [d c0 pt i f]; cbn [dice]; intros Hl.
  unfold detemine_hand_type. cbn [dice set_cache]. rewrite Hl. reflexivity.
Qed.

Lemma update_idem_aux (h1 h' : Hand) (c : option HandType) :
  Sorted (fun x y => value y <= value x) (dice h1) ->
  (existsb taken_out (dice h1) = true -> put_together h1 = true) ->
  detemine_hand_type h1 = Ok h' -> h' = set_cache h1 c -> update h' = Ok h'.
Proof.
  intros Hs Hpt H0 Hc.
  rewrite update_unfold, Hand_sort_id by (rewrite Hc; exact Hs).
  assert (Hd : dice h' = dice h1) by (rewrite Hc; reflexivity).
  replace (if existsb taken_out (dice h') then set_put_together h' true else h') with h'.
  2:{ rewrite Hd. destruct (existsb taken_out (dice h1)) eqn:E; [|reflexivity].
      rewrite Hc. unfold set_put_together, set_cache. cbn. rewrite (Hpt eq_refl).
      reflexivity. }
  destruct (Nat.eq_dec (length (dice h1)) 3%nat) as [E3|E3].
  - rewrite Hc, detemine_set_cache by exact E3. rewrite <- Hc. exact H0.
  - assert (Hn : forall g, length (dice g) <> 3%nat -> detemine_hand_type g = Ok g).
    { intros g Hg. unfold detemine_hand_type.
      destruct (Nat.eqb_spec (length (dice g)) 3); [contradiction|reflexivity]. }
    rewrite Hn in H0 by exact E3. injection H0 as <-.
    apply Hn. exact E3.
Qed.

Lemma update_idem (h h' : Hand) : update h = Ok h' -> update h' = Ok h'.
Proof.
  intros H. pose proof H as H0. rewrite update_unfold in H0.
  destruct (update_shape _ _ H) as [c Hc].
  destruct (existsb taken_out (dice (Hand_sort h))) eqn:E.
  - apply (update_idem_aux (set_put_together (Hand_sort h) true) _ c); auto.
    apply dice_sort_sorted.
  - apply (update_idem_aux (Hand_sort h) _ c); auto; [apply dice_sort_sorted|].
    rewrite E. discriminate.
Qed.

(** X2. [Hand.update] is idempotent: updating an updated hand returns it unchanged. *)
Theorem update_idempotent (h h' : Hand) : update h = Ok h' -> update h' = Ok h'.
Proof. apply update_idem. Qed.

Lemma detemine_values (g : Hand) (d1 d2 d3 : Die) :
  dice g = [d1; d2; d3] -> die_valid d1 -> die_valid d2 -> die_valid d3 ->
  exists g', detemine_hand_type g = Ok g' /\
    cached_hand_type g' =
      cache_of (detemine_hand_type
                  (hand_of_values (value d1) (value d2) (value d3) (put_together g))).
Proof.
  unfold die_valid.
  destruct g as [ds c pt i f]; cbn [dice put_together]; intros -> H1 H2 H3.
  destruct d1 as [a va ta], d2 as [b vb tb], d3 as [e ve te]; cbn [value] in *.
  enum_value a; enum_value b; enum_value e; destruct pt;
    (eexists; split; reflexivity).
Qed.

Lemma valid_in_all_rolls (a b c : Z) (pt : bool) :
  1 <= a <= 6 -> 1 <= b <= 6 -> 1 <= c <= 6 -> In (a, b, c, pt) all_rolls.
Proof.
  intros Ha Hb Hc. apply list_elem_of_In.
  enum_value a; enum_value b; enum_value c; destruct pt;
    apply (bool_decide_unpack _); vm_compute; reflexivity.
Qed.

(** Whatever holds of the hand type of every roll holds of the hand type
    [detemine_hand_type] gives a hand of three dice with values in 1..6. *)
Lemma detemine_cache_prop (Q : option HandType -> Prop) (g : Hand) :
  length (dice g) = 3%nat -> Forall die_valid (dice g) ->
  (forall a b c pt, In (a, b, c, pt) all_rolls ->
     Q (cache_of (detemine_hand_type (hand_of_values a b c pt)))) ->
  exists g', detemine_hand_type g = Ok g' /\ Q (cached_hand_type g').
Proof.
  intros Hl Hv HQ.
  destruct (dice g) as [|d1 [|d2 [|d3 [|]]]] eqn:Ed; try discriminate Hl.
  assert (V1 : die_valid d1) by (eapply List.Forall_forall; [exact Hv | cbn; tauto]).
  assert (V2 : die_valid d2) by (eapply List.Forall_forall; [exact Hv | cbn; tauto]).
  assert (V3 : die_valid d3) by (eapply List.Forall_forall; [exact Hv | cbn; tauto]).
  destruct (detemine_values g d1 d2 d3 Ed V1 V2 V3) as (g' & Hg & Hc).
  exists g'. split; [exact Hg|]. rewrite Hc. apply HQ.
  apply valid_in_all_rolls; assumption.
Qed.

(** [update] on three dice with values in 1..6 is [detemine_hand_type] on
    the sorted hand, which again has three such dice. *)
Lemma update_as_detemine (h : Hand) :
  length (dice h) = 3%nat -> Forall die_valid (dice h) ->
  exists h1, update h = detemine_hand_type h1 /\
    length (dice h1) = 3%nat /\ Forall die_valid (dice h1).
Proof.
  intros Hl Hv. rewrite update_unfold.
  set (h1 := if existsb taken_out (dice (Hand_sort h)) then _ else _).
  exists h1. split; [reflexivity|].
  assert (Hp : dice h1 ≡ₚ dice h).
  { unfold h1. destruct (existsb _ _); apply isort_perm. }
  split.
  - rewrite Hp. exact Hl.
  - apply List.Forall_forall. intros x Hx.
    apply (proj1 (List.Forall_forall _ _) Hv).
    eapply Permutation_in; [exact Hp | exact Hx].
Qed.

Lemma update_cache_prop (Q : option HandType -> Prop) (h : Hand) :
  length (dice h) = 3%nat -> Forall die_valid (dice h) ->
  (forall a b c pt, In (a, b, c, pt) all_rolls ->
     Q (cache_of (detemine_hand_type (hand_of_values a b c pt)))) ->
  exists h', update h = Ok h' /\ Q (cached_hand_type h') /\ length (dice h') = 3%nat.
Proof.
  intros Hl Hv HQ.
  destruct (update_as_detemine h Hl Hv) as (h1 & E & Hl1 & Hv1).
  destruct (detemine_cache_prop Q h1 Hl1 Hv1 HQ) as (h' & Hd & Hq).
  exists h'. rewrite E. split; [exact Hd|]. split; [exact Hq|].
  destruct (detemine_shape _ _ Hd) as [c [-> | ->]]; cbn; [exact Hl1|].
  rewrite isort_length. exact Hl1.
Qed.

Lemma all_rolls_check (f : Z * Z * Z * bool -> bool) :
  forallb f all_rolls = true ->
  forall a b c pt, In (a, b, c, pt) all_rolls -> f (a, b, c, pt) = true.
Proof. intros Hf a b c pt Hin. exact (proj1 (List.forallb_forall f _) Hf _ Hin). Qed.

Lemma detemine_not_three (g : Hand) :
  length (dice g) <> 3%nat -> detemine_hand_type g = Ok g.
Proof.
  intros Hg. unfold detemine_hand_type.
  destruct (Nat.eqb_spec (length (dice g)) 3); [contradiction|reflexivity].
Qed.

Lemma update_ok (g : Hand) :
  Forall die_valid (dice g) -> exists g', update g = Ok g'.
Proof.
  intros Hv. destruct (Nat.eq_dec (length (dice g)) 3%nat) as [E|E].
  - destruct (update_cache_prop (fun _ => True) g E Hv) as (g' & Hg & _); eauto.
  - rewrite update_unfold, detemine_not_three; [eauto|].
    destruct (existsb _ _); cbn; rewrite isort_length; exact E.
Qed.

Lemma update_dice (g g' : Hand) :
  update g = Ok g' -> dice g' = isort (fun x y => value y <? value x) (dice g).
Proof.
  intros H. destruct (update_shape _ _ H) as [c ->].
  destruct (existsb _ _); reflexivity.
Qed.

(** X3. [Hand.copy] of a hand that [update] produced from dice with values 1..6 returns an equal hand: same dice, category and flags. *)
Theorem Hand_copy_of_updated (h0 h : Hand) :
  update h0 = Ok h -> Forall die_valid (dice h0) -> Hand_copy h = Ok h.
Proof.
  intros H Hv.
  assert (Hd : dice h = isort (fun x y => value y <? value x) (dice h0))
    by (exact (update_dice _ _ H)).
  assert (Hp : dice h ≡ₚ dice h0) by (rewrite Hd; apply isort_perm).
  assert (Hvh : Forall die_valid (dice h)).
  { apply List.Forall_forall. intros x Hx.
    eapply List.Forall_forall; [exact Hv|]. eapply Permutation_in; [exact Hp | exact Hx]. }
  unfold Hand_copy, set_dice.
  destruct (update_ok (set_dice_raw Hand_empty (dice h)) Hvh) as [n Hn].
  rewrite Hn. cbn [bind_res].
  assert (Hdn : dice n = dice h).
  { rewrite (update_dice _ _ Hn). cbn. rewrite Hd.
    apply isort_sorted_id, dice_desc_iff, dice_sort_sorted. }
  rewrite Hdn. replace (mkHand (dice h) _ _ _ _) with h by (destruct h; reflexivity).
  exact (update_idem _ _ H).
Qed.

(** X4. [get_chip_count] raises [ValueError] unless the hand holds three dice; after [update] of three dice with values 1..6 it returns one of 1, 2, 3, 4, 5, 6 and 13. *)
Theorem get_chip_count_of_updated :
  (forall h, length (dice h) <> 3%nat -> get_chip_count h = Err ValueError) /\
  (forall h0, length (dice h0) = 3%nat -> Forall die_valid (dice h0) ->
   exists h k, update h0 = Ok h /\ get_chip_count h = Ok k /\ In k [1; 2; 3; 4; 5; 6; 13]).
Proof.
  split.
  - intros h Hl. unfold get_chip_count.
    destruct (Nat.eqb_spec (length (dice h)) 3); [contradiction|reflexivity].
  - intros h0 Hl Hv.
    destruct (update_cache_prop (fun c => chips_in_range c = true) h0 Hl Hv)
      as (h & Hu & Hc & Hl').
    { intros a b c pt Hin.
      exact (all_rolls_check (fun '(a, b, c, pt) =>
               chips_in_range (cache_of (detemine_hand_type (hand_of_values a b c pt))))
               ltac:(vm_compute; reflexivity) a b c pt Hin). }
    unfold chips_in_range in Hc. destruct (cached_hand_type h) as [t|] eqn:Et; [|discriminate].
    exists h, (chips t). split; [exact Hu|]. split.
    + unfold get_chip_count, Hand_hand_type. rewrite Hl', Et. reflexivity.
    + apply existsb_exists in Hc as (k & Hk & Ek). apply Z.eqb_eq in Ek. subst k. exact Hk.
Qed.

Lemma name_roundtripsb_cache (h g : Hand) :
  cached_hand_type h = cached_hand_type g -> name_roundtripsb h = name_roundtripsb g.
Proof.
  intros E. unfold name_roundtripsb, Hand_to_name, Hand_hand_type. rewrite E. reflexivity.
Qed.

(** X5. [update] succeeds on every hand of three dice with values 1..6, and the resulting hand's name read back by [from_name] gives a hand of the same category. *)
Theorem update_then_name_roundtrip (h0 : Hand) :
  length (dice h0) = 3%nat -> Forall die_valid (dice h0) ->
  exists h, update h0 = Ok h /\ name_roundtrips h.
Proof.
  intros Hl Hv.
  destruct (update_cache_prop (fun c => name_roundtripsb (set_cache Hand_empty c) = true)
              h0 Hl Hv) as (h & Hu & Hc & _).
  { intros a b c pt Hin.
    exact (all_rolls_check (fun '(a, b, c, pt) =>
             name_roundtripsb (set_cache Hand_empty
               (cache_of (detemine_hand_type (hand_of_values a b c pt)))))
             ltac:(vm_compute; reflexivity) a b c pt Hin). }
  exists h. split; [exact Hu|]. apply name_roundtripsb_sound.
  rewrite (name_roundtripsb_cache h (set_cache Hand_empty (cached_hand_type h))) by reflexivity.
  exact Hc.
Qed.

Lemma update_finalized (g g' : Hand) : update g = Ok g' -> finalized g' = finalized g.
Proof. intros H. destruct (update_shape _ _ H) as [c ->]. destruct (existsb _ _); reflexivity. Qed.

Lemma Hand_copy_ok (h : Hand) :
  Forall die_valid (dice h) -> exists n, Hand_copy h = Ok n /\ finalized n = finalized h.
Proof.
  intros Hv. unfold Hand_copy, set_dice.
  destruct (update_ok (set_dice_raw Hand_empty (dice h)) Hv) as [n1 Hn1].
  rewrite Hn1. cbn [bind_res].
  assert (Hv1 : Forall die_valid (dice n1)).
  { rewrite (update_dice _ _ Hn1). apply List.Forall_forall. intros x Hx.
    eapply List.Forall_forall; [exact Hv|].
    eapply Permutation_in; [apply isort_perm | exact Hx]. }
  destruct (update_ok (mkHand (dice n1) (cached_hand_type h) (put_together h)
                        (players_turn_ind h) (finalized h)) Hv1) as [n Hn].
  exists n. split; [exact Hn|]. rewrite (update_finalized _ _ Hn). reflexivity.
Qed.

(** X6. [_throw_new_hand] without [should_throw_all] on a finalized hand (dice 1..6) raises [ValueError] as soon as taking out ones or converting sixes is requested: [take_out_ones] and [convert_sixes] refuse a finalized hand. *)
Theorem throw_new_hand_finalized (roll : nat -> Z) (h : Hand) (o s : bool) :
  finalized h = true -> Forall die_valid (dice h) -> o || s = true ->
  Throw.throw_new_hand roll h o s false = Err ValueError.
Proof.
  intros Hf Hv Hos. destruct (Hand_copy_ok h Hv) as (n & Hc & Hfn).
  unfold Throw.throw_new_hand. rewrite Hc. cbn [bind_res negb].
  rewrite Hfn, Hf.
  destruct o; cbn; [reflexivity|].
  destruct s; [reflexivity | discriminate].
Qed.

Lemma prefix_cons (a b : ascii) (s1 s2 : string) :
  String.prefix (String a s1) (String b s2) =
    match ascii_dec a b with left _ => String.prefix s1 s2 | right _ => false end.
Proof. reflexivity. Qed.

Lemma prefix_nil (s : string) : String.prefix EmptyString s = true.
Proof. destruct s; reflexivity. Qed.

Lemma index_nil (s1 : string) :
  String.index 0 s1 "" = match s1 with EmptyString => Some 0%nat | String _ _ => None end.
Proof. reflexivity. Qed.

Lemma index_cons (s1 : string) (b : ascii) (s : string) :
  String.index 0 s1 (String b s) =
    if String.prefix s1 (String b s) then Some 0%nat
    else match String.index 0 s1 s with Some n => Some (S n) | None => None end.
Proof. reflexivity. Qed.

Lemma index_none_first (a : ascii) (s1 s : string) :
  str_all (not_char a) s = true -> String.index 0 (String a s1) s = None.
Proof.
  induction s as [|b s IH]; [reflexivity|].
  rewrite index_cons, prefix_cons. cbn [str_all].
  intros [Hb Hs]%andb_prop. unfold not_char in Hb.
  destruct (ascii_dec a b) as [<-|Hne].
  - rewrite Ascii.eqb_refl in Hb. discriminate.
  - rewrite IH by exact Hs. reflexivity.
Qed.

Lemma prefix_all (p : ascii -> bool) (s1 s2 : string) :
  String.prefix s1 s2 = true -> str_all p s2 = true -> str_all p s1 = true.
Proof.
  revert s2; induction s1 as [|a s1 IH]; intros s2; [reflexivity|].
  destruct s2 as [|b s2]; [intro; discriminate|].
  rewrite prefix_cons.
  destruct (ascii_dec a b) as [<-|]; [|intro; discriminate].
  cbn [str_all]. intros Hp [Ha Hs]%andb_prop. rewrite Ha. cbn. eapply IH; eauto.
Qed.

Lemma index_some_all (p : ascii -> bool) (s1 s : string) (m : nat) :
  String.index 0 s1 s = Some m -> str_all p s = true -> str_all p s1 = true.
Proof.
  revert m; induction s as [|b s IH]; intros m.
  - rewrite index_nil. destruct s1; [reflexivity | intro; discriminate].
  - rewrite index_cons. destruct (String.prefix s1 (String b s)) eqn:Hp.
    + intros _ Hs. eapply prefix_all; [exact Hp|]. exact Hs.
    + destruct (String.index 0 s1 s) as [k|] eqn:Ei; [|intro; discriminate].
      cbn [str_all]. intros _ [_ Hs]%andb_prop. eapply IH; [reflexivity | exact Hs].
Qed.

Lemma not_contains_dash (s : string) :
  str_contains "-" s = false -> str_all (not_char "-") s = true.
Proof.
  unfold str_contains. induction s as [|b s IH]; [reflexivity|].
  rewrite index_cons, prefix_cons.
  destruct (ascii_dec "-" b) as [<-|Hne].
  { cbv beta iota. rewrite prefix_nil. intro; discriminate. }
  destruct (String.index 0 "-" s); [intro; discriminate|].
  intros _. cbn [str_all]. rewrite IH by reflexivity. unfold not_char.
  destruct (Ascii.eqb_spec b "-"); [congruence|reflexivity].
Qed.

Lemma contains_needs_char (a : ascii) (needle s : string) :
  str_all (not_char a) needle = false -> str_all (not_char a) s = true ->
  str_contains needle s = false.
Proof.
  intros Hn Hs. unfold str_contains.
  destruct (String.index 0 needle s) as [m|] eqn:E; [|reflexivity].
  rewrite (index_some_all _ _ _ _ E Hs) in Hn. discriminate.
Qed.

(** X7. [Hand.from_name] raises [ValueError] for every name other than "Motte" that contains no '-'. *)
Theorem from_name_without_dash (name : string) :
  name <> "Motte"%string -> str_contains "-" name = false ->
  Hand_from_name name = Err ValueError.
Proof.
  intros Hm Hd. apply not_contains_dash in Hd.
  unfold Hand_from_name.
  rewrite (proj2 (String.eqb_neq _ _) Hm).
  rewrite !(contains_needs_char "-" _ name) by (reflexivity || exact Hd).
  reflexivity.
Qed.

Lemma str_all_app (p : ascii -> bool) (s t : string) :
  str_all p (String.append s t) = str_all p s && str_all p t.
Proof. induction s as [|c s IH]; [reflexivity|]. change (p c && str_all p (String.append s t) = (p c && str_all p s) && str_all p t). rewrite IH. apply andb_assoc. Qed.

Lemma str_all_impl (p q : ascii -> bool) (s : string) :
  (forall c, p c = true -> q c = true) -> str_all p s = true -> str_all q s = true.
Proof.
  intros Hpq. induction s as [|c s IH]; cbn; [reflexivity|].
  intros [Hc Hs]%andb_prop. rewrite (Hpq c Hc), IH by exact Hs. reflexivity.
Qed.

Lemma digit_not_char (a c : ascii) : is_digit a = false -> is_digit c = true -> not_char a c = true.
Proof.
  intros Ha Hc. unfold not_char. destruct (Ascii.eqb_spec c a) as [->|]; [congruence|reflexivity].
Qed.

Lemma digits_not_char (a : ascii) (s : string) :
  is_digit a = false -> str_all is_digit s = true -> str_all (not_char a) s = true.
Proof. intros Ha. apply str_all_impl. intros c. apply digit_not_char. exact Ha. Qed.

Lemma split_on_none (c : ascii) (s : string) :
  str_all (not_char c) s = true -> split_on c s = [s].
Proof.
  induction s as [|x s IH]; cbn; [reflexivity|].
  intros [Hx Hs]%andb_prop. rewrite IH by exact Hs. unfold not_char in Hx.
  destruct (Ascii.eqb x c); [discriminate|reflexivity].
Qed.

Lemma index_prefix (n h : string) :
  String.prefix n h = true -> h <> EmptyString -> String.index 0 n h = Some 0%nat.
Proof. intros Hp Hh. destruct h as [|b h]; [congruence|]. rewrite index_cons, Hp. reflexivity. Qed.

Lemma prefix_app (p s : string) : String.prefix p (String.append p s) = true.
Proof.
  induction p as [|a p IH]; [apply prefix_nil|].
  change (String.prefix (String a p) (String a (String.append p s)) = true).
  rewrite prefix_cons. destruct (ascii_dec a a); [exact IH | congruence].
Qed.

Lemma contains_app (p s : string) : p <> EmptyString -> str_contains p (String.append p s) = true.
Proof.
  intros Hp. unfold str_contains. rewrite index_prefix; [reflexivity | apply prefix_app|].
  destruct p; [congruence | discriminate].
Qed.

(** The decimal digits of [str]. *)
Lemma digits_aux_S (f : nat) (n : Z) (acc : string) :
  digits_aux (S f) n acc =
    (let acc' := String (ascii_of_nat (48 + Z.to_nat (n mod 10))) acc in
     if n <? 10 then acc' else digits_aux f (n / 10) acc').
Proof. reflexivity. Qed.

Lemma digit_char (n : Z) : 0 <= n -> is_digit (ascii_of_nat (48 + Z.to_nat (n mod 10))) = true.
Proof.
  intros Hn. unfold is_digit.
  assert (H10 : 0 <= n mod 10 < 10) by (apply Z.mod_pos_bound; lia).
  rewrite Ascii.nat_ascii_embedding by lia.
  apply andb_true_intro. split; apply Nat.leb_le; lia.
Qed.

Lemma digits_aux_digits (f : nat) (n : Z) (acc : string) :
  0 <= n -> str_all is_digit acc = true -> str_all is_digit (digits_aux f n acc) = true.
Proof.
  revert n acc; induction f as [|f IH]; intros n acc Hn Hacc; cbn [digits_aux]; [exact Hacc|].
  assert (Hd : str_all is_digit
                 (String (ascii_of_nat (48 + Z.to_nat (n mod 10))) acc) = true).
  { cbn [str_all]. rewrite digit_char, Hacc by exact Hn. reflexivity. }
  destruct (n <? 10); [exact Hd|].
  apply IH; [apply Z.div_pos; lia | exact Hd].
Qed.

Lemma digits_aux_nonempty (f : nat) (n : Z) (acc : string) :
  acc <> EmptyString -> digits_aux f n acc <> EmptyString.
Proof.
  revert n acc; induction f as [|f IH]; intros n acc Hacc; cbn [digits_aux]; [exact Hacc|].
  destruct (n <? 10); [discriminate|]. apply IH. discriminate.
Qed.

Lemma parse_digits_aux (f : nat) (n : Z) (acc : string) (a : Z) :
  0 <= n < 10 ^ Z.of_nat f ->
  exists k, 0 <= k /\
    parse_digits (digits_aux f n acc) a = parse_digits acc (a * 10 ^ k + n).
Proof.
  revert n acc a; induction f as [|f IH]; intros n acc a Hn.
  - cbn in Hn. exists 0. split; [lia|]. cbn [digits_aux]. f_equal. lia.
  - rewrite Nat2Z.inj_succ, Z.pow_succ_r in Hn by lia.
    assert (H10 : 0 <= n mod 10 < 10) by (apply Z.mod_pos_bound; lia).
    assert (Hc : parse_digits (String (ascii_of_nat (48 + Z.to_nat (n mod 10))) acc) a
                 = parse_digits acc (10 * a + n mod 10)).
    { cbn [parse_digits]. rewrite Ascii.nat_ascii_embedding by lia.
      replace (Z.of_nat (48 + Z.to_nat (n mod 10)) - 48) with (n mod 10) by lia.
      replace ((0 <=? n mod 10) && (n mod 10 <=? 9)) with true; [reflexivity|].
      symmetry. apply andb_true_intro. split; apply Z.leb_le; lia. }
    cbn [digits_aux]. destruct (Z.ltb_spec n 10).
    + exists 1. split; [lia|]. rewrite Hc. rewrite Z.mod_small by lia. f_equal. lia.
    + destruct (IH (n / 10) (String (ascii_of_nat (48 + Z.to_nat (n mod 10))) acc) a)
        as (k & Hk & E).
      { split; [apply Z.div_pos; lia|]. apply Z.div_lt_upper_bound; lia. }
      exists (Z.succ k). split; [lia|]. rewrite E. cbn [parse_digits].
      rewrite Ascii.nat_ascii_embedding by lia.
      replace (Z.of_nat (48 + Z.to_nat (n mod 10)) - 48) with (n mod 10) by lia.
      replace ((0 <=? n mod 10) && (n mod 10 <=? 9)) with true.
      2:{ symmetry. apply andb_true_intro. split; apply Z.leb_le; lia. }
      f_equal. rewrite Z.pow_succ_r by lia.
      pose proof (Z.div_mod n 10 ltac:(lia)). lia.
Qed.

Lemma int_of_string_digits (s : string) :
  s <> EmptyString -> str_all is_digit s = true ->
  int_of_string s = match parse_digits s 0 with Some n => Ok (1 * n) | None => Err ValueError end.
Proof.
  destruct s as [|c r]; [congruence|]. intros _ [Hc _]%andb_prop.
  destruct c as [[] [] [] [] [] [] [] []]; try discriminate Hc; reflexivity.
Qed.

Lemma str_fuel_bound (n : Z) : 0 <= n -> n < 10 ^ Z.of_nat (str_fuel n).
Proof.
  intros Hn. unfold str_fuel. rewrite Nat2Z.inj_succ, Z2Nat.id by apply Z.log2_nonneg.
  destruct (Z.eq_dec n 0) as [->|Hn0]; [reflexivity|].
  destruct (Z.log2_spec n) as [_ Hlt]; [lia|].
  assert (Hp : 2 ^ Z.succ (Z.log2 n) <= 10 ^ Z.succ (Z.log2 n)).
  { apply Z.pow_le_mono_l. lia. }
  lia.
Qed.

Lemma int_of_str_Z (v : Z) : 0 <= v -> int_of_string (str_Z v) = Ok v.
Proof.
  intros Hv. unfold str_Z. replace (v <? 0) with false by (symmetry; apply Z.ltb_ge; lia).
  rewrite int_of_string_digits.
  - destruct (parse_digits_aux (str_fuel v) v "" 0) as (k & _ & ->).
    { split; [exact Hv | apply str_fuel_bound; exact Hv]. }
    cbn. f_equal. lia.
  - unfold str_fuel. rewrite digits_aux_S. cbv zeta.
    destruct (v <? 10); [discriminate|]. apply digits_aux_nonempty. discriminate.
  - apply digits_aux_digits; [lia | reflexivity].
Qed.

Lemma str_Z_nonneg (v : Z) :
  0 <= v ->
  str_Z v <> EmptyString /\ str_all is_digit (str_Z v) = true /\ int_of_string (str_Z v) = Ok v.
Proof.
  intros Hv. split; [|split; [|apply int_of_str_Z; exact Hv]]; unfold str_Z;
    replace (v <? 0) with false by (symmetry; apply Z.ltb_ge; lia).
  - unfold str_fuel. rewrite digits_aux_S. cbv zeta.
    destruct (v <? 10); [discriminate|]. apply digits_aux_nonempty. discriminate.
  - apply digits_aux_digits; [lia | reflexivity].
Qed.

Lemma str_Z_neg (v : Z) :
  v < 0 -> exists ds, str_Z v = String "-" ds /\ str_all is_digit ds = true.
Proof.
  intros Hv. unfold str_Z. replace (v <? 0) with true by (symmetry; apply Z.ltb_lt; lia).
  eexists. split; [reflexivity|]. apply digits_aux_digits; [lia | reflexivity].
Qed.

Lemma new_die_bad (v : Z) : ~ (1 <= v <= 6) -> v <> -1 -> new_die v = Err ValueError.
Proof.
  intros H1 H2. unfold new_die, Die_new.
  replace ((1 <=? v) && (v <=? 6)) with false.
  2:{ symmetry. apply Bool.not_true_iff_false. intros [Ha Hb]%andb_prop.
      apply Z.leb_le in Ha, Hb. lia. }
  replace (v =? -1) with false by (symmetry; apply Z.eqb_neq; exact H2).
  reflexivity.
Qed.

Lemma from_name_schock_branch (s : string) :
  str_all (not_char "u") s = true ->
  Hand_from_name (String.append "Schock-" s) =
    (let* p := list_get (split_on "-" (String.append "Schock-" s)) 1 in
     let* v := int_of_string p in
     let* d := mapM new_die [1; 1; v] in
     let* hand := set_dice Hand_empty d in update hand).
Proof.
  intros Hs. unfold Hand_from_name.
  replace (String.eqb (String.append "Schock-" s) "Motte") with false by reflexivity.
  rewrite (contains_needs_char "u" "Schock-out"); [| reflexivity |].
  2:{ rewrite str_all_app, Hs. reflexivity. }
  rewrite contains_app by discriminate.
  destruct (list_get _ 1) as [p|e]; [|reflexivity]. cbn [bind_res].
  destruct (int_of_string p) as [v|e]; [|reflexivity]. cbn [bind_res].
  destruct (mapM new_die [1; 1; v]) as [d|e]; reflexivity.
Qed.

Lemma from_name_general_branch (s : string) :
  str_all (not_char "S") s = true ->
  Hand_from_name (String.append "General-" s) =
    (let* p := list_get (split_on "-" (String.append "General-" s)) 1 in
     let* v := int_of_string p in
     let* d := mapM new_die [v; v; v] in
     let* hand := set_dice Hand_empty d in update hand).
Proof.
  intros Hs. unfold Hand_from_name.
  replace (String.eqb (String.append "General-" s) "Motte") with false by reflexivity.
  assert (HS : str_all (not_char "S") (String.append "General-" s) = true).
  { rewrite str_all_app, Hs. reflexivity. }
  rewrite (contains_needs_char "S" "Schock-out") by (reflexivity || exact HS).
  rewrite (contains_needs_char "S" "Schock-") by (reflexivity || exact HS).
  rewrite contains_app by discriminate.
  destruct (list_get _ 1) as [p|e]; [|reflexivity]. cbn [bind_res].
  destruct (int_of_string p) as [v|e]; [|reflexivity]. cbn [bind_res].
  destruct (mapM new_die [v; v; v]) as [d|e]; reflexivity.
Qed.

Lemma split_schock (s : string) :
  split_on "-" (String.append "Schock-" s) = "Schock"%string :: split_on "-" s.
Proof. reflexivity. Qed.

Lemma split_general (s : string) :
  split_on "-" (String.append "General-" s) = "General"%string :: split_on "-" s.
Proof. reflexivity. Qed.

(** X8. [Hand.from_name] of "Schock-v" and of "General-v" for any integer [v] (written as [str] writes it): for [v] = 1 both give a Schock-out, for 2 <= [v] <= 6 a Schock [v] and a General [v] respectively, and any other [v] raises [ValueError]. *)
Theorem from_name_schock_general_value (v : Z) :
  hand_type_of (Hand_from_name (String.append "Schock-" (str_Z v))) =
    (if v =? 1 then Ok (mkHandType SchockOut 0)
     else if (2 <=? v) && (v <=? 6) then Ok (mkHandType Schock v) else Err ValueError) /\
  hand_type_of (Hand_from_name (String.append "General-" (str_Z v))) =
    (if v =? 1 then Ok (mkHandType SchockOut 0)
     else if (2 <=? v) && (v <=? 6) then Ok (mkHandType General v) else Err ValueError).
Proof.
  destruct (decide (1 <= v <= 6)) as [Hr|Hr].
  { enum_value v; split; vm_compute; reflexivity. }
  replace (v =? 1) with false by (symmetry; apply Z.eqb_neq; lia).
  replace ((2 <=? v) && (v <=? 6)) with false.
  2:{ symmetry. apply Bool.not_true_iff_false. intros [Ha Hb]%andb_prop.
      apply Z.leb_le in Ha, Hb. lia. }
  destruct (decide (0 <= v)) as [Hn|Hn].
  - destruct (str_Z_nonneg v ltac:(lia)) as (Hne & Hd & Hi).
    rewrite from_name_schock_branch, from_name_general_branch
      by (apply digits_not_char; [reflexivity | exact Hd]).
    rewrite split_schock, split_general, split_on_none
      by (apply digits_not_char; [reflexivity | exact Hd]).
    cbn [list_get nth_error bind_res]. rewrite Hi. cbn [bind_res mapM].
    rewrite (new_die_bad v) by lia. split; reflexivity.
  - destruct (str_Z_neg v ltac:(lia)) as (ds & -> & Hd).
    rewrite from_name_schock_branch, from_name_general_branch
      by (cbn [str_all]; rewrite (digits_not_char _ ds); [reflexivity | reflexivity | exact Hd]).
    split; reflexivity.
Qed.

Module RosterFacts.
Import Roster.

Lemma pid_max_cons (k : Z) (l : list (option Z)) :
  l <> [] -> pid_max (Some k :: l) = let* m := pid_max l in Ok (Z.max k m).
Proof. destruct l as [|[j|] l]; [congruence | reflexivity | reflexivity]. Qed.

Lemma pid_max_seq (a n : nat) :
  pid_max (map (fun k => Some (Z.of_nat k)) (seq a (S n))) = Ok (Z.of_nat (a + n)).
Proof.
  revert a; induction n as [|n IH]; intros a.
  - cbn. f_equal. lia.
  - change (seq a (S (S n))) with (a :: seq (S a) (S n)). cbn [map].
    rewrite pid_max_cons by (cbn; discriminate).
    rewrite IH. cbn [bind_res]. f_equal. lia.
Qed.

Lemma nodup_length_NoDup {A} (dec : forall x y : A, {x = y} + {x <> y}) (l : list A) :
  List.NoDup l -> length (List.nodup dec l) = length l.
Proof. intros H. rewrite List.nodup_fixed_point; [reflexivity | exact H]. Qed.

Lemma add_one (s : state) (r : nat) :
  consecutive s -> ~ In r (players s) -> ids s r = None ->
  exists s', add_player (APlayer r) s = (s', Ok tt) /\
    players s' = players s ++ [r] /\ consecutive s' /\
    rounds_lost s' = map (fun o => (o, 0)) (pids s') /\
    (forall r', r' <> r -> ids s' r' = ids s r').
Proof.
  intros Hc Hr Hn. cbn [add_player].
  rewrite Hn.
  replace (existsb _ (pids s)) with false.
  2:{ symmetry. apply Bool.not_true_iff_false. intros (o & Ho & Hb)%existsb_exists.
      apply bool_decide_eq_true in Hb. subst o. rewrite Hc in Ho.
      apply in_map_iff in Ho as (k & Hk & _). discriminate. }
  set (n := length (players s)).
  assert (Hm : (match players s with [] => Ok (-1) | _ => pid_max (pids s) end)
               = Ok (Z.of_nat n - 1)).
  { unfold n. destruct (players s) as [|p ps] eqn:Ep; [reflexivity|].
    rewrite Hc, Ep. cbn [length]. rewrite pid_max_seq. f_equal. lia. }
  rewrite Hm.
  set (ids' := fun r' => if Nat.eqb r' r then Some (Z.of_nat n - 1 + 1) else ids s r').
  assert (Hp : map ids' (players s ++ [r]) =
               map (fun k => Some (Z.of_nat k)) (seq 0 (length (players s ++ [r])))).
  { rewrite map_app, length_app. cbn [length]. rewrite Nat.add_1_r, seq_S, map_app.
    f_equal.
    - rewrite <- Hc. unfold pids. apply map_ext_in. intros x Hx. unfold ids'.
      destruct (Nat.eqb_spec x r); [subst; contradiction|reflexivity].
    - cbn. unfold ids'. rewrite Nat.eqb_refl. f_equal. f_equal. unfold n. lia. }
  unfold finish.
  change (pids (mkState ids' (players s ++ [r]) (rounds_lost s)))
    with (map ids' (players s ++ [r])).
  change (players (mkState ids' (players s ++ [r]) (rounds_lost s))) with (players s ++ [r]).
  rewrite Hp.
  rewrite nodup_length_NoDup.
  2:{ apply List.NoDup_map_NoDup_ForallPairs; [|apply List.seq_NoDup].
      intros x y _ _ E. injection E. lia. }
  rewrite length_map, length_seq, Nat.eqb_refl.
  eexists. split; [reflexivity|]. cbn [players ids rounds_lost].
  split; [reflexivity|]. split; [exact Hp|]. split.
  - unfold pids. cbn [players ids]. rewrite map_map. reflexivity.
  - intros r' Hne. unfold ids'. destruct (Nat.eqb_spec r' r); [contradiction|reflexivity].
Qed.

Lemma finish_consecutive (s : state) :
  consecutive s ->
  finish s = (mkState (ids s) (players s) (map (fun r => (ids s r, 0)) (players s)), Ok tt).
Proof.
  intros Hc. unfold finish. rewrite Hc, nodup_length_NoDup.
  - rewrite length_map, length_seq, Nat.eqb_refl. reflexivity.
  - apply List.NoDup_map_NoDup_ForallPairs; [|apply List.seq_NoDup].
    intros x y _ _ E. injection E. lia.
Qed.

Lemma add_each_fresh (rs : list nat) (s : state) :
  consecutive s -> List.NoDup rs ->
  (forall r, In r rs -> ~ In r (players s) /\ ids s r = None) ->
  exists s', add_each add_player (map APlayer rs) s = (s', Ok tt) /\
    players s' = players s ++ rs /\ consecutive s'.
Proof.
  revert s; induction rs as [|r rs IH]; intros s Hc Hnd Hf.
  - exists s. rewrite app_nil_r. auto.
  - apply List.NoDup_cons_iff in Hnd as [Hnin Hnd].
    destruct (Hf r (or_introl eq_refl)) as [Hr Hn].
    destruct (add_one s r Hc Hr Hn) as (s1 & E1 & P1 & C1 & _ & I1).
    cbn [map add_each]. rewrite E1.
    destruct (IH s1 C1 Hnd) as (s2 & E2 & P2 & C2).
    + intros r' Hin. destruct (Hf r' (or_intror Hin)) as [Hr' Hn'].
      assert (r' <> r) by (intros ->; contradiction).
      rewrite P1, I1 by assumption. split; [|exact Hn'].
      rewrite in_app_iff. cbn. intuition.
    + exists s2. split; [exact E2|]. split; [|exact C2].
      rewrite P2, P1, <- app_assoc. reflexivity.
Qed.

(** X9. Adding a non-empty list of distinct new players to a game whose ids are 0..n-1 appends them in order, gives them the ids n, n+1, ..., and resets [rounds_lost] to 0 for every player. *)
Lemma add_list_fresh (rs : list nat) (s : state) :
  consecutive s -> rs <> [] -> List.NoDup rs ->
  (forall r, In r rs -> ~ In r (players s) /\ ids s r = None) ->
  exists s', add_player (AList (map APlayer rs)) s = (s', Ok tt) /\
    players s' = players s ++ rs /\ consecutive s' /\
    rounds_lost s' = map (fun o => (o, 0)) (pids s').
Proof.
  intros Hc Hne Hnd Hf.
  destruct (add_each_fresh rs s Hc Hnd Hf) as (s1 & E1 & P1 & C1).
  destruct rs as [|r0 rs0]; [congruence|].
  change (add_player (AList (map APlayer (r0 :: rs0))) s)
    with (match add_each add_player (map APlayer (r0 :: rs0)) s with
          | (s', Ok _) => finish s' | (s', Err e) => (s', Err e) end).
  rewrite E1, finish_consecutive by exact C1.
  eexists. split; [reflexivity|]. cbn [players ids rounds_lost].
  split; [exact P1|]. split; [exact C1|].
  unfold pids. cbn [players ids]. rewrite map_map. reflexivity.
Qed.

Lemma pids_in (s : state) (r : nat) : In r (players s) -> In (ids s r) (pids s).
Proof. intros H. unfold pids. apply in_map. exact H. Qed.

Lemma add_player_present (s : state) (r : nat) :
  In r (players s) -> add_player (APlayer r) s = (s, Err ValueError).
Proof.
  intros H. cbn [add_player].
  replace (existsb _ (pids s)) with true; [reflexivity|].
  symmetry. apply existsb_exists. exists (ids s r). split; [apply pids_in; exact H|].
  apply bool_decide_eq_true. reflexivity.
Qed.

(** X11. Adding the list [p, p] of one new player adds [p] once and then raises [ValueError]; the first addition is not rolled back. *)
Lemma add_twice_in_list (s : state) (r : nat) :
  consecutive s -> ~ In r (players s) -> ids s r = None ->
  exists s', add_player (AList [APlayer r; APlayer r]) s = (s', Err ValueError) /\
    players s' = players s ++ [r] /\ consecutive s'.
Proof.
  intros Hc Hr Hn.
  destruct (add_one s r Hc Hr Hn) as (s1 & E1 & P1 & C1 & _).
  change (add_player (AList [APlayer r; APlayer r]) s)
    with (match add_each add_player [APlayer r; APlayer r] s with
          | (s', Ok _) => finish s' | (s', Err e) => (s', Err e) end).
  cbn [add_each]. rewrite E1.
  rewrite add_player_present by (rewrite P1; apply in_or_app; right; left; reflexivity).
  exists s1. auto.
Qed.

Lemma find_by_id_seq (s : state) (l : list nat) (a : nat) (pid : Z) :
  map (ids s) l = map (fun k => Some (Z.of_nat k)) (seq a (length l)) ->
  find_by_id s l pid =
    if bool_decide (Z.of_nat a <= pid < Z.of_nat a + Z.of_nat (length l))
    then match nth_error l (Z.to_nat pid - a) with Some r => Ok r | None => Err ValueError end
    else Err ValueError.
Proof.
  revert a; induction l as [|r l IH]; intros a H.
  - cbn. case_bool_decide; [lia | reflexivity].
  - cbn [map length seq] in H. injection H as Hr Hl.
    cbn [find_by_id]. rewrite Hr. rewrite (IH (S a) Hl).
    destruct (decide (pid = Z.of_nat a)) as [->|Hne].
    + rewrite bool_decide_eq_true_2 by reflexivity.
      rewrite bool_decide_eq_true_2 by (cbn [length]; lia).
      rewrite Nat2Z.id, Nat.sub_diag. reflexivity.
    + rewrite bool_decide_eq_false_2 by congruence.
      cbn [length].
      case_bool_decide as H1; case_bool_decide as H2; try lia.
      * replace (Z.to_nat pid - a)%nat with (S (Z.to_nat pid - S a)) by lia. reflexivity.
      * reflexivity.
Qed.

Lemma get_player_by_id_consecutive (s : state) (pid : Z) :
  consecutive s ->
  get_player_by_id s pid =
    if bool_decide (0 <= pid < Z.of_nat (length (players s)))
    then match nth_error (players s) (Z.to_nat pid) with Some r => Ok r | None => Err ValueError end
    else Err ValueError.
Proof.
  intros Hc. unfold get_player_by_id. rewrite (find_by_id_seq s (players s) 0 pid Hc).
  rewrite Nat.sub_0_r. reflexivity.
Qed.

(** X12. In a game whose ids are 0..n-1, [get_player_by_id(p.id)] returns [p] for every player [p], and any id outside 0..n-1 raises [ValueError]. *)
Lemma get_player_by_id_roundtrip (s : state) :
  consecutive s ->
  (forall r, In r (players s) -> exists k, ids s r = Some k /\ get_player_by_id s k = Ok r) /\
  (forall pid, pid < 0 \/ Z.of_nat (length (players s)) <= pid ->
     get_player_by_id s pid = Err ValueError).
Proof.
  intros Hc. split.
  - intros r Hr. apply In_nth_error in Hr as [i Hi].
    assert (Hlt : (i < length (players s))%nat) by (apply nth_error_Some; congruence).
    assert (Hk : ids s r = Some (Z.of_nat i)).
    { pose proof (f_equal (fun l => nth_error l i) Hc) as E. cbn beta in E.
      unfold pids in E. rewrite nth_error_map, Hi in E. cbn in E.
      rewrite nth_error_map, nth_error_seq in E by exact Hlt.
      rewrite (proj2 (Nat.ltb_lt _ _) Hlt) in E. cbn in E. injection E as E. exact E. }
    exists (Z.of_nat i). split; [exact Hk|].
    rewrite (get_player_by_id_consecutive s _ Hc).
    rewrite bool_decide_eq_true_2 by lia. rewrite Nat2Z.id, Hi. reflexivity.
  - intros pid Hp. rewrite (get_player_by_id_consecutive s _ Hc).
    rewrite bool_decide_eq_false_2 by lia. reflexivity.
Qed.

(** X10. Adding a player who is already in the game raises [ValueError] and changes nothing. *)
Theorem add_player_present_fails (s : state) (r : nat) :
  In r (players s) -> add_player (APlayer r) s = (s, Err ValueError).
Proof. apply add_player_present. Qed.

(** ** Witnesses *)

Lemma add_list_fresh_witness :
  exists s', add_player (AList (map APlayer [0; 1; 2]%nat)) empty = (s', Ok tt) /\
    players s' = players empty ++ [0; 1; 2]%nat /\ consecutive s' /\
    rounds_lost s' = map (fun o => (o, 0)) (pids s').
Proof.
  apply (add_list_fresh [0; 1; 2]%nat empty).
  - reflexivity.
  - discriminate.
  - repeat constructor; cbn; lia.
  - intros r _. split; [intros []|reflexivity].
Defined.

Lemma add_player_present_fails_witness :
  In 1%nat (players demo_roster) /\
  add_player (APlayer 1) demo_roster = (demo_roster, Err ValueError).
Proof.
  assert (H : In 1%nat (players demo_roster)) by (cbn; right; left; reflexivity).
  split; [exact H|]. exact (add_player_present_fails demo_roster 1 H).
Defined.

Lemma add_twice_in_list_witness :
  exists s', add_player (AList [APlayer 0; APlayer 0]) empty = (s', Err ValueError) /\
    players s' = players empty ++ [0%nat] /\ consecutive s'.
Proof.
  apply (add_twice_in_list empty 0); [reflexivity | intros [] | reflexivity].
Defined.

Lemma get_player_by_id_roundtrip_witness :
  consecutive demo_roster /\
  (forall r, In r (players demo_roster) ->
     exists k, ids demo_roster r = Some k /\ get_player_by_id demo_roster k = Ok r) /\
  (forall pid, pid < 0 \/ Z.of_nat (length (players demo_roster)) <= pid ->
     get_player_by_id demo_roster pid = Err ValueError).
Proof.
  assert (H : consecutive demo_roster) by reflexivity.
  split; [exact H|]. exact (get_player_by_id_roundtrip demo_roster H).
Defined.

End RosterFacts.

Lemma list_index_spec (x : Z) (l : list Z) :
  match list_index x l with
  | Some n => nth_error l n = Some x /\ ~ In x (take n l)
  | None => ~ In x l
  end.
Proof.
  induction l as [|y l IH]; cbn; [tauto|].
  destruct (Z.eqb_spec y x) as [->|Hne]; cbn; [tauto|].
  destruct (list_index x l) as [n|]; cbn; [|intuition].
  destruct IH as [H1 H2]. split; [exact H1|]. intuition.
Qed.

Lemma nth_error_drop_cons {A} (l : list A) (n : nat) (x : A) :
  nth_error l n = Some x -> drop n l = x :: drop (S n) l.
Proof.
  revert n; induction l as [|y l IH]; intros [|n] H; cbn in *; try discriminate.
  - injection H as ->. reflexivity.
  - apply IH. exact H.
Qed.

(** X13. [_change_starting_player] with a starter who is active and in the game returns the active players in game order rotated to start with the starter; a starter not active or not in the game, or [None], raises [ValueError]. *)
Theorem change_starting_player_rotation (all active : list Z) (s : Z) :
  (In s all /\ In s active ->
   exists front back,
     filter (fun p => bool_decide (p ∈ active)) all = front ++ s :: back /\
     ~ In s front /\
     change_starting_player all active (Some s) = Ok (s :: back ++ front)) /\
  (~ (In s all /\ In s active) ->
   change_starting_player all active (Some s) = Err ValueError) /\
  change_starting_player all active None = Err ValueError.
Proof.
  set (og := filter (fun p => bool_decide (p ∈ active)) all).
  assert (Hog : In s og <-> In s all /\ In s active).
  { unfold og. rewrite <- !list_elem_of_In, list_elem_of_filter.
    rewrite bool_decide_spec. tauto. }
  unfold change_starting_player. fold og.
  pose proof (list_index_spec s og) as Hi.
  split; [|split; [|reflexivity]].
  - intros Hin. destruct (list_index s og) as [n|].
    + destruct Hi as [Hn Hnt].
      exists (take n og), (drop (S n) og). split; [|split; [exact Hnt|]].
      * rewrite <- (nth_error_drop_cons og n s Hn). symmetry. apply take_drop.
      * rewrite (nth_error_drop_cons og n s Hn). reflexivity.
    + exfalso. apply Hi. apply Hog. exact Hin.
  - intros Hn. destruct (list_index s og) as [n|]; [|reflexivity].
    exfalso. apply Hn, Hog. destruct Hi as [Hi _].
    eapply nth_error_In. exact Hi.
Qed.

(** X14. The end-of-mini-round check raises [ValueError] when some balance is above 13 or below 0; otherwise the half's loser becomes the last player (in balance order) holding 13 chips, or stays as it was. *)
Theorem check_balances_spec (bal : list (Z * Z)) (lost : option Z) :
  check_balances bal lost =
    if existsb balance_out_of_range bal then Err ValueError
    else Ok (last_with_13 bal lost).
Proof.
  unfold last_with_13. revert lost.
  induction bal as [|[p c] bal IH]; intros lost; cbn [check_balances existsb fold_left].
  - reflexivity.
  - unfold balance_out_of_range at 1; cbn [snd].
    destruct (Z.eqb_spec c 13) as [->|Hne].
    + rewrite IH. reflexivity.
    + destruct ((13 <? c) || (c <? 0)); cbn [orb]; [reflexivity|].
      apply IH.
Qed.

Lemma list_remove_other (x q : Z) (t t' : list Z) :
  x <> q -> list_remove x (q :: t) = Ok t' ->
  exists u, t' = q :: u /\ list_remove x t = Ok u.
Proof.
  intros Hne. cbn [list_remove]. destruct (Z.eqb_spec q x); [congruence|].
  destruct (list_remove x t) as [u|e]; cbn [bind_res]; [|discriminate].
  intros H. injection H as <-. eauto.
Qed.

Lemma list_remove_incl (x : Z) (t u : list Z) :
  list_remove x t = Ok u -> forall y, In y u -> In y t.
Proof.
  revert u; induction t as [|z t IH]; intros u; cbn [list_remove]; [discriminate|].
  destruct (Z.eqb_spec z x).
  - intros H. injection H as <-. intros y Hy. right. exact Hy.
  - destruct (list_remove x t) as [v|e] eqn:E; cbn [bind_res]; [|discriminate].
    intros H. injection H as <-. intros y [->|Hy]; [left; reflexivity|].
    right. apply (IH v eq_refl y Hy).
Qed.

(** Once the loop has moved past the first position, the player there is
    never removed. *)
Lemma remove_broke_aliased_keeps_head (fuel : nat) (bal : list (Z * Z)) (idx : nat)
    (q : Z) (t l' : list Z) :
  (1 <= idx)%nat -> ~ In q t ->
  remove_broke_aliased fuel bal idx (q :: t) = Ok l' -> exists u, l' = q :: u.
Proof.
  revert idx t; induction fuel as [|f IH]; intros idx t Hidx Hq H;
    cbn [remove_broke_aliased] in H.
  - injection H as <-. eauto.
  - destruct idx as [|i]; [lia|]. cbn [nth_error] in H.
    destruct (nth_error t i) as [x|] eqn:Ex; [|injection H as <-; eauto].
    assert (Hx : x <> q) by (intros ->; apply Hq; eapply nth_error_In; exact Ex).
    destruct (dict_get bal x) as [c|e]; cbn [bind_res] in H; [|discriminate].
    destruct (c =? 0).
    + destruct (list_remove x (q :: t)) as [t'|e] eqn:Er; cbn [bind_res] in H; [|discriminate].
      destruct (list_remove_other x q t t' Hx Er) as (u & -> & Hu).
      apply (IH (S (S i)) u); [lia| |exact H].
      intros Hin. apply Hq. exact (list_remove_incl x t u Hu q Hin).
    + apply (IH (S (S i)) t); [lia|exact Hq|exact H].
Qed.

(** X15. When the mini-round's player list is the half's active list, and its first player is removed as broke, the player right after it is never removed in that pass (even with no chips), as the loop skips it. *)
Theorem remove_broke_aliased_skips_next (bal : list (Z * Z)) (fuel : nat)
    (p q : Z) (rest l' : list Z) :
  dict_get bal p = Ok 0 -> ~ In q rest ->
  remove_broke_aliased (S fuel) bal 0 (p :: q :: rest) = Ok l' ->
  exists u, l' = q :: u.
Proof.
  intros Hp Hq H. cbn [remove_broke_aliased nth_error] in H.
  rewrite Hp in H. cbn [bind_res Z.eqb list_remove] in H.
  rewrite Z.eqb_refl in H. cbn [bind_res] in H.
  exact (remove_broke_aliased_keeps_head fuel bal 1 q rest l' (le_n 1) Hq H).
Qed.

Lemma play_mini_round_roster th tt g mrp idx g' mr :
  play_mini_round th tt g mrp idx = Ok (g', mr) -> same_roster g g'.
Proof.
  unfold play_mini_round.
  destruct (_ || _); [discriminate|].
  destruct (isort_res _ _) as [[|w ws]|e]; cbn [bind_res]; try discriminate.
  destruct (get_chip_count _); cbn [bind_res]; [|discriminate].
  intros H. injection H as <- _. split; reflexivity.
Qed.

Lemma half_body_roster th tt g hs idx reg g' hs' brk :
  half_body th tt g hs idx reg = Ok (g', hs', brk) -> same_roster g g'.
Proof.
  unfold half_body. intros H.
  repeat match goal with
  | H : bind_res (play_mini_round ?a ?b ?c ?d ?e) _ = Ok _ |- _ =>
      let E := fresh "Em" in
      destruct (play_mini_round a b c d e) as [[? ?]|?] eqn:E; cbn [bind_res] in H;
        [apply play_mini_round_roster in E as [? ?]|discriminate]
  | H : bind_res ?x _ = Ok _ |- _ => destruct x; cbn [bind_res] in H; [|discriminate]
  | H : context [match ?x with Some _ => _ | None => _ end] |- _ => destruct x
  | H : context [match ?d with (_, _) => _ end] |- _ => destruct d
  | H : (if ?b then _ else _) = _ |- _ => destruct b
  end;
  injection H as <- _ _; split; assumption.
Qed.

Lemma half_loop_roster th tt fuel g hs idx reg g' hs' :
  half_loop th tt fuel g hs idx reg = Ok (g', hs') -> same_roster g g'.
Proof.
  revert g hs idx; induction fuel as [|f IH]; intros g hs idx; cbn [half_loop].
  - intros H. injection H as <- _. split; reflexivity.
  - destruct (half_lost_by hs); [intros H; injection H as <- _; split; reflexivity|].
    destruct (idx <? 1000)%nat; [|intros H; injection H as <- _; split; reflexivity].
    destruct (half_body th tt g hs idx reg) as [[[g1 hs1] brk]|e] eqn:Eb;
      cbn [bind_res]; [|discriminate].
    apply half_body_roster in Eb as [P1 R1].
    destruct brk.
    + intros H. injection H as <- _. split; assumption.
    + intros H. destruct (IH g1 hs1 (S idx) H) as [P2 R2].
      split; congruence.
Qed.

Lemma play_half_roster th tt g hi ps g' hs :
  play_half th tt g hi ps = Ok (g', hs) -> same_roster g g'.
Proof.
  unfold play_half. destruct (half_init g hi ps); cbn [bind_res]; [|discriminate].
  apply half_loop_roster.
Qed.

Lemma play_round_rounds th tt g ri g' r :
  play_round th tt g ri = Ok (g', r) ->
  players g' = players g /\ rounds g' = rounds g ++ [r] /\ round_index r = ri.
Proof.
  unfold play_round.
  destruct (play_half th tt g 0 None) as [[g0 h0]|e] eqn:E0; cbn [bind_res]; [|discriminate].
  destruct (play_half th tt g0 1 None) as [[g1 h1]|e] eqn:E1; cbn [bind_res]; [|discriminate].
  apply play_half_roster in E0 as [P0 R0]. apply play_half_roster in E1 as [P1 R1].
  destruct (bool_decide _).
  - intros H. injection H as <- <-. cbn. repeat split; congruence.
  - destruct (mapM _ _) as [fp|e]; cbn [bind_res]; [|discriminate].
    destruct (play_half th tt g1 2 (Some fp)) as [[g2 h2]|e] eqn:E2;
      cbn [bind_res]; [|discriminate].
    apply play_half_roster in E2 as [P2 R2].
    intros H. injection H as <- <-. cbn. repeat split; congruence.
Qed.

Lemma play_rounds_from_spec th tt g i n g' rs :
  play_rounds_from th tt g i n = Ok (g', rs) ->
  length rs = n /\ players g' = players g /\ rounds g' = rounds g ++ rs /\
  (forall j r, nth_error rs j = Some r -> round_index r = (i + j)%nat).
Proof.
  revert g i g' rs; induction n as [|n IH]; intros g i g' rs; cbn [play_rounds_from].
  - intros H. injection H as <- <-. rewrite app_nil_r.
    split; [reflexivity|]. split; [reflexivity|]. split; [reflexivity|].
    intros [|j] r H; discriminate.
  - destruct (play_round th tt g i) as [[g1 r1]|e] eqn:E1; cbn [bind_res]; [|discriminate].
    destruct (play_rounds_from th tt g1 (S i) n) as [[g2 rs2]|e] eqn:E2;
      cbn [bind_res]; [|discriminate].
    intros H. injection H as <- <-.
    destruct (play_round_rounds th tt g i g1 r1 E1) as (P1 & R1 & I1).
    destruct (IH g1 (S i) g2 rs2 E2) as (L2 & P2 & R2 & I2).
    split; [cbn; congruence|]. split; [congruence|].
    split; [rewrite R2, R1, <- app_assoc; reflexivity|].
    intros [|j] r Hj; cbn in Hj.
    + injection Hj as <-. rewrite I1. lia.
    + rewrite (I2 j r Hj). lia.
Qed.

(** X16. [Game.play_rounds(n)] returns [n] rounds with indices 0..n-1, appends exactly them to [self.rounds] and leaves the players unchanged. *)
Theorem play_rounds_spec th tt g n g' rs :
  play_rounds th tt g n = Ok (g', rs) ->
  length rs = n /\ players g' = players g /\ rounds g' = rounds g ++ rs /\
  (forall j r, nth_error rs j = Some r -> round_index r = j).
Proof.
  intros H. destruct (play_rounds_from_spec th tt g 0 n g' rs H) as (A & B & C & D).
  repeat split; assumption.
Qed.

(** ** [Game._calculate_scores] *)

(** Dicts keyed by player ids, as association lists in insertion order. *)
Ltac vec_eq := repeat (apply pair_equal_spec; split); lia.

Lemma vadd_assoc a b c : vadd a (vadd b c) = vadd (vadd a b) c.
Proof.
  destruct a as [[[? ?] ?] ?], b as [[[? ?] ?] ?], c as [[[? ?] ?] ?].
  cbn. vec_eq.
Qed.

Lemma vadd_zero a : vadd a (0, 0, 0, 0) = a.
Proof. destruct a as [[[? ?] ?] ?]. cbn. rewrite !Z.add_0_r. reflexivity. Qed.

Lemma foldM_measure {A B} (f : B -> A -> result B) (m : B -> counts4) (w : A -> counts4) :
  (forall b x b', f b x = Ok b' -> m b' = vadd (m b) (w x)) ->
  forall l b b', foldM f l b = Ok b' -> m b' = vadd (m b) (vsum (map w l)).
Proof.
  intros Hf l. induction l as [|x l IH]; intros b b'; cbn [foldM map vsum fold_right].
  - intros H. injection H as <-. rewrite vadd_zero. reflexivity.
  - destruct (f b x) as [b1|e] eqn:E; cbn [bind_res]; [|discriminate].
    intros H. rewrite (IH b1 b' H), (Hf b x b1 E). apply eq_sym, vadd_assoc.
Qed.

Lemma sum_balances_app (a b : list (Z * Z)) :
  sum_balances (a ++ b) = sum_balances a + sum_balances b.
Proof. induction a as [|[k v] a IH]; cbn; lia. Qed.

Lemma pdict_replace_sum (d : list (Z * Z)) (k v w : Z) :
  pdict_lookup d k = Some w -> sum_balances (pdict_replace d k v) = sum_balances d - w + v.
Proof.
  induction d as [|[k' x] d IH]; cbn; [discriminate|].
  destruct (k' =? k); cbn.
  - intros H. injection H as ->. lia.
  - intros H. rewrite (IH H). lia.
Qed.

Lemma incr_sum (d d' : list (Z * Z)) (k : option Z) :
  dict_incr d k = Ok d' -> sum_balances d' = sum_balances d + 1.
Proof.
  unfold dict_incr. destruct k as [k|]; cbn [opt_key bind_res]; [|discriminate].
  destruct (pdict_lookup d k) as [v|] eqn:E; [|discriminate].
  intros H. injection H as <-. rewrite (pdict_replace_sum d k (v + 1) v E). lia.
Qed.

Lemma pdict_replace_count (d : list (Z * list string)) (k : Z) (l l' : list string) :
  pdict_lookup d k = Some l ->
  (hand_count (pdict_replace d k l') + length l = hand_count d + length l')%nat.
Proof.
  unfold hand_count. induction d as [|[k' x] d IH]; cbn; [discriminate|].
  destruct (k' =? k); cbn.
  - intros H. injection H as ->. lia.
  - intros H. specialize (IH H). lia.
Qed.

Lemma append_hand_count (d d' : list (Z * list string)) (k : Z) (name : string) :
  append_hand d k name = Ok d' -> hand_count d' = S (hand_count d).
Proof.
  unfold append_hand. destruct (pdict_lookup d k) as [l|] eqn:E; [|discriminate].
  intros H. injection H as <-. pose proof (pdict_replace_count d k l (l ++ [name]) E).
  rewrite length_app in H. cbn in H. lia.
Qed.

Lemma tally_turn_measure st t st' :
  tally_turn st t = Ok st' -> tally_measure st' = vadd (tally_measure st) (0, 0, 0, 1).
Proof.
  destruct st as [[[rl hl] ml] hd]. unfold tally_turn.
  destruct (Hand_to_name (final_hand t)); cbn [bind_res]; [|discriminate].
  destruct (append_hand hd (player_id t) a) as [hd'|e] eqn:E; cbn [bind_res]; [|discriminate].
  intros H. injection H as <-. cbn. rewrite (append_hand_count _ _ _ _ E).
  rewrite !Z.add_0_r. f_equal. lia.
Qed.

Lemma vsum_const_turns (l : list Turn) :
  vsum (map (fun _ => (0, 0, 0, 1)) l) = (0, 0, 0, Z.of_nat (length l)).
Proof. induction l as [|x l IH]; cbn [map vsum fold_right] in *; [reflexivity|].
  fold (vsum (map (fun _ : Turn => (0, 0, 0, 1)) l)). rewrite IH. cbn. f_equal. lia. Qed.

Lemma tally_mini_round_measure st mr st' :
  tally_mini_round st mr = Ok st' -> tally_measure st' = vadd (tally_measure st) (w_mr mr).
Proof.
  destruct st as [[[rl hl] ml] hd]. unfold tally_mini_round.
  destruct (dict_incr ml (mr_lost_by mr)) as [ml'|e] eqn:E; cbn [bind_res]; [|discriminate].
  intros H. rewrite (foldM_measure _ tally_measure (fun _ => (0, 0, 0, 1))
                       tally_turn_measure _ _ _ H).
  rewrite vsum_const_turns. cbn. rewrite (incr_sum _ _ _ E). unfold w_mr.
  vec_eq.
Qed.

Lemma vsum_w_mr (l : list MiniRound) :
  vsum (map w_mr l) = (0, 0, Z.of_nat (length l),
                       Z.of_nat (sum_list_with (fun mr => length (turns mr)) l)).
Proof.
  induction l as [|x l IH]; [reflexivity|].
  change (vsum (map w_mr (x :: l))) with (vadd (w_mr x) (vsum (map w_mr l))).
  rewrite IH. cbn. vec_eq.
Qed.

Lemma tally_half_measure st h st' :
  tally_half st h = Ok st' -> tally_measure st' = vadd (tally_measure st) (w_half h).
Proof.
  destruct st as [[[rl hl] ml] hd]. unfold tally_half.
  destruct (dict_incr hl (half_lost_by h)) as [hl'|e] eqn:E; cbn [bind_res]; [|discriminate].
  intros H. rewrite (foldM_measure _ tally_measure w_mr tally_mini_round_measure _ _ _ H).
  rewrite vsum_w_mr. cbn. rewrite (incr_sum _ _ _ E). unfold w_half.
  vec_eq.
Qed.

Lemma vsum_w_half (l : list Half) :
  vsum (map w_half l) =
    (0, Z.of_nat (length l), Z.of_nat (sum_list_with (fun h => length (mini_rounds h)) l),
     Z.of_nat (sum_list_with (fun h =>
       sum_list_with (fun mr => length (turns mr)) (mini_rounds h)) l)).
Proof.
  induction l as [|x l IH]; [reflexivity|].
  change (vsum (map w_half (x :: l))) with (vadd (w_half x) (vsum (map w_half l))).
  rewrite IH. cbn. vec_eq.
Qed.

Lemma tally_round_measure st r st' :
  tally_round st r = Ok st' -> tally_measure st' = vadd (tally_measure st) (w_round r).
Proof.
  destruct st as [[[rl hl] ml] hd]. unfold tally_round.
  destruct (dict_incr rl (round_lost_by r)) as [rl'|e] eqn:E; cbn [bind_res]; [|discriminate].
  intros H. rewrite (foldM_measure _ tally_measure w_half tally_half_measure _ _ _ H).
  rewrite vsum_w_half. cbn. rewrite (incr_sum _ _ _ E). unfold w_round.
  vec_eq.
Qed.

Lemma vsum_w_round (l : list Round) :
  vsum (map w_round l) =
    (Z.of_nat (length l),
     Z.of_nat (sum_list_with (fun r => length (halves r)) l),
     Z.of_nat (sum_list_with (fun r => sum_list_with (fun h => length (mini_rounds h)) (halves r)) l),
     Z.of_nat (sum_list_with (fun r => sum_list_with (fun h =>
       sum_list_with (fun mr => length (turns mr)) (mini_rounds h)) (halves r)) l)).
Proof.
  induction l as [|x l IH]; [reflexivity|].
  change (vsum (map w_round (x :: l))) with (vadd (w_round x) (vsum (map w_round l))).
  rewrite IH. cbn. vec_eq.
Qed.

Lemma pdict_set_const {V} (d : list (Z * V)) (p : Z) (v : V) :
  Forall (fun kv => snd kv = v) d -> Forall (fun kv => snd kv = v) (pdict_set d p v).
Proof.
  intros Hd. unfold pdict_set. destruct (pdict_lookup d p).
  - clear - Hd. induction d as [|[k x] d IH]; cbn; [constructor|].
    inversion Hd as [|? ? H1 H2]; subst.
    destruct (k =? p); constructor; auto.
  - apply Forall_app. split; [exact Hd|]. constructor; [reflexivity|constructor].
Qed.

Lemma pdict_init_const {V} (ps : list Z) (v : V) :
  Forall (fun kv => snd kv = v) (pdict_init ps v).
Proof.
  unfold pdict_init. assert (H : Forall (fun kv : Z * V => snd kv = v) []) by constructor.
  revert H. generalize (@nil (Z * V)). induction ps as [|p ps IH]; intros d Hd; cbn.
  - exact Hd.
  - apply IH, pdict_set_const, Hd.
Qed.

Lemma hand_count_nil (d : list (Z * list string)) :
  Forall (fun kv => snd kv = []) d -> hand_count d = 0%nat.
Proof. unfold hand_count. induction 1 as [|[k v] d H _ IH]; cbn in *; subst; cbn; lia. Qed.

Lemma sdict_replace_total (d : list (string * Z)) (k : string) (v w : Z) :
  sdict_lookup d k = Some w -> hist_total (sdict_replace d k v) = hist_total d - w + v.
Proof.
  induction d as [|[k' x] d IH]; cbn; [discriminate|].
  destruct (String.eqb k' k); cbn.
  - intros H. injection H as ->. lia.
  - intros H. rewrite (IH H). lia.
Qed.

Lemma sdict_lookup_app_new (d : list (string * Z)) (k : string) :
  sdict_lookup d k = None -> sdict_lookup (d ++ [(k, 0)]) k = Some 0.
Proof.
  induction d as [|[k' x] d IH]; cbn.
  - rewrite String.eqb_refl. reflexivity.
  - destruct (String.eqb k' k); [discriminate|exact IH].
Qed.

Lemma hist_total_app (a b : list (string * Z)) : hist_total (a ++ b) = hist_total a + hist_total b.
Proof. induction a as [|[k v] a IH]; cbn; lia. Qed.

Lemma histogram_add_total (h : list (string * Z)) (s : string) :
  hist_total (histogram_add h s) = hist_total h + 1.
Proof.
  unfold histogram_add. destruct (sdict_lookup h s) as [v|] eqn:E.
  - rewrite E, (sdict_replace_total h s (v + 1) v E). lia.
  - rewrite (sdict_lookup_app_new h s E).
    rewrite (sdict_replace_total _ s (0 + 1) 0 (sdict_lookup_app_new h s E)), hist_total_app.
    cbn. lia.
Qed.

Lemma histogram_total (hs : list string) : hist_total (histogram hs) = Z.of_nat (length hs).
Proof.
  unfold histogram. rewrite <- (Z.add_0_l (Z.of_nat (length hs))).
  change 0 with (hist_total []). generalize (@nil (string * Z)).
  induction hs as [|s hs IH]; intros h; cbn [fold_left length].
  - lia.
  - rewrite IH, histogram_add_total. lia.
Qed.

Lemma hands_total_histogram (hd : list (Z * list string)) :
  hands_total (map (fun '(p, hs) => (p, histogram hs)) hd) = Z.of_nat (hand_count hd).
Proof.
  unfold hands_total, hand_count. induction hd as [|[p hs] hd IH]; [reflexivity|].
  cbn [map fold_right sum_list_with snd]. rewrite IH, histogram_total. lia.
Qed.

Lemma scores_totals (g : Game) (sc : Scores) :
  calculate_scores g = Ok sc ->
  sum_balances (rounds_lost sc) = Z.of_nat (length (rounds g)) /\
  sum_balances (halves_lost sc) = Z.of_nat (n_halves g) /\
  sum_balances (minirounds_lost sc) = Z.of_nat (n_mini_rounds g) /\
  hands_total (hands_played sc) = Z.of_nat (n_turns g).
Proof.
  unfold calculate_scores.
  destruct (foldM tally_round (rounds g) _) as [[[[rl hl] ml] hd]|e] eqn:E;
    cbn [bind_res]; [|discriminate].
  intros H. injection H as <-. cbn [rounds_lost halves_lost minirounds_lost hands_played].
  pose proof (foldM_measure _ tally_measure w_round tally_round_measure _ _ _ E) as M.
  rewrite vsum_w_round in M. cbn [tally_measure] in M.
  rewrite (sum_balances_zero _ (pdict_init_const _ _)), (hand_count_nil _ (pdict_init_const _ _)) in M.
  cbn in M. injection M as M1 M2 M3 M4.
  rewrite hands_total_histogram. unfold n_halves, n_mini_rounds, n_turns. lia.
Qed.

(** [o] is the id of one of the players [ps]. *)
Lemma foldM_inv {A B} (f : B -> A -> result B) (I : B -> Prop) (Q : A -> Prop) :
  (forall b x b', I b -> f b x = Ok b' -> I b' /\ Q x) ->
  forall l b b', I b -> foldM f l b = Ok b' -> I b' /\ Forall Q l.
Proof.
  intros Hf l. induction l as [|x l IH]; intros b b' Hb; cbn [foldM].
  - intros H. injection H as <-. split; [exact Hb|constructor].
  - destruct (f b x) as [b1|e] eqn:E; cbn [bind_res]; [|discriminate].
    intros H. destruct (Hf b x b1 Hb E) as [I1 Q1].
    destruct (IH b1 b' I1 H) as [I2 Q2]. split; [exact I2|constructor; assumption].
Qed.

Lemma pdict_replace_keys {V} (d : list (Z * V)) (k : Z) (v : V) :
  map fst (pdict_replace d k v) = map fst d.
Proof.
  induction d as [|[k' x] d IH]; cbn; [reflexivity|].
  destruct (k' =? k); cbn; [reflexivity|]. rewrite IH. reflexivity.
Qed.

Lemma pdict_lookup_keys {V} (d : list (Z * V)) (k : Z) :
  pdict_lookup d k <> None <-> In k (map fst d).
Proof.
  induction d as [|[k' x] d IH]; cbn; [tauto|].
  destruct (Z.eqb_spec k' k); [subst; split; [tauto|congruence]|].
  rewrite IH. intuition.
Qed.

Lemma incr_keys (d d' : list (Z * Z)) (o : option Z) :
  dict_incr d o = Ok d' -> map fst d' = map fst d /\ loser_in (map fst d) o.
Proof.
  unfold dict_incr. destruct o as [k|]; cbn [opt_key bind_res]; [|discriminate].
  destruct (pdict_lookup d k) as [v|] eqn:E; [|discriminate].
  intros H. injection H as <-. split; [apply pdict_replace_keys|].
  exists k. split; [reflexivity|]. apply pdict_lookup_keys. congruence.
Qed.

Lemma append_hand_keys (d d' : list (Z * list string)) (k : Z) (name : string) :
  append_hand d k name = Ok d' -> map fst d' = map fst d /\ In k (map fst d).
Proof.
  unfold append_hand. destruct (pdict_lookup d k) as [l|] eqn:E; [|discriminate].
  intros H. injection H as <-. split; [apply pdict_replace_keys|].
  apply pdict_lookup_keys. congruence.
Qed.

Lemma tally_turn_keys ks st t st' :
  keys_are ks st -> tally_turn st t = Ok st' -> keys_are ks st' /\ In (player_id t) ks.
Proof.
  destruct st as [[[rl hl] ml] hd]. unfold tally_turn. intros (K1 & K2 & K3 & K4).
  destruct (Hand_to_name (final_hand t)); cbn [bind_res]; [|discriminate].
  destruct (append_hand hd (player_id t) a) as [hd'|e] eqn:E; cbn [bind_res]; [|discriminate].
  intros H. injection H as <-. apply append_hand_keys in E as [E1 E2].
  cbn. split; [repeat split; congruence|]. rewrite <- K4. exact E2.
Qed.

Lemma tally_mini_round_keys ks st mr st' :
  keys_are ks st -> tally_mini_round st mr = Ok st' -> keys_are ks st' /\ mini_round_ok ks mr.
Proof.
  destruct st as [[[rl hl] ml] hd]. unfold tally_mini_round. intros (K1 & K2 & K3 & K4).
  destruct (dict_incr ml (mr_lost_by mr)) as [ml'|e] eqn:E; cbn [bind_res]; [|discriminate].
  apply incr_keys in E as [E1 E2]. intros H.
  assert (K : keys_are ks (rl, hl, ml', hd)) by (cbn; repeat split; congruence).
  destruct (foldM_inv tally_turn (keys_are ks) (fun t => In (player_id t) ks)
              (tally_turn_keys ks) _ _ _ K H) as [I Q].
  split; [exact I|]. split; [rewrite <- K3; exact E2|exact Q].
Qed.

Lemma tally_half_keys ks st h st' :
  keys_are ks st -> tally_half st h = Ok st' -> keys_are ks st' /\ half_ok ks h.
Proof.
  destruct st as [[[rl hl] ml] hd]. unfold tally_half. intros (K1 & K2 & K3 & K4).
  destruct (dict_incr hl (half_lost_by h)) as [hl'|e] eqn:E; cbn [bind_res]; [|discriminate].
  apply incr_keys in E as [E1 E2]. intros H.
  assert (K : keys_are ks (rl, hl', ml, hd)) by (cbn; repeat split; congruence).
  destruct (foldM_inv tally_mini_round (keys_are ks) (mini_round_ok ks)
              (tally_mini_round_keys ks) _ _ _ K H) as [I Q].
  split; [exact I|]. split; [rewrite <- K2; exact E2|exact Q].
Qed.

Lemma tally_round_keys ks st r st' :
  keys_are ks st -> tally_round st r = Ok st' -> keys_are ks st' /\ round_ok ks r.
Proof.
  destruct st as [[[rl hl] ml] hd]. unfold tally_round. intros (K1 & K2 & K3 & K4).
  destruct (dict_incr rl (round_lost_by r)) as [rl'|e] eqn:E; cbn [bind_res]; [|discriminate].
  apply incr_keys in E as [E1 E2]. intros H.
  assert (K : keys_are ks (rl', hl, ml, hd)) by (cbn; repeat split; congruence).
  destruct (foldM_inv tally_half (keys_are ks) (half_ok ks)
              (tally_half_keys ks) _ _ _ K H) as [I Q].
  split; [exact I|]. split; [rewrite <- K1; exact E2|exact Q].
Qed.

Lemma pdict_set_keys {V W} (d : list (Z * V)) (e : list (Z * W)) (p : Z) (v : V) (w : W) :
  map fst d = map fst e -> map fst (pdict_set d p v) = map fst (pdict_set e p w).
Proof.
  intros He. unfold pdict_set.
  destruct (pdict_lookup d p) eqn:Ed, (pdict_lookup e p) eqn:Ee.
  - rewrite !pdict_replace_keys. exact He.
  - exfalso. apply (proj2 (pdict_lookup_keys e p)); [|exact Ee].
    rewrite <- He. apply pdict_lookup_keys. congruence.
  - exfalso. apply (proj2 (pdict_lookup_keys d p)); [|exact Ed].
    rewrite He. apply pdict_lookup_keys. congruence.
  - rewrite !map_app, He. reflexivity.
Qed.

Lemma pdict_init_keys {V W} (ps : list Z) (v : V) (w : W) :
  map fst (pdict_init ps v) = map fst (pdict_init ps w).
Proof.
  unfold pdict_init.
  assert (H : map fst (@nil (Z * V)) = map fst (@nil (Z * W))) by reflexivity.
  revert H. generalize (@nil (Z * V)) (@nil (Z * W)).
  induction ps as [|p ps IH]; intros d e H; cbn; [exact H|].
  apply IH, pdict_set_keys, H.
Qed.

Lemma pdict_fold_mem {V} (v : V) (k : Z) (ps : list Z) (d : list (Z * V)) :
  In k (map fst (fold_left (fun d p => pdict_set d p v) ps d)) <-> In k (map fst d) \/ In k ps.
Proof.
  revert d. induction ps as [|p ps IH]; intros d; cbn [fold_left In]; [tauto|].
  rewrite IH. unfold pdict_set.
  destruct (pdict_lookup d p) eqn:E.
  - rewrite pdict_replace_keys. split; [tauto|].
    intros [H|[->|H]]; auto. left. apply pdict_lookup_keys. congruence.
  - rewrite map_app, in_app_iff. cbn. intuition.
Qed.

Lemma pdict_init_mem {V} (ps : list Z) (v : V) (k : Z) :
  In k (map fst (pdict_init ps v)) <-> In k ps.
Proof. unfold pdict_init. rewrite pdict_fold_mem. cbn. tauto. Qed.

Lemma loser_in_iff (ks ps : list Z) (o : option Z) :
  (forall k, In k ks <-> In k ps) -> loser_in ks o -> loser_in ps o.
Proof. intros H (k & E & Hk). exists k. split; [exact E|apply H, Hk]. Qed.

Lemma round_ok_iff (ks ps : list Z) (r : Round) :
  (forall k, In k ks <-> In k ps) -> round_ok ks r -> round_ok ps r.
Proof.
  intros H [Hl Hh]. split; [eapply loser_in_iff; eauto|].
  eapply Forall_impl; [exact Hh|]. intros h [Hl' Hm]. split; [eapply loser_in_iff; eauto|].
  eapply Forall_impl; [exact Hm|]. intros mr [Hl'' Ht]. split; [eapply loser_in_iff; eauto|].
  eapply Forall_impl; [exact Ht|]. intros t Hin. apply H, Hin.
Qed.

Lemma scores_keys (g : Game) (sc : Scores) :
  calculate_scores g = Ok sc ->
  Forall (round_ok (players g)) (rounds g) /\
  (forall k, In k (map fst (rounds_lost sc)) <-> In k (players g)) /\
  map fst (halves_lost sc) = map fst (rounds_lost sc) /\
  map fst (minirounds_lost sc) = map fst (rounds_lost sc) /\
  map fst (hands_played sc) = map fst (rounds_lost sc).
Proof.
  unfold calculate_scores.
  set (ks := map fst (pdict_init (players g) 0)).
  destruct (foldM tally_round (rounds g) _) as [[[[rl hl] ml] hd]|e] eqn:E;
    cbn [bind_res]; [|discriminate].
  intros H. injection H as <-. cbn [rounds_lost halves_lost minirounds_lost hands_played].
  assert (K0 : keys_are ks (pdict_init (players g) 0, pdict_init (players g) 0,
                            pdict_init (players g) 0, pdict_init (players g) [])).
  { cbn. repeat split; [reflexivity..|]. apply pdict_init_keys. }
  destruct (foldM_inv tally_round (keys_are ks) (round_ok ks) (tally_round_keys ks)
              _ _ _ K0 E) as [(K1 & K2 & K3 & K4) Q].
  assert (Hm : forall k, In k ks <-> In k (players g)) by (intros k; apply pdict_init_mem).
  split; [eapply Forall_impl; [exact Q|]; intros r; apply round_ok_iff, Hm|].
  split; [rewrite K1; exact Hm|].
  rewrite map_map. cbn. rewrite K1, K2, K3.
  split; [reflexivity|]. split; [reflexivity|].
  rewrite <- K4. apply map_ext. intros [p hs]. reflexivity.
Qed.

(** X17. When [_calculate_scores] succeeds, the rounds, halves and mini-rounds lost add up to the numbers of rounds, halves and mini-rounds played, and the hand histograms add up to the number of turns. *)
Theorem calculate_scores_totals (g : Game) (sc : Scores) :
  calculate_scores g = Ok sc ->
  sum_balances (rounds_lost sc) = Z.of_nat (length (rounds g)) /\
  sum_balances (halves_lost sc) = Z.of_nat (n_halves g) /\
  sum_balances (minirounds_lost sc) = Z.of_nat (n_mini_rounds g) /\
  hands_total (hands_played sc) = Z.of_nat (n_turns g).
Proof. apply scores_totals. Qed.

(** X18. [_calculate_scores] succeeds only if the loser of every round, half and mini-round and the player of every turn is a player of the game (a [None] loser raises [KeyError]); its four dicts have the same keys, which are the game's player ids. *)
Theorem calculate_scores_keys (g : Game) (sc : Scores) :
  calculate_scores g = Ok sc ->
  Forall (round_ok (players g)) (rounds g) /\
  (forall k, In k (map fst (rounds_lost sc)) <-> In k (players g)) /\
  map fst (halves_lost sc) = map fst (rounds_lost sc) /\
  map fst (minirounds_lost sc) = map fst (rounds_lost sc) /\
  map fst (hands_played sc) = map fst (rounds_lost sc).
Proof. apply scores_keys. Qed.

(** X19. After [play_rounds(n)] on a game with no rounds yet, a successful [_calculate_scores] counts [n] lost rounds in all, and each of those rounds was lost by a player of the game. *)
Theorem play_rounds_then_scores th tt (g : Game) (n : nat) (g' : Game) (rs : list Round)
    (sc : Scores) :
  rounds g = [] -> play_rounds th tt g n = Ok (g', rs) -> calculate_scores g' = Ok sc ->
  sum_balances (rounds_lost sc) = Z.of_nat n /\
  Forall (fun r => loser_in (players g) (round_lost_by r)) rs.
Proof.
  intros H0 Hp Hs.
  destruct (play_rounds_from_spec th tt g 0 n g' rs Hp) as (Hl & Hpl & Hr & _).
  rewrite H0 in Hr. cbn in Hr.
  destruct (scores_totals g' sc Hs) as (T & _).
  destruct (scores_keys g' sc Hs) as (K & _).
  split; [rewrite T, Hr, Hl; reflexivity|].
  rewrite Hr, Hpl in K. eapply Forall_impl; [exact K|]. intros r [Hlr _]. exact Hlr.
Qed.

(** ** Witnesses *)

Lemma update_sorts_and_flags_witness :
  update hand_2_1_4 = Ok hand_2_1_4_updated /\
  dice hand_2_1_4_updated ≡ₚ dice hand_2_1_4 /\
  Sorted (fun x y => value y <= value x) (dice hand_2_1_4_updated) /\
  put_together hand_2_1_4_updated = existsb taken_out (dice hand_2_1_4) || put_together hand_2_1_4 /\
  players_turn_ind hand_2_1_4_updated = players_turn_ind hand_2_1_4 /\
  finalized hand_2_1_4_updated = finalized hand_2_1_4.
Proof.
  assert (H : update hand_2_1_4 = Ok hand_2_1_4_updated) by (vm_compute; reflexivity).
  split; [exact H|]. exact (update_sorts_and_flags _ _ H).
Defined.

Lemma update_idempotent_witness :
  update hand_2_1_4 = Ok hand_2_1_4_updated /\
  update hand_2_1_4_updated = Ok hand_2_1_4_updated.
Proof.
  assert (H : update hand_2_1_4 = Ok hand_2_1_4_updated) by (vm_compute; reflexivity).
  split; [exact H|]. exact (update_idempotent _ _ H).
Defined.

Lemma hand_2_1_4_valid : Forall die_valid (dice hand_2_1_4).
Proof. repeat constructor; unfold die_valid; cbn; lia. Qed.

Lemma Hand_copy_of_updated_witness :
  update hand_2_1_4 = Ok hand_2_1_4_updated /\ Forall die_valid (dice hand_2_1_4) /\
  Hand_copy hand_2_1_4_updated = Ok hand_2_1_4_updated.
Proof.
  assert (H : update hand_2_1_4 = Ok hand_2_1_4_updated) by (vm_compute; reflexivity).
  split; [exact H|]. split; [exact hand_2_1_4_valid|].
  exact (Hand_copy_of_updated _ _ H hand_2_1_4_valid).
Defined.

Lemma get_chip_count_of_updated_witness :
  get_chip_count Hand_empty = Err ValueError /\
  exists h k, update hand_2_1_4 = Ok h /\ get_chip_count h = Ok k /\
    In k [1; 2; 3; 4; 5; 6; 13].
Proof.
  split.
  - apply (proj1 get_chip_count_of_updated). cbn. lia.
  - apply (proj2 get_chip_count_of_updated); [reflexivity | exact hand_2_1_4_valid].
Defined.

Lemma update_then_name_roundtrip_witness :
  length (dice hand_2_1_4) = 3%nat /\ Forall die_valid (dice hand_2_1_4) /\
  exists h, update hand_2_1_4 = Ok h /\ name_roundtrips h.
Proof.
  split; [reflexivity|]. split; [exact hand_2_1_4_valid|].
  exact (update_then_name_roundtrip hand_2_1_4 eq_refl hand_2_1_4_valid).
Defined.

Lemma so_hand_valid : Forall die_valid (dice so_hand).
Proof. repeat constructor; unfold die_valid; cbn; lia. Qed.

Lemma throw_new_hand_finalized_witness :
  finalized so_hand = true /\ Forall die_valid (dice so_hand) /\
  Throw.throw_new_hand roll_3_then_6 so_hand true false false = Err ValueError.
Proof.
  split; [reflexivity|]. split; [exact so_hand_valid|].
  exact (throw_new_hand_finalized roll_3_then_6 so_hand true false eq_refl so_hand_valid eq_refl).
Defined.

Lemma from_name_without_dash_witness :
  "Straight"%string <> "Motte"%string /\ str_contains "-" "Straight" = false /\
  Hand_from_name "Straight" = Err ValueError.
Proof.
  assert (H1 : "Straight"%string <> "Motte"%string) by discriminate.
  assert (H2 : str_contains "-" "Straight" = false) by (vm_compute; reflexivity).
  split; [exact H1|]. split; [exact H2|]. exact (from_name_without_dash _ H1 H2).
Defined.

Lemma change_starting_player_rotation_witness :
  In 3 [1; 2; 3] /\ In 3 [3; 1] /\
  exists front back,
    filter (fun p => bool_decide (p ∈ [3; 1])) [1; 2; 3] = front ++ 3 :: back /\
    ~ In 3 front /\
    change_starting_player [1; 2; 3] [3; 1] (Some 3) = Ok (3 :: back ++ front).
Proof.
  assert (H : In 3 [1; 2; 3] /\ In 3 [3; 1]) by (cbn; split; [right; right; left | left]; reflexivity).
  split; [exact (proj1 H)|]. split; [exact (proj2 H)|].
  exact (proj1 (change_starting_player_rotation [1; 2; 3] [3; 1] 3) H).
Defined.

Lemma remove_broke_aliased_skips_next_witness :
  dict_get [(1, 0); (2, 0); (3, 5)] 1 = Ok 0 /\ ~ In 2 [3] /\
  remove_broke_aliased 3 [(1, 0); (2, 0); (3, 5)] 0 [1; 2; 3] = Ok [2; 3] /\
  exists u, [2; 3] = 2 :: u.
Proof.
  assert (H1 : dict_get [(1, 0); (2, 0); (3, 5)] 1 = Ok 0) by reflexivity.
  assert (H2 : ~ In 2 [3]) by (cbn; lia).
  assert (H3 : remove_broke_aliased 3 [(1, 0); (2, 0); (3, 5)] 0 [1; 2; 3] = Ok [2; 3])
    by (vm_compute; reflexivity).
  split; [exact H1|]. split; [exact H2|]. split; [exact H3|].
  exact (remove_broke_aliased_skips_next _ 2 1 2 [3] [2; 3] H1 H2 H3).
Defined.

Lemma play_rounds_spec_witness :
  play_rounds (fun _ _ _ => so_hand) (fun _ _ _ => 1) demo_game 2 = Ok so_rounds_2 /\
  length (snd so_rounds_2) = 2%nat /\ players (fst so_rounds_2) = players demo_game /\
  rounds (fst so_rounds_2) = rounds demo_game ++ snd so_rounds_2 /\
  (forall j r, nth_error (snd so_rounds_2) j = Some r -> round_index r = j).
Proof.
  assert (H : play_rounds (fun _ _ _ => so_hand) (fun _ _ _ => 1) demo_game 2
              = Ok (fst so_rounds_2, snd so_rounds_2)) by (vm_compute; reflexivity).
  split; [exact H|]. exact (play_rounds_spec _ _ _ _ _ _ H).
Defined.

Lemma calculate_scores_totals_witness :
  calculate_scores (fst so_rounds_2) = Ok so_scores /\
  sum_balances (rounds_lost so_scores) = Z.of_nat (length (rounds (fst so_rounds_2))) /\
  sum_balances (halves_lost so_scores) = Z.of_nat (n_halves (fst so_rounds_2)) /\
  sum_balances (minirounds_lost so_scores) = Z.of_nat (n_mini_rounds (fst so_rounds_2)) /\
  hands_total (hands_played so_scores) = Z.of_nat (n_turns (fst so_rounds_2)).
Proof.
  assert (H : calculate_scores (fst so_rounds_2) = Ok so_scores) by (vm_compute; reflexivity).
  split; [exact H|]. exact (calculate_scores_totals _ _ H).
Defined.

Lemma calculate_scores_keys_witness :
  calculate_scores (fst so_rounds_2) = Ok so_scores /\
  Forall (round_ok (players (fst so_rounds_2))) (rounds (fst so_rounds_2)) /\
  (forall k, In k (map fst (rounds_lost so_scores)) <-> In k (players (fst so_rounds_2))) /\
  map fst (halves_lost so_scores) = map fst (rounds_lost so_scores) /\
  map fst (minirounds_lost so_scores) = map fst (rounds_lost so_scores) /\
  map fst (hands_played so_scores) = map fst (rounds_lost so_scores).
Proof.
  assert (H : calculate_scores (fst so_rounds_2) = Ok so_scores) by (vm_compute; reflexivity).
  split; [exact H|]. exact (calculate_scores_keys _ _ H).
Defined.

Lemma play_rounds_then_scores_witness :
  rounds demo_game = [] /\
  play_rounds (fun _ _ _ => so_hand) (fun _ _ _ => 1) demo_game 2 = Ok so_rounds_2 /\
  calculate_scores (fst so_rounds_2) = Ok so_scores /\
  sum_balances (rounds_lost so_scores) = 2 /\
  Forall (fun r => loser_in (players demo_game) (round_lost_by r)) (snd so_rounds_2).
Proof.
  assert (H0 : rounds demo_game = []) by reflexivity.
  assert (H1 : play_rounds (fun _ _ _ => so_hand) (fun _ _ _ => 1) demo_game 2
               = Ok (fst so_rounds_2, snd so_rounds_2)) by (vm_compute; reflexivity).
  assert (H2 : calculate_scores (fst so_rounds_2) = Ok so_scores) by (vm_compute; reflexivity).
  split; [exact H0|]. split; [exact H1|]. split; [exact H2|].
  exact (play_rounds_then_scores _ _ _ 2 _ _ _ H0 H1 H2).
Defined.
